(** * FB-Automation-Playwright: the session automation controller

    A shallow embedding of the controller of
    [src/controllers/facebookController.js] (class [FacebookController]:
    the constructor, [throttle], [persistSession], [login],
    [sendMessage], [sendFriendRequest], [findMessageInputHandle]) and of
    the helpers it calls: [detectCaptcha] ([src/utils/captcha.js]),
    [captureScreenshot] ([src/utils/screenshot.js]), [humanType] and
    [smallHumanMove] ([src/utils/human.js]), [saveSession]
    ([src/utils/session.js]) and [wait] ([src/utils/wait.js]).

    The browser page, the file system, the clock, the timers and
    [Math.random] are the environment: an abstract world [W] answering
    the calls of the program (class [Browser]).  An asynchronous function
    of the source is a computation in the monad [M]: it threads the
    controller object (the world and the field [_lastActionAt]), it ends
    with a value, with a thrown exception (the message of the JavaScript
    [Error]) or by running out of fuel, and it yields the list of the
    calls it made together with their answers.  Fuel bounds the one loop
    of the source that is not bounded by its data, the polling loop of
    [waitForLoginOutcome], which runs until the clock passes a deadline.

    Modelling conventions.
    - A JavaScript string is carried as its UTF-8 text in a [string].
      [for ... of] visits its code points, [length] and [slice] count
      UTF-16 code units, [toLowerCase] follows the Unicode case
      mappings and [\s] and [trim] the Unicode white space; the regular
      expressions of the source are literal alternatives with the flag
      [i] and are matched as substrings, the ASCII letters in either
      case.  [path.join] is the one of POSIX.
    - A JavaScript number that the source keeps integral is a [Z]; a
      number built from [Math.random] is a [Q], and [Math.floor] is
      [Qfloor].
    - Object literals are association lists of JavaScript values
      ([obj]); reading an absent property gives [VUndef].
    - The methods the source calls on the page exist, with one
      exception: [setViewport] is a method of a Puppeteer page and not
      of the Playwright page that [playwrightServer.js] builds
      ([has_setViewport]).  A failing call rejects its promise
      ([Raise]).  The logger never fails and has no influence on control
      flow: its calls are left out, the page calls made in their
      arguments are kept. *)

From Stdlib Require Import ZArith QArith Qround List String Ascii Bool Lia.
From Stdlib Require DecimalString.
Import ListNotations.
#[local] Open Scope string_scope.
#[local] Open Scope Z_scope.

(** ** JavaScript strings *)

Module Js.

Definition dquote : string := String (ascii_of_nat 34) EmptyString.

(** *** Code points

    A string is carried as its UTF-8 text.  A chunk is the bytes of one
    code point: a byte that is no continuation byte and the continuation
    bytes (10xxxxxx) that follow it, as many as it announces.  Bytes that
    do not form well-formed UTF-8 are chunks of their own and are left
    alone by every operation. *)

Definition is_cont (c : ascii) : bool :=
  match c with Ascii _ _ _ _ _ _ b6 b7 => b7 && negb b6 end.

(** The number of bytes the first byte of a code point announces. *)
Definition width (c : ascii) : nat :=
  match c with
  | Ascii _ _ _ _ _ false true true => 2
  | Ascii _ _ _ _ false true true true => 3
  | Ascii _ _ _ false true true true true => 4
  | _ => 1
  end.

(** The continuation bytes, at most [need], that end the chunk under
    way, and the chunks after it. *)
Fixpoint chars_from (need : nat) (s : string) : string * list string :=
  match s with
  | EmptyString => (EmptyString, [])
  | String c r =>
      if match need with O => false | S _ => is_cont c end
      then let '(cur, rest) := chars_from (Nat.pred need) r in (String c cur, rest)
      else let '(cur, rest) := chars_from (Nat.pred (width c)) r in
           (EmptyString, String c cur :: rest)
  end.

(** The code points of a string, as [for (const ch of s)] and [[...s]]
    give them. *)
Definition chars (s : string) : list string := snd (chars_from 0 s).

(** A code point outside the basic plane: four bytes, two UTF-16 code
    units. *)
Definition astral (c : string) : bool :=
  match c with
  | String a (String _ (String _ (String _ EmptyString))) => Nat.eqb (width a) 4
  | _ => false
  end.

Definition units (c : string) : nat := if astral c then 2%nat else 1%nat.

(** [s.length]: the number of UTF-16 code units. *)
Definition length (s : string) : nat := list_sum (map units (chars s)).

Definition payload (bits : N) (c : ascii) : N := N.land (N_of_ascii c) bits.

(** The number of the code point of a chunk. *)
Definition point_of (c : string) : N :=
  match c with
  | String a EmptyString => N_of_ascii a
  | String a (String b EmptyString) => payload 31 a * 64 + payload 63 b
  | String a (String b (String c EmptyString)) =>
      payload 15 a * 4096 + payload 63 b * 64 + payload 63 c
  | String a (String b (String c (String d EmptyString))) =>
      payload 7 a * 262144 + payload 63 b * 4096 + payload 63 c * 64 + payload 63 d
  | _ => 0
  end%N.

Definition cont_byte (n : N) : ascii :=
  match ascii_of_N n with
  | Ascii b0 b1 b2 b3 b4 b5 _ _ => Ascii b0 b1 b2 b3 b4 b5 false true
  end.

(** The UTF-8 bytes of a code point. *)
Definition encode (cp : N) : string :=
  (if cp <? 128 then String (ascii_of_N cp) EmptyString
   else if cp <? 2048 then
     String (ascii_of_N (192 + cp / 64)) (String (cont_byte cp) EmptyString)
   else if cp <? 65536 then
     String (ascii_of_N (224 + cp / 4096))
       (String (cont_byte (cp / 64)) (String (cont_byte cp) EmptyString))
   else
     String (ascii_of_N (240 + cp / 262144))
       (String (cont_byte (cp / 4096))
          (String (cont_byte (cp / 64)) (String (cont_byte cp) EmptyString))))%N.

(** The code point of a well-formed chunk. *)
Definition point (c : string) : option N :=
  let cp := point_of c in
  if (encode cp =? c)%string then Some cp else None.

(** The first half of the surrogate pair of an astral code point, as a
    code point of its own. *)
Definition high_surrogate (c : string) : string :=
  let hi := (55296 + (point_of c - 65536) / 1024)%N in
  String (ascii_of_N 237)
    (String (cont_byte (hi / 64)) (String (cont_byte hi) EmptyString)).

(** The code points that make up the first [n] code units; a pair cut
    in two leaves its first half. *)
Fixpoint take_units (n : nat) (cs : list string) {struct cs} : list string :=
  match cs with
  | [] => []
  | c :: r =>
      match n with
      | O => []
      | S n' =>
          if astral c then
            match n' with
            | O => [high_surrogate c]
            | S n'' => c :: take_units n'' r
            end
          else c :: take_units n' r
      end
  end.

(** [s.slice(0, n)] *)
Definition slice0 (n : nat) (s : string) : string :=
  String.concat EmptyString (take_units n (chars s)).

(** *** Case

    The lowercase mappings of the Unicode Character Database (version
    14.0): [(first, last, step, image of first)] for the code points
    [first], [first + step], ... up to [last]; U+0130 and U+03A3 are
    treated apart. *)
Definition lowercase_ranges : list (N * N * N * N) :=
  [(65, 90, 1, 97); (192, 214, 1, 224); (216, 222, 1, 248);
   (256, 302, 2, 257); (306, 310, 2, 307); (313, 327, 2, 314);
   (330, 374, 2, 331); (376, 376, 1, 255); (377, 381, 2, 378);
   (385, 385, 1, 595); (386, 388, 2, 387); (390, 390, 1, 596);
   (391, 391, 1, 392); (393, 394, 1, 598); (395, 395, 1, 396);
   (398, 398, 1, 477); (399, 399, 1, 601); (400, 400, 1, 603);
   (401, 401, 1, 402); (403, 403, 1, 608); (404, 404, 1, 611);
   (406, 406, 1, 617); (407, 407, 1, 616); (408, 408, 1, 409);
   (412, 412, 1, 623); (413, 413, 1, 626); (415, 415, 1, 629);
   (416, 420, 2, 417); (422, 422, 1, 640); (423, 423, 1, 424);
   (425, 425, 1, 643); (428, 428, 1, 429); (430, 430, 1, 648);
   (431, 431, 1, 432); (433, 434, 1, 650); (435, 437, 2, 436);
   (439, 439, 1, 658); (440, 440, 1, 441); (444, 444, 1, 445);
   (452, 452, 1, 454); (453, 453, 1, 454); (455, 455, 1, 457);
   (456, 456, 1, 457); (458, 458, 1, 460); (459, 475, 2, 460);
   (478, 494, 2, 479); (497, 497, 1, 499); (498, 500, 2, 499);
   (502, 502, 1, 405); (503, 503, 1, 447); (504, 542, 2, 505);
   (544, 544, 1, 414); (546, 562, 2, 547); (570, 570, 1, 11365);
   (571, 571, 1, 572); (573, 573, 1, 410); (574, 574, 1, 11366);
   (577, 577, 1, 578); (579, 579, 1, 384); (580, 580, 1, 649);
   (581, 581, 1, 652); (582, 590, 2, 583); (880, 882, 2, 881);
   (886, 886, 1, 887); (895, 895, 1, 1011); (902, 902, 1, 940);
   (904, 906, 1, 941); (908, 908, 1, 972); (910, 911, 1, 973);
   (913, 929, 1, 945); (932, 939, 1, 964); (975, 975, 1, 983);
   (984, 1006, 2, 985); (1012, 1012, 1, 952); (1015, 1015, 1, 1016);
   (1017, 1017, 1, 1010); (1018, 1018, 1, 1019); (1021, 1023, 1, 891);
   (1024, 1039, 1, 1104); (1040, 1071, 1, 1072); (1120, 1152, 2, 1121);
   (1162, 1214, 2, 1163); (1216, 1216, 1, 1231); (1217, 1229, 2, 1218);
   (1232, 1326, 2, 1233); (1329, 1366, 1, 1377); (4256, 4293, 1, 11520);
   (4295, 4295, 1, 11559); (4301, 4301, 1, 11565); (5024, 5103, 1, 43888);
   (5104, 5109, 1, 5112); (7312, 7354, 1, 4304); (7357, 7359, 1, 4349);
   (7680, 7828, 2, 7681); (7838, 7838, 1, 223); (7840, 7934, 2, 7841);
   (7944, 7951, 1, 7936); (7960, 7965, 1, 7952); (7976, 7983, 1, 7968);
   (7992, 7999, 1, 7984); (8008, 8013, 1, 8000); (8025, 8031, 2, 8017);
   (8040, 8047, 1, 8032); (8072, 8079, 1, 8064); (8088, 8095, 1, 8080);
   (8104, 8111, 1, 8096); (8120, 8121, 1, 8112); (8122, 8123, 1, 8048);
   (8124, 8124, 1, 8115); (8136, 8139, 1, 8050); (8140, 8140, 1, 8131);
   (8152, 8153, 1, 8144); (8154, 8155, 1, 8054); (8168, 8169, 1, 8160);
   (8170, 8171, 1, 8058); (8172, 8172, 1, 8165); (8184, 8185, 1, 8056);
   (8186, 8187, 1, 8060); (8188, 8188, 1, 8179); (8486, 8486, 1, 969);
   (8490, 8490, 1, 107); (8491, 8491, 1, 229); (8498, 8498, 1, 8526);
   (8544, 8559, 1, 8560); (8579, 8579, 1, 8580); (9398, 9423, 1, 9424);
   (11264, 11311, 1, 11312); (11360, 11360, 1, 11361); (11362, 11362, 1, 619);
   (11363, 11363, 1, 7549); (11364, 11364, 1, 637); (11367, 11371, 2, 11368);
   (11373, 11373, 1, 593); (11374, 11374, 1, 625); (11375, 11375, 1, 592);
   (11376, 11376, 1, 594); (11378, 11378, 1, 11379); (11381, 11381, 1, 11382);
   (11390, 11391, 1, 575); (11392, 11490, 2, 11393); (11499, 11501, 2, 11500);
   (11506, 11506, 1, 11507); (42560, 42604, 2, 42561); (42624, 42650, 2, 42625);
   (42786, 42798, 2, 42787); (42802, 42862, 2, 42803); (42873, 42875, 2, 42874);
   (42877, 42877, 1, 7545); (42878, 42886, 2, 42879); (42891, 42891, 1, 42892);
   (42893, 42893, 1, 613); (42896, 42898, 2, 42897); (42902, 42920, 2, 42903);
   (42922, 42922, 1, 614); (42923, 42923, 1, 604); (42924, 42924, 1, 609);
   (42925, 42925, 1, 620); (42926, 42926, 1, 618); (42928, 42928, 1, 670);
   (42929, 42929, 1, 647); (42930, 42930, 1, 669); (42931, 42931, 1, 43859);
   (42932, 42946, 2, 42933); (42948, 42948, 1, 42900); (42949, 42949, 1, 642);
   (42950, 42950, 1, 7566); (42951, 42953, 2, 42952); (42960, 42960, 1, 42961);
   (42966, 42968, 2, 42967); (42997, 42997, 1, 42998); (65313, 65338, 1, 65345);
   (66560, 66599, 1, 66600); (66736, 66771, 1, 66776); (66928, 66938, 1, 66967);
   (66940, 66954, 1, 66979); (66956, 66962, 1, 66995); (66964, 66965, 1, 67003);
   (68736, 68786, 1, 68800); (71840, 71871, 1, 71872); (93760, 93791, 1, 93792);
   (125184, 125217, 1, 125218)]%N.

Definition case_ignorable_ranges : list (N * N) :=
  [(39, 39); (46, 46); (58, 58); (94, 94); (96, 96); (168, 168);
   (173, 173); (175, 175); (180, 180); (183, 184); (688, 879); (884, 885);
   (890, 890); (900, 901); (903, 903); (1155, 1161); (1369, 1369); (1375, 1375);
   (1425, 1469); (1471, 1471); (1473, 1474); (1476, 1477); (1479, 1479); (1524, 1524);
   (1536, 1541); (1552, 1562); (1564, 1564); (1600, 1600); (1611, 1631); (1648, 1648);
   (1750, 1757); (1759, 1768); (1770, 1773); (1807, 1807); (1809, 1809); (1840, 1866);
   (1958, 1968); (2027, 2037); (2042, 2042); (2045, 2045); (2070, 2093); (2137, 2139);
   (2184, 2184); (2192, 2193); (2200, 2207); (2249, 2306); (2362, 2362); (2364, 2364);
   (2369, 2376); (2381, 2381); (2385, 2391); (2402, 2403); (2417, 2417); (2433, 2433);
   (2492, 2492); (2497, 2500); (2509, 2509); (2530, 2531); (2558, 2558); (2561, 2562);
   (2620, 2620); (2625, 2626); (2631, 2632); (2635, 2637); (2641, 2641); (2672, 2673);
   (2677, 2677); (2689, 2690); (2748, 2748); (2753, 2757); (2759, 2760); (2765, 2765);
   (2786, 2787); (2810, 2815); (2817, 2817); (2876, 2876); (2879, 2879); (2881, 2884);
   (2893, 2893); (2901, 2902); (2914, 2915); (2946, 2946); (3008, 3008); (3021, 3021);
   (3072, 3072); (3076, 3076); (3132, 3132); (3134, 3136); (3142, 3144); (3146, 3149);
   (3157, 3158); (3170, 3171); (3201, 3201); (3260, 3260); (3263, 3263); (3270, 3270);
   (3276, 3277); (3298, 3299); (3328, 3329); (3387, 3388); (3393, 3396); (3405, 3405);
   (3426, 3427); (3457, 3457); (3530, 3530); (3538, 3540); (3542, 3542); (3633, 3633);
   (3636, 3642); (3654, 3662); (3761, 3761); (3764, 3772); (3782, 3782); (3784, 3789);
   (3864, 3865); (3893, 3893); (3895, 3895); (3897, 3897); (3953, 3966); (3968, 3972);
   (3974, 3975); (3981, 3991); (3993, 4028); (4038, 4038); (4141, 4144); (4146, 4151);
   (4153, 4154); (4157, 4158); (4184, 4185); (4190, 4192); (4209, 4212); (4226, 4226);
   (4229, 4230); (4237, 4237); (4253, 4253); (4348, 4348); (4957, 4959); (5906, 5908);
   (5938, 5939); (5970, 5971); (6002, 6003); (6068, 6069); (6071, 6077); (6086, 6086);
   (6089, 6099); (6103, 6103); (6109, 6109); (6155, 6159); (6211, 6211); (6277, 6278);
   (6313, 6313); (6432, 6434); (6439, 6440); (6450, 6450); (6457, 6459); (6679, 6680);
   (6683, 6683); (6742, 6742); (6744, 6750); (6752, 6752); (6754, 6754); (6757, 6764);
   (6771, 6780); (6783, 6783); (6823, 6823); (6832, 6862); (6912, 6915); (6964, 6964);
   (6966, 6970); (6972, 6972); (6978, 6978); (7019, 7027); (7040, 7041); (7074, 7077);
   (7080, 7081); (7083, 7085); (7142, 7142); (7144, 7145); (7149, 7149); (7151, 7153);
   (7212, 7219); (7222, 7223); (7288, 7293); (7376, 7378); (7380, 7392); (7394, 7400);
   (7405, 7405); (7412, 7412); (7416, 7417); (7468, 7530); (7544, 7544); (7579, 7679);
   (8125, 8125); (8127, 8129); (8141, 8143); (8157, 8159); (8173, 8175); (8189, 8190);
   (8203, 8207); (8216, 8217); (8228, 8228); (8231, 8231); (8234, 8238); (8288, 8292);
   (8294, 8303); (8305, 8305); (8319, 8319); (8336, 8348); (8400, 8432); (11388, 11389);
   (11503, 11505); (11631, 11631); (11647, 11647); (11744, 11775); (11823, 11823); (12293, 12293);
   (12330, 12333); (12337, 12341); (12347, 12347); (12441, 12446); (12540, 12542); (40981, 40981);
   (42232, 42237); (42508, 42508); (42607, 42610); (42612, 42621); (42623, 42623); (42652, 42655);
   (42736, 42737); (42752, 42785); (42864, 42864); (42888, 42890); (42994, 42996); (43000, 43001);
   (43010, 43010); (43014, 43014); (43019, 43019); (43045, 43046); (43052, 43052); (43204, 43205);
   (43232, 43249); (43263, 43263); (43302, 43309); (43335, 43345); (43392, 43394); (43443, 43443);
   (43446, 43449); (43452, 43453); (43471, 43471); (43493, 43494); (43561, 43566); (43569, 43570);
   (43573, 43574); (43587, 43587); (43596, 43596); (43632, 43632); (43644, 43644); (43696, 43696);
   (43698, 43700); (43703, 43704); (43710, 43711); (43713, 43713); (43741, 43741); (43756, 43757);
   (43763, 43764); (43766, 43766); (43867, 43871); (43881, 43883); (44005, 44005); (44008, 44008);
   (44013, 44013); (64286, 64286); (64434, 64450); (65024, 65039); (65043, 65043); (65056, 65071);
   (65106, 65106); (65109, 65109); (65279, 65279); (65287, 65287); (65294, 65294); (65306, 65306);
   (65342, 65342); (65344, 65344); (65392, 65392); (65438, 65439); (65507, 65507); (65529, 65531);
   (66045, 66045); (66272, 66272); (66422, 66426); (67456, 67461); (67463, 67504); (67506, 67514);
   (68097, 68099); (68101, 68102); (68108, 68111); (68152, 68154); (68159, 68159); (68325, 68326);
   (68900, 68903); (69291, 69292); (69446, 69456); (69506, 69509); (69633, 69633); (69688, 69702);
   (69744, 69744); (69747, 69748); (69759, 69761); (69811, 69814); (69817, 69818); (69821, 69821);
   (69826, 69826); (69837, 69837); (69888, 69890); (69927, 69931); (69933, 69940); (70003, 70003);
   (70016, 70017); (70070, 70078); (70089, 70092); (70095, 70095); (70191, 70193); (70196, 70196);
   (70198, 70199); (70206, 70206); (70367, 70367); (70371, 70378); (70400, 70401); (70459, 70460);
   (70464, 70464); (70502, 70508); (70512, 70516); (70712, 70719); (70722, 70724); (70726, 70726);
   (70750, 70750); (70835, 70840); (70842, 70842); (70847, 70848); (70850, 70851); (71090, 71093);
   (71100, 71101); (71103, 71104); (71132, 71133); (71219, 71226); (71229, 71229); (71231, 71232);
   (71339, 71339); (71341, 71341); (71344, 71349); (71351, 71351); (71453, 71455); (71458, 71461);
   (71463, 71467); (71727, 71735); (71737, 71738); (71995, 71996); (71998, 71998); (72003, 72003);
   (72148, 72151); (72154, 72155); (72160, 72160); (72193, 72202); (72243, 72248); (72251, 72254);
   (72263, 72263); (72273, 72278); (72281, 72283); (72330, 72342); (72344, 72345); (72752, 72758);
   (72760, 72765); (72767, 72767); (72850, 72871); (72874, 72880); (72882, 72883); (72885, 72886);
   (73009, 73014); (73018, 73018); (73020, 73021); (73023, 73029); (73031, 73031); (73104, 73105);
   (73109, 73109); (73111, 73111); (73459, 73460); (78896, 78904); (92912, 92916); (92976, 92982);
   (92992, 92995); (94031, 94031); (94095, 94111); (94176, 94177); (94179, 94180); (110576, 110579);
   (110581, 110587); (110589, 110590); (113821, 113822); (113824, 113827); (118528, 118573); (118576, 118598);
   (119143, 119145); (119155, 119170); (119173, 119179); (119210, 119213); (119362, 119364); (121344, 121398);
   (121403, 121452); (121461, 121461); (121476, 121476); (121499, 121503); (121505, 121519); (122880, 122886);
   (122888, 122904); (122907, 122913); (122915, 122916); (122918, 122922); (123184, 123197); (123566, 123566);
   (123628, 123631); (125136, 125142); (125252, 125259); (127995, 127999); (917505, 917505); (917536, 917631);
   (917760, 917999)]%N.

Definition cased_ranges : list (N * N) :=
  [(65, 90); (97, 122); (170, 170); (181, 181); (186, 186); (192, 214);
   (216, 246); (248, 442); (444, 447); (452, 659); (661, 687); (880, 883);
   (886, 887); (891, 893); (895, 895); (902, 902); (904, 906); (908, 908);
   (910, 929); (931, 1013); (1015, 1153); (1162, 1327); (1329, 1366); (1376, 1416);
   (4256, 4293); (4295, 4295); (4301, 4301); (4304, 4346); (4349, 4351); (5024, 5109);
   (5112, 5117); (7296, 7304); (7312, 7354); (7357, 7359); (7424, 7467); (7531, 7543);
   (7545, 7578); (7680, 7957); (7960, 7965); (7968, 8005); (8008, 8013); (8016, 8023);
   (8025, 8025); (8027, 8027); (8029, 8029); (8031, 8061); (8064, 8116); (8118, 8124);
   (8126, 8126); (8130, 8132); (8134, 8140); (8144, 8147); (8150, 8155); (8160, 8172);
   (8178, 8180); (8182, 8188); (8450, 8450); (8455, 8455); (8458, 8467); (8469, 8469);
   (8473, 8477); (8484, 8484); (8486, 8486); (8488, 8488); (8490, 8493); (8495, 8500);
   (8505, 8505); (8508, 8511); (8517, 8521); (8526, 8526); (8544, 8575); (8579, 8580);
   (9398, 9449); (11264, 11387); (11390, 11492); (11499, 11502); (11506, 11507); (11520, 11557);
   (11559, 11559); (11565, 11565); (42560, 42605); (42624, 42651); (42786, 42863); (42865, 42887);
   (42891, 42894); (42896, 42954); (42960, 42961); (42963, 42963); (42965, 42969); (42997, 42998);
   (43002, 43002); (43824, 43866); (43872, 43880); (43888, 43967); (64256, 64262); (64275, 64279);
   (65313, 65338); (65345, 65370); (66560, 66639); (66736, 66771); (66776, 66811); (66928, 66938);
   (66940, 66954); (66956, 66962); (66964, 66965); (66967, 66977); (66979, 66993); (66995, 67001);
   (67003, 67004); (68736, 68786); (68800, 68850); (71840, 71903); (93760, 93823); (119808, 119892);
   (119894, 119964); (119966, 119967); (119970, 119970); (119973, 119974); (119977, 119980); (119982, 119993);
   (119995, 119995); (119997, 120003); (120005, 120069); (120071, 120074); (120077, 120084); (120086, 120092);
   (120094, 120121); (120123, 120126); (120128, 120132); (120134, 120134); (120138, 120144); (120146, 120485);
   (120488, 120512); (120514, 120538); (120540, 120570); (120572, 120596); (120598, 120628); (120630, 120654);
   (120656, 120686); (120688, 120712); (120714, 120744); (120746, 120770); (120772, 120779); (122624, 122633);
   (122635, 122654); (125184, 125251); (127280, 127305); (127312, 127337); (127344, 127369)]%N.

Fixpoint lower_in (ranges : list (N * N * N * N)) (cp : N) : N :=
  match ranges with
  | [] => cp
  | (lo, hi, step, lo') :: r =>
      if ((lo <=? cp) && (cp <=? hi) && ((cp - lo) mod step =? 0))%N
      then (lo' + (cp - lo))%N
      else lower_in r cp
  end.

Definition in_ranges (ranges : list (N * N)) (cp : N) : bool :=
  existsb (fun r => (fst r <=? cp) && (cp <=? snd r))%N ranges.

(** Whether the first code point of [cs] that is not case-ignorable is
    cased ([cs] is read away from the sigma). *)
Fixpoint meets_cased (cs : list string) : bool :=
  match cs with
  | [] => false
  | c :: r =>
      match point c with
      | Some cp =>
          if in_ranges case_ignorable_ranges cp then meets_cased r
          else in_ranges cased_ranges cp
      | None => false
      end
  end.

(** The lowercase of the code point [c], with the code points before it
    (nearest first) and after it: a capital sigma that ends a word
    becomes the final sigma. *)
Definition lower_chunk (before : list string) (c : string) (after : list string)
  : string :=
  match c with
  | String a EmptyString =>
      let n := nat_of_ascii a in
      if (65 <=? n)%nat && (n <=? 90)%nat
      then String (ascii_of_nat (n + 32)) EmptyString
      else c
  | _ =>
      match point c with
      | Some cp =>
          if (cp =? 931)%N then
            if meets_cased before && negb (meets_cased after)
            then encode 962 else encode 963
          else if (cp =? 304)%N then encode 105 ++ encode 775
          else
            let l := lower_in lowercase_ranges cp in
            if (l =? cp)%N then c else encode l
      | None => c
      end
  end.

Fixpoint lower_chunks (before : list string) (cs : list string) : string :=
  match cs with
  | [] => EmptyString
  | c :: r => lower_chunk before c r ++ lower_chunks (c :: before) r
  end.

(** [String.prototype.toLowerCase] *)
Definition toLowerCase (s : string) : string := lower_chunks [] (chars s).

(** The folding of a regular expression with the flag [i] and without
    the flag [u], for a pattern whose letters are lowercase ASCII
    letters: a character of the input matches a letter of the pattern
    when it is that letter in either case (a character outside ASCII
    never folds to an ASCII character). *)
Definition fold_char (c : ascii) : ascii :=
  let n := nat_of_ascii c in
  if (65 <=? n)%nat && (n <=? 90)%nat then ascii_of_nat (n + 32) else c.

Fixpoint fold_case (s : string) : string :=
  match s with
  | EmptyString => EmptyString
  | String c r => String (fold_char c) (fold_case r)
  end.

(** [String.prototype.includes]: [p] occurs in [s]. *)
Fixpoint includes (s p : string) : bool :=
  if String.prefix p s then true
  else match s with
       | EmptyString => false
       | String _ r => includes r p
       end.

(** *** White space *)

(** The class [\s], which is also what [trim] removes: TAB, LF, VT, FF,
    CR, SP, NBSP, the other space separators, LS, PS and ZWNBSP. *)
Definition white_space : list N :=
  [9; 10; 11; 12; 13; 32; 160; 5760; 8192; 8193; 8194; 8195; 8196; 8197; 8198;
   8199; 8200; 8201; 8202; 8232; 8233; 8239; 8287; 12288; 65279]%N.

Definition is_space (c : string) : bool :=
  match point c with
  | Some cp => existsb (N.eqb cp) white_space
  | None => false
  end.

(** [in_ws] tells that the previous code point was white space already
    replaced. *)
Fixpoint collapse_ws (in_ws : bool) (cs : list string) : list string :=
  match cs with
  | [] => []
  | c :: r =>
      if is_space c
      then if in_ws then collapse_ws true r else " " :: collapse_ws true r
      else c :: collapse_ws false r
  end.

(** [s.replace(/\s+/g, " ")] *)
Definition replace_ws (s : string) : string :=
  String.concat EmptyString (collapse_ws false (chars s)).

Fixpoint trimStart (cs : list string) : list string :=
  match cs with
  | [] => []
  | c :: r => if is_space c then trimStart r else cs
  end.

Fixpoint trimEnd (cs : list string) : list string :=
  match cs with
  | [] => []
  | c :: r =>
      match trimEnd r with
      | [] => if is_space c then [] else [c]
      | r' => c :: r'
      end
  end.

(** [String.prototype.trim] *)
Definition trim (s : string) : string :=
  String.concat EmptyString (trimEnd (trimStart (chars s))).

(** A string is truthy when it is not empty. *)
Definition nonempty (s : string) : bool := negb (s =? EmptyString)%string.

(** [x || ""] for a string-valued [x] that may be [null] or [undefined]. *)
Definition or_empty (x : option string) : string :=
  match x with Some s => s | None => EmptyString end.

(** [a || b] for string-valued operands that may be absent. *)
Definition or_else (a : option string) (b : option string) : option string :=
  match a with
  | Some s => if nonempty s then a else b
  | None => b
  end.

Definition hex_digit (upper : bool) (n : nat) : ascii :=
  if (n <? 10)%nat then ascii_of_nat (48 + n)
  else ascii_of_nat ((if upper then 55 else 87) + n).

(** The characters [encodeURIComponent] leaves alone:
    [A-Z a-z 0-9 - _ . ! ~ * ' ( )]. *)
Definition uri_unreserved (c : ascii) : bool :=
  let n := nat_of_ascii c in
  ((65 <=? n)%nat && (n <=? 90)%nat) || ((97 <=? n)%nat && (n <=? 122)%nat)
  || ((48 <=? n)%nat && (n <=? 57)%nat)
  || existsb (Nat.eqb n) [45; 95; 46; 33; 126; 42; 39; 40; 41]%nat.

(** An unpaired surrogate. *)
Definition is_surrogate (c : string) : bool :=
  match point c with
  | Some cp => ((55296 <=? cp) && (cp <=? 57343))%N
  | None => false
  end.

Fixpoint percent_encode (s : string) : string :=
  match s with
  | EmptyString => EmptyString
  | String c r =>
      if uri_unreserved c then String c (percent_encode r)
      else
        let n := nat_of_ascii c in
        String "%" (String (hex_digit true (n / 16))
                      (String (hex_digit true (n mod 16)) (percent_encode r)))
  end.

(** [encodeURIComponent]: the UTF-8 bytes of the string, each one
    percent-encoded unless it is unreserved; [None] is the URIError
    that an unpaired surrogate causes. *)
Definition encodeURIComponent (s : string) : option string :=
  if existsb is_surrogate (chars s) then None else Some (percent_encode s).

Definition json_escape_char (c : ascii) : string :=
  let n := nat_of_ascii c in
  if (n =? 34)%nat then "\" ++ dquote
  else if (n =? 92)%nat then "\\"
  else if (n =? 8)%nat then "\b"
  else if (n =? 9)%nat then "\t"
  else if (n =? 10)%nat then "\n"
  else if (n =? 12)%nat then "\f"
  else if (n =? 13)%nat then "\r"
  else if (n <? 32)%nat
       then "\u00" ++ String (hex_digit false (n / 16))
                        (String (hex_digit false (n mod 16)) EmptyString)
       else String c EmptyString.

Definition hex4 (n : N) : string :=
  let d := N.to_nat n in
  String (hex_digit false ((d / 4096) mod 16))
    (String (hex_digit false ((d / 256) mod 16))
       (String (hex_digit false ((d / 16) mod 16))
          (String (hex_digit false (d mod 16)) EmptyString))).

(** The escapes of [JSON.stringify]: the quote, the backslash, the
    control characters and the unpaired surrogates. *)
Fixpoint json_escape (cs : list string) : string :=
  match cs with
  | [] => EmptyString
  | c :: r =>
      match c with
      | String a EmptyString => json_escape_char a
      | _ => if is_surrogate c then "\u" ++ hex4 (point_of c) else c
      end ++ json_escape r
  end.

(** [JSON.stringify] of a string. *)
Definition JSON_stringify (s : string) : string :=
  dquote ++ json_escape (chars s) ++ dquote.

(** Decimal text of an integer, as a template literal prints it. *)
Definition of_Z (z : Z) : string :=
  DecimalString.NilZero.string_of_int (Z.to_int z).

(** *** Paths *)

(** The segment before the first [sep], and the segments after it. *)
Fixpoint split_on (sep : ascii) (s : string) : string * list string :=
  match s with
  | EmptyString => (EmptyString, [])
  | String c r =>
      let '(seg, rest) := split_on sep r in
      if Ascii.eqb c sep then (EmptyString, seg :: rest) else (String c seg, rest)
  end.

Definition segments (p : string) : list string :=
  let '(seg, rest) := split_on "/" p in seg :: rest.

(** One segment of [normalizeString]; [stack] holds the segments kept
    so far, the last one first. *)
Definition resolve (allowAboveRoot : bool) (stack : list string) (seg : string)
  : list string :=
  if (seg =? EmptyString)%string || (seg =? ".")%string then stack
  else if (seg =? "..")%string then
    match stack with
    | top :: below =>
        if (top =? "..")%string
        then if allowAboveRoot then seg :: stack else stack
        else below
    | [] => if allowAboveRoot then [seg] else []
    end
  else seg :: stack.

Definition ends_with_slash (p : string) : bool :=
  match rev (segments p) with
  | last :: _ :: _ => (last =? EmptyString)%string
  | _ => false
  end.

(** [path.posix.normalize] *)
Definition path_normalize (p : string) : string :=
  if (p =? EmptyString)%string then "."
  else
    let isAbsolute := String.prefix "/" p in
    let trailingSeparator := ends_with_slash p in
    let kept := rev (fold_left (resolve (negb isAbsolute)) (segments p) []) in
    match kept with
    | [] => if isAbsolute then "/" else if trailingSeparator then "./" else "."
    | _ :: _ =>
        let body := String.concat "/" kept in
        let body := if trailingSeparator then body ++ "/" else body in
        if isAbsolute then "/" ++ body else body
    end.

(** [path.join(a, b)] on POSIX. *)
Definition path_join (a b : string) : string :=
  if nonempty a then
    if nonempty b then path_normalize (a ++ "/" ++ b) else path_normalize a
  else if nonempty b then path_normalize b
  else ".".

(** [s.split(sep)[0]] for a one-character separator. *)
Fixpoint before (sep : ascii) (s : string) : string :=
  match s with
  | EmptyString => EmptyString
  | String c r => if Ascii.eqb c sep then EmptyString else String c (before sep r)
  end.

End Js.

(** ** JavaScript values and object literals *)

#[warnings="-register-all"]
Inductive value : Type :=
| VUndef
| VNull
| VBool (b : bool)
| VNum (n : Z)
| VStr (s : string)
| VObj (fields : list (string * value)).

Definition obj : Type := list (string * value).

(** Property read [o.k]. *)
Fixpoint get (o : obj) (k : string) : value :=
  match o with
  | [] => VUndef
  | (k', v) :: r => if (k =? k')%string then v else get r k
  end.

(** Property read on a value that is known to be an object or falsy
    (every such read of the source is guarded by [&&]). *)
Definition prop (v : value) (k : string) : value :=
  match v with
  | VObj o => get o k
  | _ => VUndef
  end.

(** ToBoolean *)
Definition truthy (v : value) : bool :=
  match v with
  | VUndef | VNull => false
  | VBool b => b
  | VNum n => negb (n =? 0)
  | VStr s => Js.nonempty s
  | VObj _ => true
  end.

(** [a || b] *)
Definition vor (a b : value) : value := if truthy a then a else b.

(** [a && b] *)
Definition vand (a b : value) : value := if truthy a then b else a.

(** [v === "s"] *)
Definition is_str (v : value) (s : string) : bool :=
  match v with
  | VStr s' => (s' =? s)%string
  | _ => false
  end.

(** [x == null]: the loose comparison the invariants of the result
    envelopes use (an absent field is [undefined]). *)
Definition nullish (v : value) : bool :=
  match v with
  | VUndef | VNull => true
  | _ => false
  end.

(** ** The environment: JavaScript host and browser page *)

Definition handle : Type := nat.
Definition frame : Type := nat.
Definition cookie : Type := obj.

(** What [window.getComputedStyle(el)] and [el.getBoundingClientRect()]
    give for an element. *)
Record layout : Type := {
  display : string;
  visibility : string;
  width : Q;
  height : Q
}.

(** An element of [document.querySelectorAll('[contenteditable],
    textarea, input[type="text"]')], with what the fallback scan of
    [findMessageInputHandle] reads from it. *)
Record node : Type := {
  node_handle : handle;
  node_layout : layout;
  node_in_aria_hidden : bool;
  node_role : option string;
  node_lexicalEditor : option string;
  node_aria_label : option string;
  node_contenteditable : option string
}.

(** The object [saveSession] serialises into [sessions/<name>.json]. *)
Record session_file : Type := {
  sf_cookies : list cookie;
  sf_localStorage : list (string * string);
  sf_savedAt : string
}.

(** A value of [Math.random()]: a number in [[0, 1)]. *)
Record unit01 : Type := {
  u01 :> Q;
  u01_range : (0 <= u01 /\ u01 < 1)%Q
}.

(** Calls that cannot fail: clock, timers, random numbers. *)
Inductive Host : Type -> Type :=
| DateNow : Host Z                       (* Date.now() *)
| DateToISOString : Host string          (* new Date().toISOString() *)
| MathRandom : Host unit01               (* Math.random() *)
| SetTimeout (ms : Q) : Host unit.       (* await new Promise(r => setTimeout(r, ms)) *)

(** Calls on the page and on the file system; each may fail. *)
Inductive Page : Type -> Type :=
| PageGoto (url : string) : Page unit
| PageUrl : Page string
| PageFrames : Page (list frame)
| FrameUrl (f : frame) : Page string
| FrameBodyText (f : frame) : Page (option string)
    (* f.evaluate(() => document.body && document.body.innerText) *)
| BodyInnerText : Page (option string)
    (* page.evaluate(() => document.body && document.body.innerText) *)
| PageQuery (sel : string) : Page (option handle)          (* page.$(sel) *)
| PageQueryAll (sel : string) : Page (list handle)         (* page.$$(sel) *)
| ElementQueryAll (h : handle) (sel : string) : Page (list handle)
| ElementTexts (h : handle) : Page (option string * option string)
    (* el.innerText and el.textContent *)
| ElementInnerText (h : handle) : Page (option string)
| ElementAttribute (h : handle) (name : string) : Page (option string)
| ElementLayout (h : handle) : Page layout
| ClosestClickable (h : handle) : Page (option handle)
    (* span.evaluateHandle(el => el.closest(...)), then asElement() *)
| RoleButtonTexts : Page (list (option string))
    (* innerText of each of document.querySelectorAll("div[role='button']") *)
| EditableNodes : Page (list node)
| WaitForSelector (sel : string) (visible : bool) (timeout : Z) : Page (option handle)
| WaitForMessageInput (timeout : Z) : Page unit
    (* page.waitForFunction(<scan>, { timeout }) *)
| PageClick (sel : string) : Page unit
| ElementClick (h : handle) (clickCount : Z) : Page unit
| ElementFocus (h : handle) : Page unit
| KeyboardType (ch : string) : Page unit
| KeyboardPress (key : string) : Page unit
| MouseMove (x y steps : Z) : Page unit
| BodyRect : Page (option (Q * Q))
| ClearStorage : Page unit
| PageCookies : Page (list cookie)
| PageDeleteCookie (cs : list cookie) : Page unit
| ContextCookies : Page (list cookie)
| LocalStorageEntries : Page (list (string * string))
| SetViewport (w h : Z) : Page unit
| PageScreenshot (path : string) : Page unit
| FsMkdir (dir : string) : Page unit
| FsWriteFile (path : string) (data : session_file) : Page unit.

Inductive reply (A : Type) : Type :=
| Ret (a : A)
| Raise (msg : string).
Arguments Ret {A} a.
Arguments Raise {A} msg.

(** The environment the controller runs in. *)
Class Browser (W : Type) : Type := {
  cwd : string;                                        (* process.cwd() *)
  has_setViewport : bool;             (* typeof page.setViewport === "function" *)
  host_call : forall A, Host A -> W -> A * W;
  page_call : forall A, Page A -> W -> reply A * W
}.

(** One call of the program and the answer it got. *)
Inductive event : Type :=
| HostEv {A : Type} (c : Host A) (a : A)
| PageEv {A : Type} (c : Page A) (r : reply A).

(** ** The monad of asynchronous functions *)

Inductive res (A : Type) : Type :=
| Ok (a : A)
| Throw (msg : string)
| OutOfFuel.
Arguments Ok {A} a.
Arguments Throw {A} msg.
Arguments OutOfFuel {A}.

Section Model.

Context {W : Type} {B : Browser W}.

(** The fields of a [FacebookController]. *)
Record controller : Type := {
  page : W;
  sessionName : string;
  minMessageIntervalMs : Z;
  _lastActionAt : Z
}.

Definition M (A : Type) : Type := controller -> res A * controller * list event.

Definition ret {A} (a : A) : M A := fun s => (Ok a, s, []).

Definition bind {A C} (m : M A) (k : A -> M C) : M C :=
  fun s =>
    match m s with
    | (Ok a, s1, t1) => let '(r, s2, t2) := k a s1 in (r, s2, (t1 ++ t2)%list)
    | (Throw e, s1, t1) => (Throw e, s1, t1)
    | (OutOfFuel, s1, t1) => (OutOfFuel, s1, t1)
    end.

Definition throw {A} (msg : string) : M A := fun s => (Throw msg, s, []).

Definition out_of_fuel {A} : M A := fun s => (OutOfFuel, s, []).

(** [try { m } catch (err) { h err.message }] *)
Definition try_catch {A} (m : M A) (h : string -> M A) : M A :=
  fun s =>
    match m s with
    | (Throw e, s1, t1) => let '(r, s2, t2) := h e s1 in (r, s2, (t1 ++ t2)%list)
    | out => out
    end.

Definition with_page (s : controller) (w : W) : controller :=
  {| page := w; sessionName := sessionName s;
     minMessageIntervalMs := minMessageIntervalMs s;
     _lastActionAt := _lastActionAt s |}.

Definition host {A} (c : Host A) : M A :=
  fun s => let '(a, w) := host_call A c (page s) in
           (Ok a, with_page s w, [HostEv c a]).

Definition call {A} (c : Page A) : M A :=
  fun s => let '(r, w) := page_call A c (page s) in
           (match r with Ret a => Ok a | Raise e => Throw e end,
            with_page s w, [PageEv c r]).

Definition this {A} (f : controller -> A) : M A := fun s => (Ok (f s), s, []).

Definition set_lastActionAt (z : Z) : M unit :=
  fun s => (Ok tt,
            {| page := page s; sessionName := sessionName s;
               minMessageIntervalMs := minMessageIntervalMs s;
               _lastActionAt := z |}, []).

End Model.

Arguments controller W : clear implicits.
Arguments M W A : clear implicits.

Declare Scope js_scope.
Delimit Scope js_scope with js.
Notation "x <- m ;; k" := (bind m (fun x => k))
  (at level 61, m at next level, right associativity) : js_scope.
Notation "m ;; k" := (bind m (fun _ => k))
  (at level 61, right associativity) : js_scope.
#[local] Open Scope js_scope.

Section Controller.

Context {W : Type} {B : Browser W}.

(** [promise.catch(() => {})] *)
Definition swallow {A} (m : M W A) : M W unit :=
  try_catch (m ;; ret tt) (fun _ => ret tt).

(** [wait(ms)] of [src/utils/wait.js] *)
Definition wait (ms : Q) : M W unit := host (SetTimeout ms).

(** [new FacebookController(page, opts)]; an absent or zero
    [opts.minMessageIntervalMs] and an absent or empty
    [opts.sessionName] take the defaults. *)
Definition newController (p : W) (optSessionName : option string)
    (optMinMessageIntervalMs : option Z) : controller W :=
  {| page := p;
     sessionName :=
       match optSessionName with
       | Some n => if Js.nonempty n then n else "default"
       | None => "default"
       end;
     minMessageIntervalMs :=
       match optMinMessageIntervalMs with
       | Some z => if z =? 0 then 1000 * 10 else z
       | None => 1000 * 10
       end;
     _lastActionAt := 0 |}.

(** [throttle]: ensure we do not act too fast. *)
Definition throttle : M W unit :=
  now <- host DateNow ;;
  minMs <- this minMessageIntervalMs ;;
  last <- this _lastActionAt ;;
  let waitFor := Z.max 0 (minMs - (now - last)) in
  (if 0 <? waitFor then wait (inject_Z waitFor) else ret tt) ;;
  now' <- host DateNow ;;
  set_lastActionAt now'.

(** *** [src/utils/screenshot.js] *)

(** [captureScreenshot(page, label)] *)
Definition captureScreenshot (label : string) : M W obj :=
  let baseDir := Js.path_join cwd "screenshots" in
  iso <- host DateToISOString ;;
  let dateDir := Js.before "T" iso in
  let dir := Js.path_join baseDir dateDir in
  swallow (call (FsMkdir dir)) ;;
  now <- host DateNow ;;
  let filename := label ++ "-" ++ Js.of_Z now ++ ".png" in
  let filePath := Js.path_join dir filename in
  try_catch
    ((* ensure viewport not zero; where the page has no such method the
        call throws before [.catch] is reached *)
     (if has_setViewport then swallow (call (SetViewport 1280 800))
      else throw "page.setViewport is not a function") ;;
     host (SetTimeout 200) ;;
     call (PageScreenshot filePath) ;;
     ret [("success", VBool true);
          ("path", VStr filePath);
          ("urlPath", VStr ("/screenshots/" ++ dateDir ++ "/" ++ filename))])
    (fun err => ret [("success", VBool false); ("error", VStr err)]).

(** [shot.success ? shot.urlPath : null] *)
Definition shot_ref (shot : obj) : value :=
  if truthy (get shot "success") then get shot "urlPath" else VNull.

(** *** [src/utils/session.js] *)

Definition SESSIONS_DIR : string := Js.path_join cwd "sessions".

(** [saveSession(page, name)] *)
Definition saveSession (name : string) : M W string :=
  try_catch (call (FsMkdir SESSIONS_DIR)) (fun _ => ret tt) ;;
  cookies <- call ContextCookies ;;
  localStorageData <- call LocalStorageEntries ;;
  savedAt <- host DateToISOString ;;
  let out := {| sf_cookies := cookies;
                sf_localStorage := localStorageData;
                sf_savedAt := savedAt |} in
  let file := Js.path_join SESSIONS_DIR (name ++ ".json") in
  call (FsWriteFile file out) ;;
  ret file.

(** [persistSession()]: the path of the session file, or [null]. *)
Definition persistSession : M W (option string) :=
  try_catch
    (name <- this sessionName ;;
     path <- saveSession name ;;
     ret (Some path))
    (fun _ => ret None).

(** *** [src/utils/human.js] *)

(** The second argument of [humanType]: a selector string or an
    element handle (possibly [null]). *)
Inductive target : Type :=
| BySelector (sel : string)
| ByHandle (h : option handle).

(** The loop [for (const ch of text)]. *)
Fixpoint typeEach (chs : list string) (minDelay maxDelay : Z) : M W unit :=
  match chs with
  | [] => ret tt
  | ch :: rest =>
      call (KeyboardType ch) ;;
      r <- host MathRandom ;;
      let delay := minDelay + Qfloor (r * inject_Z (maxDelay - minDelay)) in
      host (SetTimeout (inject_Z delay)) ;;
      typeEach rest minDelay maxDelay
  end.

Definition typeChars (text : string) (minDelay maxDelay : Z) : M W unit :=
  typeEach (Js.chars text) minDelay maxDelay.

(** [humanType(page, handleOrSelector, text, opts)] *)
Definition humanTypeWith (handleOrSelector : target) (text : string)
    (minDelay maxDelay : Z) : M W unit :=
  handle <- match handleOrSelector with
            | BySelector sel => call (PageQuery sel)
            | ByHandle h => ret h
            end ;;
  match handle with
  | None => throw "humanType: handle not found"
  | Some h =>
      call (ElementFocus h) ;;
      typeChars text minDelay maxDelay
  end.

(** [humanType(page, handleOrSelector, text)], with the default delays. *)
Definition humanType (handleOrSelector : target) (text : string) : M W unit :=
  humanTypeWith handleOrSelector text 70 140.

(** [smallHumanMove(page)] *)
Definition smallHumanMove : M W unit :=
  try_catch
    (box <- call BodyRect ;;
     match box with
     | None => ret tt
     | Some (w, h) =>
         r1 <- host MathRandom ;;
         let x1 := Qfloor (w * (3 # 10) + r1 * w * (6 # 10)) in
         r2 <- host MathRandom ;;
         let y1 := Qfloor (h * (2 # 10) + r2 * h * (6 # 10)) in
         call (MouseMove x1 y1 10)
     end)
    (fun _ => ret tt).

(** *** [src/utils/captcha.js] *)

Definition FRAME_PATTERNS : list string := ["recaptcha"; "hcaptcha"; "captcha"].

Definition SELECTOR_CANDIDATES : list string :=
  ["iframe[src*='recaptcha']";
   "iframe[src*='hcaptcha']";
   "iframe[src*='captcha']";
   "div[id*='captcha']";
   "div[class*='captcha']";
   "div[data-testid*='captcha']";
   "form[action*='checkpoint']";
   "a[href*='/checkpoint']";
   "a[href*='checkpoint']"].

Definition TEXT_PATTERNS_EN : list string :=
  ["complete a challenge to verify you’re a human";
   "complete a challenge";
   "verify you’re a human";
   "verify you are a human";
   "solve a puzzle";
   "try audio challenge";
   "security check";
   "confirm your identity";
   "prove you are human";
   "type the characters you see";
   "enter the characters";
   "we just need to make sure there’s a real human";
   "to continue, verify";
   "prove it's you";
   "we detected unusual activity"].

Definition TEXT_PATTERNS_FA : list string :=
  ["تأیید هویت";
   "تأیید کنید";
   "برای ادامه";
   "ما باید مطمئن شویم";
   "اثبات کنید که انسان هستید";
   "نوع کاراکترها را وارد کنید";
   "تکمیل آزمون";
   "تأیید شما";
   "بررسی امنیتی"].

(** [normalize(s)] *)
Definition normalize (s : option string) : string :=
  Js.trim (Js.replace_ws (Js.toLowerCase (Js.or_empty s))).

(** [/a|b|.../i.test(s)] for literal alternatives. *)
Definition regex_i_test (alternatives : list string) (s : string) : bool :=
  existsb (Js.includes (Js.fold_case s)) alternatives.

(** [/checkpoint|security|login_check|login\/checkpoint|confirm/i.test(url)] *)
Definition url_is_checkpoint (url : string) : bool :=
  regex_i_test
    ["checkpoint"; "security"; "login_check"; "login/checkpoint"; "confirm"] url.

(** [FRAME_PATTERNS.some((rx) => rx.test(fu))] *)
Definition frame_url_matches (fu : string) : bool :=
  existsb (fun rx => regex_i_test [rx] fu) FRAME_PATTERNS.

(** [TEXT_PATTERNS_EN.some((p) => n.includes(normalize(p))) ||
     TEXT_PATTERNS_FA.some((p) => n.includes(normalize(p)))] *)
Definition has_challenge_phrase (n : string) : bool :=
  existsb (fun p => Js.includes n (normalize (Some p))) TEXT_PATTERNS_EN
  || existsb (fun p => Js.includes n (normalize (Some p))) TEXT_PATTERNS_FA.

(** The object a positive check returns. *)
Definition detection (method : string) (mtch : string) (shot : obj)
    (snippet : value) : obj :=
  [("detected", VBool true);
   ("method", VStr method);
   ("match", VStr mtch);
   ("screenshot", shot_ref shot);
   ("snippet", snippet)].

(** The loop over [page.frames()]; [None] when it ends without a
    [return]. *)
Fixpoint scanFrames (frames : list frame) : M W (option obj) :=
  match frames with
  | [] => ret None
  | f :: rest =>
      fu <- call (FrameUrl f) ;;
      if frame_url_matches fu then
        shot <- captureScreenshot "captcha-by-frame-url" ;;
        ret (Some (detection "frame_url" fu shot VNull))
      else
        found <- try_catch
          (txt <- call (FrameBodyText f) ;;
           let n := normalize txt in
           if negb (Js.nonempty n) then ret None
           else if has_challenge_phrase n then
             shot <- captureScreenshot "captcha-by-frame-text" ;;
             ret (Some (detection "frame_text" fu shot (VStr (Js.slice0 2000 n))))
           else ret None)
          (fun _ => ret None) ;;
        match found with
        | Some r => ret (Some r)
        | None => scanFrames rest
        end
  end.

(** The loop over [SELECTOR_CANDIDATES]. *)
Fixpoint scanSelectors (sels : list string) : M W (option obj) :=
  match sels with
  | [] => ret None
  | sel :: rest =>
      found <- try_catch
        (el <- call (PageQuery sel) ;;
         match el with
         | None => ret None
         | Some e =>
             if regex_i_test ["iframe"] sel then
               shot <- captureScreenshot "captcha-by-selector-iframe" ;;
               ret (Some (detection "selector" sel shot VNull))
             else
               texts <- call (ElementTexts e) ;;
               let ntext := normalize (Js.or_else (fst texts) (snd texts)) in
               if has_challenge_phrase ntext then
                 shot <- captureScreenshot "captcha-by-selector-text" ;;
                 ret (Some (detection "selector_text" sel shot
                              (VStr (Js.slice0 2000 ntext))))
               else ret None
         end)
        (fun _ => ret None) ;;
      match found with
      | Some r => ret (Some r)
      | None => scanSelectors rest
      end
  end.

(** The loop over [[...TEXT_PATTERNS_EN, ...TEXT_PATTERNS_FA]]. *)
Fixpoint scanBody (patterns : list string) (normalizedBody : string)
  : M W (option obj) :=
  match patterns with
  | [] => ret None
  | pattern :: rest =>
      let p := normalize (Some pattern) in
      if Js.nonempty p && Js.includes normalizedBody p then
        shot <- captureScreenshot "captcha-by-body-text" ;;
        ret (Some (detection "text" p shot (VStr (Js.slice0 2000 normalizedBody))))
      else scanBody rest normalizedBody
  end.

Definition not_detected : obj := [("detected", VBool false)].

(** [detectCaptcha(page)] *)
Definition detectCaptcha : M W obj :=
  try_catch
    (url <- try_catch (call PageUrl) (fun _ => ret EmptyString) ;;
     if Js.nonempty url && url_is_checkpoint url then
       shot <- captureScreenshot "captcha-by-url" ;;
       ret (detection "url" url shot VNull)
     else
       byFrame <- try_catch
         (frames <- call PageFrames ;; scanFrames frames)
         (fun _ => ret None) ;;
       match byFrame with
       | Some r => ret r
       | None =>
           bySelector <- scanSelectors SELECTOR_CANDIDATES ;;
           match bySelector with
           | Some r => ret r
           | None =>
               bodyText <- try_catch
                 (b <- call BodyInnerText ;; ret (Js.or_empty b))
                 (fun _ => ret EmptyString) ;;
               let normalizedBody := normalize (Some bodyText) in
               byText <-
                 (if Js.nonempty normalizedBody
                  then scanBody (TEXT_PATTERNS_EN ++ TEXT_PATTERNS_FA)%list
                         normalizedBody
                  else ret None) ;;
               match byText with
               | Some r => ret r
               | None => ret not_detected
               end
           end
       end)
    (fun _ => ret not_detected).

(** *** [login] *)

(** The visibility test both logged-in checks evaluate in the page:
    [!(s.display === "none" || s.visibility === "hidden" ||
       (r.width === 0 && r.height === 0))]. *)
Definition visible (l : layout) : bool :=
  negb ((display l =? "none")%string
        || (visibility l =? "hidden")%string
        || (Qeq_bool (width l) 0 && Qeq_bool (height l) 0)).

(** The test on the lowercased body text for the known
    invalid-credentials strings. *)
Definition shows_invalid_credentials (nb : string) : bool :=
  Js.includes nb "incorrect"
  || Js.includes nb "wrong password"
  || Js.includes nb "password you entered is incorrect"
  || Js.includes nb "اطلاعات ورود صحیح نمی‌باشد"
  || Js.includes nb "رمز عبور".

(** One tick of the polling loop of [waitForLoginOutcome]: the three
    checks in order; [None] when none of them returns. *)
Definition pollOnce : M W (option obj) :=
  (* 1) quick success check (logged-in indicator) *)
  success <- try_catch
    (loggedInEl <- call (PageQuery "input[type='search']") ;;
     match loggedInEl with
     | Some el =>
         l <- call (ElementLayout el) ;;
         if visible l then ret (Some [("outcome", VStr "success")]) else ret None
     | None => ret None
     end)
    (fun _ => ret None) ;;
  match success with
  | Some r => ret (Some r)
  | None =>
      (* 2) captcha check *)
      captcha <- try_catch
        (captcha <- detectCaptcha ;;
         if truthy (VObj captcha) && truthy (get captcha "detected")
         then ret (Some [("outcome", VStr "captcha"); ("captcha", VObj captcha)])
         else ret None)
        (fun _ => ret None) ;;
      match captcha with
      | Some r => ret (Some r)
      | None =>
          (* 3) invalid credentials check *)
          try_catch
            (body <- call BodyInnerText ;;
             let nb := Js.toLowerCase (Js.or_empty body) in
             if shows_invalid_credentials nb
             then ret (Some [("outcome", VStr "invalid_credentials");
                             ("snippet", VStr (Js.slice0 800 nb))])
             else ret None)
            (fun _ => ret None)
      end
  end.

(** The loop [while (Date.now() - start < timeoutMs)] of
    [waitForLoginOutcome]; [fuel] bounds the number of ticks. *)
Fixpoint pollLoop (fuel : nat) (start timeoutMs : Z) : M W obj :=
  now <- host DateNow ;;
  if now - start <? timeoutMs then
    match fuel with
    | O => out_of_fuel
    | S fuel' =>
        found <- pollOnce ;;
        match found with
        | Some r => ret r
        | None =>
            host (SetTimeout 700) ;;
            pollLoop fuel' start timeoutMs
        end
    end
  else ret [("outcome", VStr "timeout")].

(** [waitForLoginOutcome(timeoutMs)] *)
Definition waitForLoginOutcome (fuel : nat) (timeoutMs : Z) : M W obj :=
  start <- host DateNow ;;
  pollLoop fuel start timeoutMs.

(** [doLoginOnce], first part: navigate to the login page and make the
    defensive already-logged-in check; [Some r] when it returns [r]. *)
Definition openLoginPage : M W (option obj) :=
  call (PageGoto "https://www.facebook.com/login") ;;
  maybeLogged <- call (PageQuery "input[type='search']") ;;
  match maybeLogged with
  | Some el =>
      vis <- try_catch (l <- call (ElementLayout el) ;; ret (visible l))
               (fun _ => ret false) ;;
      if vis
      then ret (Some [("alreadyLoggedIn", VBool true); ("success", VBool true)])
      else ret None
  | None => ret None
  end.

(** [doLoginOnce], second part: ensure the fields exist. *)
Definition ensureFields : M W unit :=
  call (WaitForSelector "#email" false 10000) ;;
  call (WaitForSelector "#pass" false 10000) ;;
  ret tt.

(** [doLoginOnce], last part: type the credentials, submit and wait for
    a clear outcome. *)
Definition submitCredentials (fuel : nat) (email password : string) : M W obj :=
  humanType (BySelector "#email") email ;;
  humanType (BySelector "#pass") password ;;
  smallHumanMove ;;
  call (PageClick "[name=login]") ;;
  waitForLoginOutcome fuel 20000.

(** [doLoginOnce]: a single attempt of the form submit. *)
Definition doLoginOnce (fuel : nat) (email password : string) : M W obj :=
  early <- openLoginPage ;;
  match early with
  | Some r => ret r
  | None =>
      ensureFields ;;
      submitCredentials fuel email password
  end.

(** How one turn of the loop [while (attempt <= maxRetries)] ends. *)
Inductive turn : Type :=
| Return (r : obj)
| Continue (attempt : Z).

(** [Math.min(15000, 1000 * Math.pow(2, attempt)) +
     Math.floor(Math.random() * 1000)] *)
Definition backoffMs (attempt : Z) (r : unit01) : Z :=
  Z.min 15000 (1000 * 2 ^ attempt) + Qfloor (r * 1000).

(** What [login] does with the outcome of an attempt. *)
Definition handleOutcome (maxRetries attempt : Z) (outcome : obj) : M W turn :=
  if truthy (get outcome "success") || is_str (get outcome "outcome") "success" then
    persistSession ;;
    ret (Return [("success", VBool true)])
  else if truthy (get outcome "alreadyLoggedIn") then
    persistSession ;;
    ret (Return [("success", VBool true); ("alreadyLoggedIn", VBool true)])
  else if is_str (get outcome "outcome") "captcha"
          || truthy (vand (get outcome "captcha")
                          (prop (get outcome "captcha") "detected")) then
    shot <- captureScreenshot ("login-captcha-" ++ Js.of_Z attempt) ;;
    if attempt <? maxRetries then
      let attempt := attempt + 1 in
      (* exponential backoff + jitter *)
      r <- host MathRandom ;;
      let backoff := backoffMs attempt r in
      host (SetTimeout (inject_Z backoff)) ;;
      try_catch (call ClearStorage) (fun _ => ret tt) ;;
      try_catch (cs <- call PageCookies ;; call (PageDeleteCookie cs))
        (fun _ => ret tt) ;;
      ret (Continue attempt)
    else
      ret (Return [("success", VBool false);
                   ("error", VStr "captcha_detected");
                   ("screenshot", shot_ref shot);
                   ("detail", vor (get outcome "captcha") VNull)])
  else if is_str (get outcome "outcome") "invalid_credentials" then
    ret (Return [("success", VBool false);
                 ("error", VStr "invalid_credentials");
                 ("detail", vor (get outcome "snippet") VNull)])
  else if is_str (get outcome "outcome") "timeout" then
    if attempt <? maxRetries then
      let attempt := attempt + 1 in
      r <- host MathRandom ;;
      host (SetTimeout (1000 + r * 1000)) ;;
      ret (Continue attempt)
    else ret (Return [("success", VBool false); ("error", VStr "timeout")])
  else
    (* Unknown case: fail safe *)
    ret (Return [("success", VBool false);
                 ("error", VStr "unknown_outcome");
                 ("detail", VObj outcome)]).

(** The body of the loop of [login]: [try { ... } catch (err) { return
    { success: false, error: err.message } }]. *)
Definition loginTurn (fuel : nat) (email password : string)
    (maxRetries attempt : Z) : M W turn :=
  try_catch
    (outcome <- doLoginOnce fuel email password ;;
     handleOutcome maxRetries attempt outcome)
    (fun err => ret (Return [("success", VBool false); ("error", VStr err)])).

(** The loop [while (attempt <= maxRetries)], then the fallback after
    it; [turns] is the number of turns the loop can still take. *)
Fixpoint loginLoop (turns : nat) (fuel : nat) (email password : string)
    (maxRetries attempt : Z) : M W obj :=
  if attempt <=? maxRetries then
    match turns with
    | O => out_of_fuel
    | S turns' =>
        t <- loginTurn fuel email password maxRetries attempt ;;
        match t with
        | Return r => ret r
        | Continue attempt' =>
            loginLoop turns' fuel email password maxRetries attempt'
        end
    end
  else ret [("success", VBool false); ("error", VStr "max_retries_exceeded")].

(** [login(email, password, maxRetries)]; every turn that continues
    increments [attempt], so [maxRetries + 1] turns are enough. *)
Definition login (fuel : nat) (email password : string) (maxRetries : Z)
  : M W obj :=
  loginLoop (Z.to_nat (maxRetries + 1)) fuel email password maxRetries 0.

(** *** [findMessageInputHandle] *)

Definition messageInputSelectors : list string :=
  ["div[contenteditable='true'][role='textbox']";
   "div[role='textbox'][contenteditable='true']";
   "div[data-lexical-editor='true'][contenteditable='true']";
   "div[aria-label='Message']";
   "div[aria-label='Write a message']";
   "div[aria-label='پیام']";
   "div[contenteditable='plaintext-only']";
   "div[contenteditable='true']";
   "textarea";
   "input[type='text']"].

(** The loop over the selectors: short visible waits; [None] when the
    loop ends (or breaks) without a [return]. *)
Fixpoint waitSelectors (sels : list string) (start overallTimeout : Z)
  : M W (option handle) :=
  match sels with
  | [] => ret None
  | sel :: rest =>
      now <- host DateNow ;;
      let remaining := Z.max 0 (overallTimeout - (now - start)) in
      if remaining =? 0 then ret None
      else
        found <- try_catch
          (call (WaitForSelector sel true (Z.min 2000 remaining)))
          (fun _ => ret None) ;;
        match found with
        | Some h => ret (Some h)
        | None => waitSelectors rest start overallTimeout
        end
  end.

(** [isVisible(el)] of the fallback scan. *)
Definition isVisible (n : node) : bool :=
  let l := node_layout n in
  if (visibility l =? "hidden")%string || (display l =? "none")%string then false
  else if Qeq_bool (width l) 0 && Qeq_bool (height l) 0 then false
  else if node_in_aria_hidden n then false
  else true.

(** The filter of the fallback scan. *)
Definition looksLikeTextbox (e : node) : bool :=
  if negb (isVisible e) then false
  else
    let aria := Js.or_empty (node_aria_label e) in
    if match node_role e with Some r => (r =? "textbox")%string | None => false end
    then true
    else if match node_lexicalEditor e with
            | Some v => (v =? "true")%string
            | None => false
            end
    then true
    else if regex_i_test ["message"; "پیام"; "write"] aria then true
    else match node_contenteditable e with Some _ => true | None => false end.

(** [candidates.length ? candidates[0] : null] *)
Definition firstCandidate (nodes : list node) : option handle :=
  match filter looksLikeTextbox nodes with
  | e :: _ => Some (node_handle e)
  | [] => None
  end.

(** [findMessageInputHandle(page, overallTimeout)] *)
Definition findMessageInputHandle (overallTimeout : Z) : M W (option handle) :=
  start <- host DateNow ;;
  quick <- waitSelectors messageInputSelectors start overallTimeout ;;
  match quick with
  | Some h => ret (Some h)
  | None =>
      try_catch
        (now <- host DateNow ;;
         let remaining := Z.max 0 (overallTimeout - (now - start)) in
         if remaining <=? 0 then ret None
         else
           call (WaitForMessageInput remaining) ;;
           nodes <- call EditableNodes ;;
           ret (firstCandidate nodes))
        (fun _ => ret None)
  end.

(** *** [sendMessage] *)

Definition messengerUrl : string := "https://www.facebook.com/messages/t/".

Definition loginFieldsSelector : string :=
  "#email, input[name='email'], input[type='password']".

Definition searchSelectors : list string :=
  ["input[aria-label=" ++ Js.dquote ++ "Search Messenger" ++ Js.dquote ++ "]";
   "input[placeholder*=" ++ Js.dquote ++ "Search Messenger" ++ Js.dquote ++ "]";
   "input[placeholder*=" ++ Js.dquote ++ "Search" ++ Js.dquote ++ "]";
   "input[aria-label*=" ++ Js.dquote ++ "Search" ++ Js.dquote ++ "]";
   "input[type=" ++ Js.dquote ++ "search" ++ Js.dquote ++ "]";
   "input[role=" ++ Js.dquote ++ "combobox" ++ Js.dquote ++ "]"].

(** Up to the navigation to the messaging surface: the initial wait,
    the throttle, [page.goto] and the [page.url()] of the debug log. *)
Definition openMessenger : M W unit :=
  r <- host MathRandom ;;
  wait (1000 + r * 2000) ;;
  throttle ;;
  (* 1) Try messenger page first *)
  call (PageGoto messengerUrl) ;;
  call PageUrl ;;
  ret tt.

(** The loop over [searchSelectors]. *)
Fixpoint findSearchHandle (sels : list string) : M W (option handle) :=
  match sels with
  | [] => ret None
  | sel :: rest =>
      h <- try_catch (call (PageQuery sel)) (fun _ => ret None) ;;
      match h with
      | Some h => ret (Some h)
      | None => findSearchHandle rest
      end
  end.

(** The loop over [rowSpans]: click the clickable ancestor of the first
    match; the result is [opened]. *)
Fixpoint openFirstRow (rowSpans : list handle) : M W bool :=
  match rowSpans with
  | [] => ret false
  | span :: rest =>
      opened <- try_catch
        (ancestorEl <- call (ClosestClickable span) ;;
         match ancestorEl with
         | Some a => swallow (call (ElementClick a 1)) ;; ret true
         | None => swallow (call (ElementClick span 1)) ;; ret true
         end)
        (fun _ => ret false) ;;
      if opened then ret true else openFirstRow rest
  end.

Definition rowXpath (recipient : string) : string :=
  "xpath=//div[@role='option' or @role='row' or @role='listitem']//span[contains(normalize-space(.), "
  ++ Js.JSON_stringify recipient ++ ")]".

(** 2) Try the messenger search input. *)
Definition searchInMessenger (recipient : string) : M W unit :=
  swallow (call (WaitForSelector "div[role='main'], div[role='dialog']" false 15000)) ;;
  searchHandle <- findSearchHandle searchSelectors ;;
  match searchHandle with
  | Some h =>
      swallow (call (ElementClick h 3)) ;;
      swallow (call (KeyboardPress "Backspace")) ;;
      humanType (ByHandle (Some h)) recipient ;;
      swallow (call (KeyboardPress "Enter")) ;;
      r <- host MathRandom ;;
      wait (1200 + r * 2200) ;;
      rowSpans <- call (PageQueryAll (rowXpath recipient)) ;;
      match rowSpans with
      | [] => ret tt
      | _ :: _ => openFirstRow rowSpans ;; ret tt
      end
  | None => ret tt
  end.

(** The test on a candidate of a profile card: message-like text. *)
Definition messageLikeText (txt : string) : bool :=
  Js.nonempty txt
  && (Js.includes txt "پیام"
      || Js.includes txt "message"
      || Js.includes txt "send message"
      || Js.includes txt "پیغام").

(** The loop over the clickable elements of one card; the result is
    [clicked]. *)
Fixpoint scanCandidates (candidates : list handle) : M W bool :=
  match candidates with
  | [] => ret false
  | c :: rest =>
      clicked <- try_catch
        (inner <- call (ElementInnerText c) ;;
         let txt := Js.trim (Js.toLowerCase (Js.or_empty inner)) in
         attr <- call (ElementAttribute c "href") ;;
         let href := Js.or_empty attr in
         if messageLikeText txt then
           swallow (call (ElementClick c 1)) ;; ret true
         else if Js.nonempty href && Js.includes href "/messages/t/" then
           swallow (call (ElementClick c 1)) ;; ret true
         else ret false)
        (fun _ => ret false) ;;
      if clicked then ret true else scanCandidates rest
  end.

(** The loop over the profile cards. *)
Fixpoint scanCards (cards : list handle) : M W bool :=
  match cards with
  | [] => ret false
  | card :: rest =>
      clicked <- try_catch
        (candidates <- call (ElementQueryAll card
                               ("a, button, div[role=" ++ Js.dquote ++ "button"
                                ++ Js.dquote ++ "], span[role=" ++ Js.dquote
                                ++ "button" ++ Js.dquote ++ "]")) ;;
         scanCandidates candidates)
        (fun _ => ret false) ;;
      if clicked then ret true else scanCards rest
  end.

(** The address of the search results for [name]; the template
    literal throws when [encodeURIComponent] does. *)
Definition searchUrl (name : string) : M W string :=
  match Js.encodeURIComponent name with
  | Some q => ret ("https://www.facebook.com/search/top?q=" ++ q)
  | None => throw "URI malformed"
  end.

Definition cardXpath (recipient : string) : string :=
  let q := Js.JSON_stringify recipient in
  "xpath=//div[.//span[contains(normalize-space(.), " ++ q
  ++ ")] or .//a//span[contains(normalize-space(.), " ++ q ++ ")]]".

(** 3) If the chat was not opened by the messenger search, try the
    global search results page; [Some r] when the step returns [r]. *)
Definition globalSearchFallback (recipient : string) : M W (option obj) :=
  inputExists <- call (PageQuery
    "div[contenteditable='true'][role='textbox'], div[aria-label='Message']") ;;
  match inputExists with
  | Some _ => ret None
  | None =>
      url <- searchUrl recipient ;;
      swallow (call (PageGoto url)) ;;
      r <- host MathRandom ;;
      wait (1200 + r * 1600) ;;
      cards <- call (PageQueryAll (cardXpath recipient)) ;;
      clicked <- scanCards cards ;;
      if negb clicked then
        shot <- captureScreenshot "no-clickable-row" ;;
        ret (Some [("success", VBool false);
                   ("error", VStr "no_clickable_row");
                   ("screenshot", shot_ref shot)])
      else
        r' <- host MathRandom ;;
        wait (800 + r' * 1200) ;;
        ret None
  end.

(** 4) to 7): locate the message input, type and send the message,
    persist the session. *)
Definition typeAndSend (text : string) : M W obj :=
  messageHandle <- findMessageInputHandle 10000 ;;
  match messageHandle with
  | None =>
      shot <- captureScreenshot "no-message-input" ;;
      ret [("success", VBool false);
           ("error", VStr "no_message_input");
           ("screenshot", shot_ref shot)]
  | Some h =>
      call (ElementFocus h) ;;
      smallHumanMove ;;
      humanType (ByHandle (Some h)) text ;;
      call (KeyboardPress "Enter") ;;
      r <- host MathRandom ;;
      wait (400 + r * 700) ;;
      persistSession ;;
      ret [("success", VBool true)]
  end.

(** What [sendMessage] does once the messaging surface is open. *)
Definition afterMessengerOpen (recipient text : string) : M W obj :=
  (* login check *)
  loginFields <- call (PageQuery loginFieldsSelector) ;;
  match loginFields with
  | Some _ =>
      shot <- captureScreenshot "not-logged-in" ;;
      ret [("success", VBool false);
           ("error", VStr "not_logged_in");
           ("screenshot", shot_ref shot)]
  | None =>
      searchInMessenger recipient ;;
      fallback <- globalSearchFallback recipient ;;
      match fallback with
      | Some r => ret r
      | None => typeAndSend text
      end
  end.

(** The [catch] of the two workflows that capture a diagnostic
    screenshot: [try { shot = ...; return withShot } catch (e) { return
    withoutShot }]. *)
Definition faultBoundary (label : string) (withShot : obj -> obj)
    (withoutShot : obj) : M W obj :=
  try_catch
    (shot <- captureScreenshot label ;; ret (withShot shot))
    (fun _ => ret withoutShot).

(** [sendMessage(recipient, text)] *)
Definition sendMessage (recipient text : string) : M W obj :=
  try_catch
    (openMessenger ;;
     afterMessengerOpen recipient text)
    (fun err =>
       faultBoundary "sendMessage-exception"
         (fun shot => [("success", VBool false);
                       ("error", VStr err);
                       ("screenshot", shot_ref shot)])
         [("success", VBool false); ("error", VStr err)]).

(** *** [sendFriendRequest] *)

Definition addFriendSelector : string :=
  "div[aria-label='Add friend'][role='button']".

Definition feedCardXpath (profileName : string) : string :=
  "xpath=//div[contains(@role,'feed')]//a[.//span[contains(normalize-space(.), "
  ++ Js.JSON_stringify profileName ++ ")]]".

(** The test of step 4 on the text of one [div[role='button']]. *)
Definition alreadyFriendText (innerText : option string) : bool :=
  let txt := Js.toLowerCase (Js.or_empty innerText) in
  Js.includes txt "friends"
  || Js.includes txt "دوست شدید"
  || Js.includes txt "already friends".

(** The test of step 6 on the text of one [div[role='button']]. *)
Definition requestSentText (innerText : option string) : bool :=
  let txt := Js.toLowerCase (Js.or_empty innerText) in
  Js.includes txt "cancel request"
  || Js.includes txt "friend request sent"
  || Js.includes txt "درخواست دوستی ارسال شد".

(** Up to the lookup of the first [Add friend] button. *)
Definition openSearchResults (profileName : string) : M W (option handle) :=
  r <- host MathRandom ;;
  wait (1000 + r * 2000) ;;
  throttle ;;
  (* 1) Go to search page for the profile *)
  url <- searchUrl profileName ;;
  call (PageGoto url) ;;
  r' <- host MathRandom ;;
  wait (1500 + r' * 1500) ;;
  (* 2) Look for candidate profile cards *)
  call (PageQueryAll (feedCardXpath profileName)) ;;
  call (PageQuery addFriendSelector).

(** Steps 5 and 6 and the final [return].  The statement
    [await addFriendButtons[0].click()] reads the identifier
    [addFriendButtons], which no enclosing scope declares (the [const]
    that declared it is commented out): evaluating it throws the
    ReferenceError below, and the rest of the step is never run. *)
Definition clickAndConfirm (profileName : string) : M W obj :=
  (throw "addFriendButtons is not defined" : M W unit) ;;
  r <- host MathRandom ;;
  wait (1000 + r * 1500) ;;
  requestConfirmed <- try_catch
    (texts <- call RoleButtonTexts ;; ret (existsb requestSentText texts))
    (fun _ => ret false) ;;
  persistSession ;;
  ret [("status", VStr "success");
       ("message", VStr (if requestConfirmed : bool
                         then "Friend request sent and confirmed"
                         else "Friend request sent (unconfirmed)"));
       ("error", VNull);
       ("profile", VStr profileName)].

(** Once the button is found: click it, wait, and read the texts of
    the [div[role='button']] elements for the check of step 4. *)
Definition clickAndScan (addFriendBtn : handle) : M W (list (option string)) :=
  (* Click it *)
  call (ElementClick addFriendBtn 1) ;;
  r <- host MathRandom ;;
  wait (1500 + r * 1000) ;;
  (* 4) Check if already friends *)
  call RoleButtonTexts.

(** What [sendFriendRequest] does once the button is found. *)
Definition afterButtonFound (profileName : string) (addFriendBtn : handle)
  : M W obj :=
  texts <- clickAndScan addFriendBtn ;;
  let alreadyFriend := existsb alreadyFriendText texts in
  if alreadyFriend then
    ret [("status", VStr "success");
         ("message", VStr "Already friends with this user");
         ("error", VNull);
         ("profile", VStr profileName)]
  else clickAndConfirm profileName.

(** [sendFriendRequest(profileName)] *)
Definition sendFriendRequest (profileName : string) : M W obj :=
  try_catch
    (addFriendBtn <- openSearchResults profileName ;;
     match addFriendBtn with
     | None =>
         ret [("status", VStr "failed");
              ("message", VStr "No 'Add friend' button found");
              ("error", VStr "no_add_friend_button")]
     | Some btn => afterButtonFound profileName btn
     end)
    (fun err =>
       faultBoundary "sendFriendRequest-exception"
         (fun shot => [("status", VStr "failed");
                       ("message", VStr "Exception while sending friend request");
                       ("error", VStr err);
                       ("screenshot", shot_ref shot);
                       ("profile", VStr profileName)])
         [("status", VStr "failed");
          ("message", VStr "Exception while sending friend request");
          ("error", VStr err);
          ("profile", VStr profileName)]).

End Controller.

(** ** The callers and the remaining helpers

    [waitForSelectorAny] ([src/utils/waitForSelectorAny.js]), the
    routes of [src/playwrightServer.js] that call the controller, and
    the loading side of [src/utils/session.js] with its two callers,
    [initSession] of the controller and the route [/uploadSession]. *)

Section Callers.

Context {W : Type} {B : Browser W}.

(** *** [src/utils/waitForSelectorAny.js] *)

(** The options a caller may pass on to [page.waitForSelector]; an
    absent [timeout] is the 5000 ms of the source, an absent [visible]
    is the default of the page. *)
Record waitOptions : Type := {
  opt_visible : option bool;
  opt_timeout : option Z
}.

(** The loop over [selectors]; [None] when it ends without a
    [return]. *)
Fixpoint firstSelector (selectors : list string) (visible : bool) (timeout : Z)
  : M W (option handle) :=
  match selectors with
  | [] => ret None
  | sel :: rest =>
      el <- try_catch (call (WaitForSelector sel visible timeout))
              (fun _ => ret None) ;;
      match el with
      | Some h => ret (Some h)
      | None => firstSelector rest visible timeout
      end
  end.

(** [waitForSelectorAny(page, selectors, options)] *)
Definition waitForSelectorAny (selectors : list string) (options : waitOptions)
  : M W handle :=
  let visible := match opt_visible options with Some v => v | None => false end in
  let timeout := match opt_timeout options with Some z => z | None => 5000 end in
  found <- firstSelector selectors visible timeout ;;
  match found with
  | Some el => ret el
  | None =>
      throw ("No element found for selectors: " ++ String.concat ", " selectors)
  end.

(** *** [src/playwrightServer.js]: the routes of the controller *)

(** What a route answers: [res.status(code).json(body)]; [res.json] is
    the status 200. *)
Record response : Type := {
  resp_status : Z;
  resp_body : obj
}.

(** The variables [fb] and [fbReady] of the module: [fb] is undefined
    until the browser is launched, [fbReady] is set once [initSession]
    has returned. *)
Record server : Type := {
  fb : option (controller W);
  fbReady : bool
}.

(** The body the three routes share:
    [try { const result = await op; if (!result.success) return
    res.status(400).json(result); return res.json(result); } catch
    (err) { return res.status(500).json({ success: false, error:
    err.message }); }] *)
Definition answer (op : M W obj) : M W response :=
  try_catch
    (result <- op ;;
     if negb (truthy (get result "success"))
     then ret {| resp_status := 400; resp_body := result |}
     else ret {| resp_status := 200; resp_body := result |})
    (fun err =>
       ret {| resp_status := 500;
              resp_body := [("success", VBool false); ("error", VStr err)] |}).

(** A route runs the operation on the controller [fb]. *)
Definition on_fb {A} (srv : server) (c : controller W) (m : M W A)
  : res A * server * list event :=
  let '(r, c', t) := m c in
  (r, {| fb := Some c'; fbReady := fbReady srv |}, t).

(** [POST /login], for a request body with the strings [email] and
    [password]. *)
Definition postLogin (fuel : nat) (email password : string) (srv : server)
  : res response * server * list event :=
  match fb srv with
  | None =>
      (Ok {| resp_status := 503;
             resp_body := [("success", VBool false); ("error", VStr "not_ready")] |},
       srv, [])
  | Some c => on_fb srv c (answer (login fuel email password 2))
  end.

(** [POST /sendMessage], for a request body with the strings
    [recipient] and [text]. *)
Definition postSendMessage (recipient text : string) (srv : server)
  : res response * server * list event :=
  match fb srv with
  | Some c =>
      if negb (fbReady srv) then
        (Ok {| resp_status := 400;
               resp_body := [("success", VBool false);
                             ("error", VStr "page_not_ready")] |},
         srv, [])
      else on_fb srv c (answer (sendMessage recipient text))
  | None =>
      (Ok {| resp_status := 400;
             resp_body := [("success", VBool false);
                           ("error", VStr "page_not_ready")] |},
       srv, [])
  end.

(** [POST /friendRequest], for a request body with the string
    [recipient]. *)
Definition postFriendRequest (recipient : string) (srv : server)
  : res response * server * list event :=
  match fb srv with
  | Some c =>
      if negb (fbReady srv) then
        (Ok {| resp_status := 400;
               resp_body := [("success", VBool false);
                             ("error", VStr "page_not_ready")] |},
         srv, [])
      else on_fb srv c (answer (sendFriendRequest recipient))
  | None =>
      (Ok {| resp_status := 400;
             resp_body := [("success", VBool false);
                           ("error", VStr "page_not_ready")] |},
       srv, [])
  end.

End Callers.

Arguments server W : clear implicits.

(** *** [src/utils/session.js]: loading a session *)

(** What [JSON.parse] gives: the properties of an object are distinct
    and in the order of the text. *)
#[warnings="-register-all"]
Inductive json : Type :=
| JNull
| JBool (b : bool)
| JNum (n : Q)
| JStr (s : string)
| JArr (items : list json)
| JObj (fields : list (string * json)).

(** ToBoolean *)
Definition jtruthy (j : json) : bool :=
  match j with
  | JNull => false
  | JBool b => b
  | JNum n => negb (Qeq_bool n 0)
  | JStr s => Js.nonempty s
  | JArr _ | JObj _ => true
  end.

Fixpoint jassoc (k : string) (fields : list (string * json)) : option json :=
  match fields with
  | [] => None
  | (k', v) :: r => if (k =? k')%string then Some v else jassoc k r
  end.

(** [j.k] on a value that is not [null], for a name [k] that is neither
    [length] nor an index; [None] is [undefined]. *)
Definition member (j : json) (k : string) : option json :=
  match j with
  | JObj fields => jassoc k fields
  | _ => None
  end.

(** The truth value of [c.length], for a truthy [c]. *)
Definition has_length (c : json) : bool :=
  match c with
  | JArr items => negb (Nat.eqb (List.length items) 0)
  | JStr s => Js.nonempty s
  | JObj fields =>
      match jassoc "length" fields with
      | Some v => jtruthy v
      | None => false
      end
  | _ => false
  end.

(** [d || {}] *)
Definition or_empty_object (d : option json) : json :=
  match d with
  | Some j => if jtruthy j then j else JObj []
  | None => JObj []
  end.

(** The calls of the session functions on the file system, on the
    browser context and on the storage of the page. *)
Inductive Ext : Type -> Type :=
| FsReadJson (path : string) : Ext json
    (* JSON.parse(await fs.readFile(path, "utf8")) *)
| FsWriteJson (path : string) (data : json) : Ext unit
    (* fs.writeFile(path, JSON.stringify(data, null, 2), "utf8") *)
| ContextAddCookies (cookies : json) : Ext unit
    (* page.context().addCookies(cookies) *)
| LocalStorageSetItems (data : json) : Ext unit.
    (* page.evaluate(data => { for (k of Object.keys(data || {}))
       localStorage.setItem(k, data[k]) }, data) *)

Class Platform (W : Type) : Type := {
  ext_call : forall A, Ext A -> W -> reply A * W
}.

(** One call of a session function and its answer. *)
Inductive step : Type :=
| Base (e : event)
| ExtEv {A : Type} (c : Ext A) (r : reply A).

Declare Scope jx_scope.
Delimit Scope jx_scope with jx.

Section Sessions.

Context {W : Type} {B : Browser W} {P : Platform W}.

(** The computations that make calls of both kinds. *)
Definition X (A : Type) : Type := controller W -> res A * controller W * list step.

Definition xret {A} (a : A) : X A := fun s => (Ok a, s, []).

Definition xbind {A C} (m : X A) (k : A -> X C) : X C :=
  fun s =>
    match m s with
    | (Ok a, s1, t1) => let '(r, s2, t2) := k a s1 in (r, s2, (t1 ++ t2)%list)
    | (Throw e, s1, t1) => (Throw e, s1, t1)
    | (OutOfFuel, s1, t1) => (OutOfFuel, s1, t1)
    end.

Definition xthrow {A} (msg : string) : X A := fun s => (Throw msg, s, []).

Definition xtry {A} (m : X A) (h : string -> X A) : X A :=
  fun s =>
    match m s with
    | (Throw e, s1, t1) => let '(r, s2, t2) := h e s1 in (r, s2, (t1 ++ t2)%list)
    | out => out
    end.

(** A computation of the controller, run as it is. *)
Definition lift {A} (m : M W A) : X A :=
  fun s => let '(r, s1, t) := m s in (r, s1, map Base t).

Definition ext {A} (c : Ext A) : X A :=
  fun s => let '(r, w) := ext_call A c (page s) in
           (match r with Ret a => Ok a | Raise e => Throw e end,
            with_page s w, [ExtEv c r]).

Notation "x <- m ;; k" := (xbind m (fun x => k))
  (at level 61, m at next level, right associativity) : jx_scope.
Notation "m ;; k" := (xbind m (fun _ => k))
  (at level 61, right associativity) : jx_scope.
#[local] Open Scope jx_scope.

(** [promise.catch(() => {})] *)
Definition xswallow {A} (m : X A) : X unit :=
  xtry (m ;; xret tt) (fun _ => xret tt).

(** [loadSession(page, name)] *)
Definition loadSession (name : string) : X obj :=
  let file := Js.path_join SESSIONS_DIR (name ++ ".json") in
  xtry
    (parsed <- ext (FsReadJson file) ;;
     cookies <- match parsed with
                | JNull =>
                    xthrow "Cannot read properties of null (reading 'cookies')"
                | _ => xret (member parsed "cookies")
                end ;;
     match cookies with
     | Some c =>
         if jtruthy c && has_length c
         then xswallow (ext (ContextAddCookies c))
         else xret tt
     | None => xret tt
     end ;;
     (* Navigate to facebook origin and set localStorage keys *)
     xtry
       (xswallow (lift (call (PageGoto "https://www.facebook.com"))) ;;
        ext (LocalStorageSetItems (or_empty_object (member parsed "localStorage"))))
       (fun _ => xret tt) ;;
     xret [("ok", VBool true); ("file", VStr file)])
    (fun err => xret [("ok", VBool false); ("error", VStr err)]).

(** [initSession()] of the controller: the answer of [loadSession], or
    [null]. *)
Definition initSession : X (option obj) :=
  xtry
    (lift (call (SetViewport 1280 800)) ;;
     name <- lift (this sessionName) ;;
     loaded <- loadSession name ;;
     xret (Some loaded))
    (fun _ => xret None).

(** [POST /uploadSession], for a request body with an optional string
    [sessionName] and an optional [session]; the page of the module is
    the page of the controller. *)
Definition postUploadSession (optSessionName : option string)
    (session : option json) : X response :=
  let noSession : X response :=
    xret {| resp_status := 400;
            resp_body := [("success", VBool false); ("error", VStr "no_session")] |} in
  xtry
    (let sessionName :=
       match optSessionName with Some n => n | None => "default" end in
     match session with
     | None => noSession
     | Some data =>
         if negb (jtruthy data) then noSession
         else
           let sessionsDir := Js.path_join cwd "sessions" in
           lift (call (FsMkdir sessionsDir)) ;;
           let filePath := Js.path_join sessionsDir (sessionName ++ ".json") in
           ext (FsWriteJson filePath data) ;;
           (* load it into current page/context *)
           loadSession sessionName ;;
           xret {| resp_status := 200;
                   resp_body := [("success", VBool true);
                                 ("file", VStr filePath)] |}
     end)
    (fun err =>
       xret {| resp_status := 500;
               resp_body := [("success", VBool false); ("error", VStr err)] |}).

End Sessions.

Arguments X W A : clear implicits.

(** ** A scripted browser for concrete runs

    The world is the clock (milliseconds); the page is a fixed [site]:
    every query is answered from its description, every interaction
    succeeds.  Timers advance the clock by their (rounded up) delay.
    The page has the method [setViewport]. *)

Record site : Type := {
  site_url : string;
  site_frames : list (string * option string);   (* address, body text *)
  site_query : list (string * handle);           (* selector, first match *)
  site_body : option string;                     (* document.body.innerText *)
  site_buttons : list (option string);           (* div[role='button'] texts *)
  site_fields : bool                             (* waitForSelector succeeds *)
}.

Fixpoint assoc {A} (k : string) (l : list (string * A)) : option A :=
  match l with
  | [] => None
  | (k', a) :: r => if (k =? k')%string then Some a else assoc k r
  end.

(** The value every [Math.random()] of a scripted run gives. *)
Definition half : unit01 :=
  {| u01 := 1 # 2;
     u01_range := ltac:(split; [ discriminate | reflexivity ]) |}.

Definition shownLayout : layout :=
  {| display := "block"; visibility := "visible"; width := 100; height := 20 |}.

Definition site_host (A : Type) (c : Host A) (clock : Z) : A * Z :=
  match c in Host T return T * Z with
  | DateNow => (clock, clock)
  | DateToISOString => ("2025-01-01T00:00:00.000Z", clock)
  | MathRandom => (half, clock)
  | SetTimeout ms => (tt, clock + Z.max 0 (Qceiling ms))
  end.

Definition site_page (st : site) (A : Type) (c : Page A) (clock : Z)
  : reply A * Z :=
  match c in Page T return reply T * Z with
  | PageGoto _ => (Ret tt, clock)
  | PageUrl => (Ret (site_url st), clock)
  | PageFrames => (Ret (seq 0 (List.length (site_frames st))), clock)
  | FrameUrl f =>
      (match nth_error (site_frames st) f with
       | Some (u, _) => Ret u
       | None => Raise "frame detached"
       end, clock)
  | FrameBodyText f =>
      (match nth_error (site_frames st) f with
       | Some (_, Some txt) => Ret (Some txt)
       | _ => Raise "cross-origin frame"
       end, clock)
  | BodyInnerText => (Ret (site_body st), clock)
  | PageQuery sel => (Ret (assoc sel (site_query st)), clock)
  | PageQueryAll _ => (Ret [], clock)
  | ElementQueryAll _ _ => (Ret [], clock)
  | ElementTexts _ => (Ret (None, None), clock)
  | ElementInnerText _ => (Ret None, clock)
  | ElementAttribute _ _ => (Ret None, clock)
  | ElementLayout _ => (Ret shownLayout, clock)
  | ClosestClickable _ => (Ret None, clock)
  | RoleButtonTexts => (Ret (site_buttons st), clock)
  | EditableNodes => (Ret [], clock)
  | WaitForSelector sel _ timeout =>
      if site_fields st then (Ret (Some 1%nat), clock)
      else (Raise "waiting for selector failed: timeout",
            clock + Z.max 0 timeout)
  | WaitForMessageInput timeout =>
      (Raise "waiting for function failed: timeout", clock + Z.max 0 timeout)
  | PageClick _ => (Ret tt, clock)
  | ElementClick _ _ => (Ret tt, clock)
  | ElementFocus _ => (Ret tt, clock)
  | KeyboardType _ => (Ret tt, clock)
  | KeyboardPress _ => (Ret tt, clock)
  | MouseMove _ _ _ => (Ret tt, clock)
  | BodyRect => (Ret (Some (1280 # 1, 800 # 1)%Q), clock)
  | ClearStorage => (Ret tt, clock)
  | PageCookies => (Ret [], clock)
  | PageDeleteCookie _ => (Ret tt, clock)
  | ContextCookies => (Ret [], clock)
  | LocalStorageEntries => (Ret [], clock)
  | SetViewport _ _ => (Ret tt, clock)
  | PageScreenshot _ => (Ret tt, clock)
  | FsMkdir _ => (Ret tt, clock)
  | FsWriteFile _ _ => (Ret tt, clock)
  end.

Definition siteBrowser (st : site) : Browser Z :=
  {| cwd := "/app"; has_setViewport := true;
     host_call := site_host; page_call := site_page st |}.

(** A fresh controller, as [playwrightServer.js] builds it. *)
Definition freshController : controller Z :=
  @newController Z 1700000000000 (Some "default") (Some 10000).

(** A page that is gone: every call on it fails. *)
Definition closedPage : Browser unit :=
  {| cwd := "/app";
     has_setViewport := true;
     host_call := fun A (c : Host A) (w : unit) =>
       match c in Host T return T * unit with
       | DateNow => (0, w)
       | DateToISOString => ("1970-01-01T00:00:00.000Z", w)
       | MathRandom => (half, w)
       | SetTimeout _ => (tt, w)
       end;
     page_call := fun A (c : Page A) (w : unit) => (Raise "Target closed", w) |}.

(** The home page, logged out of nothing in particular. *)
Definition blankSite : site :=
  {| site_url := "https://www.facebook.com/";
     site_frames := [];
     site_query := [];
     site_body := Some "Welcome";
     site_buttons := [];
     site_fields := true |}.

(** A login page whose second frame is a challenge widget; the first
    frame is an advertisement, the third one shows a challenge phrase. *)
Definition widgetSite : site :=
  {| site_url := "https://www.facebook.com/login";
     site_frames :=
       [("https://example.org/banner", Some "Advertisement");
        ("https://www.google.com/recaptcha/api2/anchor", None);
        ("https://example.org/help", Some "Security check")];
     site_query := [];
     site_body := Some "Log in to continue";
     site_buttons := [];
     site_fields := true |}.

(** The same frames in another order: the frame with the challenge
    phrase comes before the challenge widget. *)
Definition phraseFirstSite : site :=
  {| site_url := "https://www.facebook.com/login";
     site_frames :=
       [("https://example.org/help", Some "Security   Check");
        ("https://www.google.com/recaptcha/api2/anchor", None)];
     site_query := [];
     site_body := Some "Log in to continue";
     site_buttons := [];
     site_fields := true |}.

Definition credentialFields : list (string * handle) :=
  [("#email", 2%nat); ("#pass", 3%nat)].

(** A login form that leads to a checkpoint address. *)
Definition checkpointSite : site :=
  {| site_url := "https://www.facebook.com/checkpoint/?next";
     site_frames := [];
     site_query := credentialFields;
     site_body := Some "Welcome";
     site_buttons := [];
     site_fields := true |}.

(** A login form that answers with the wrong-password notice. *)
Definition wrongPasswordSite : site :=
  {| site_url := "https://www.facebook.com/login";
     site_frames := [];
     site_query := credentialFields;
     site_body := Some "The password you entered is INCORRECT.";
     site_buttons := [];
     site_fields := true |}.

(** The messaging address answered by the login form (session
    expired). *)
Definition expiredSessionSite : site :=
  {| site_url := "https://www.facebook.com/login/?next=messages";
     site_frames := [];
     site_query := [("#email, input[name='email'], input[type='password']", 5%nat)];
     site_body := Some "Log in";
     site_buttons := [];
     site_fields := true |}.

Definition addFriendButton : list (string * handle) :=
  [("div[aria-label='Add friend'][role='button']", 7%nat)].

(** Search results with an [Add friend] button. *)
Definition strangerSite : site :=
  {| site_url := "https://www.facebook.com/search/top";
     site_frames := [];
     site_query := addFriendButton;
     site_body := Some "Jane Doe";
     site_buttons := [Some "Add friend"; Some "Message"];
     site_fields := true |}.

(** Search results with an [Add friend] button and a [Friends] button. *)
Definition mixedResultsSite : site :=
  {| site_url := "https://www.facebook.com/search/top";
     site_frames := [];
     site_query := addFriendButton;
     site_body := Some "Jane Doe";
     site_buttons := [Some "Add friend"; Some "Friends"];
     site_fields := true |}.

(** Search results for somebody who is a friend already: a [Friends]
    button and no [Add friend] button. *)
Definition friendSite : site :=
  {| site_url := "https://www.facebook.com/search/top";
     site_frames := [];
     site_query := [];
     site_body := Some "Jane Doe";
     site_buttons := [Some "Friends"; Some "Message"];
     site_fields := true |}.

(** ** Vocabulary of the properties *)

(** The methods of the data model of a [CaptchaResult]; [MNone] is the
    absence of a method. *)
Inductive method : Type :=
| MUrl | MFrameUrl | MFrameText | MSelector | MSelectorText | MText | MNone.

(** The method a result object carries: the property [method] of the
    source, an absent property being [MNone]. *)
Definition method_of (r : obj) : option method :=
  match get r "method" with
  | VUndef => Some MNone
  | VStr m =>
      if (m =? "url")%string then Some MUrl
      else if (m =? "frame_url")%string then Some MFrameUrl
      else if (m =? "frame_text")%string then Some MFrameText
      else if (m =? "selector")%string then Some MSelector
      else if (m =? "selector_text")%string then Some MSelectorText
      else if (m =? "text")%string then Some MText
      else None
  | _ => None
  end.

(** A positive detection. *)
Definition positive (r : obj) : Prop := get r "detected" = VBool true.

Definition positive_if_found (o : option obj) : Prop :=
  forall r, o = Some r -> positive r.

(** The outcome [waitForLoginOutcome] reports for a captcha. *)
Definition captcha_outcome (c : obj) : obj :=
  [("outcome", VStr "captcha"); ("captcha", VObj c)].

(** The outcomes of one login attempt ([LoginOutcome] of the data
    model). *)
Definition login_outcome (o : obj) : Prop :=
  o = [("alreadyLoggedIn", VBool true); ("success", VBool true)]
  \/ o = [("outcome", VStr "success")]
  \/ (exists c, o = captcha_outcome c /\ positive c)
  \/ (exists nb, o = [("outcome", VStr "invalid_credentials");
                      ("snippet", VStr (Js.slice0 800 nb))]
                 /\ shows_invalid_credentials nb = true)
  \/ o = [("outcome", VStr "timeout")].

Definition polled (o : option obj) : Prop :=
  forall r, o = Some r -> login_outcome r.


(** The calls [captureScreenshot] makes. *)
Definition is_diagnostic (e : event) : bool :=
  match e with
  | HostEv c _ =>
      match c with
      | DateToISOString | DateNow | SetTimeout _ => true
      | MathRandom => false
      end
  | PageEv c _ =>
      match c with
      | FsMkdir _ | SetViewport _ _ | PageScreenshot _ => true
      | _ => false
      end
  end.

(** The calls [sendMessage] makes up to its login check: random
    numbers, timers, the clock, the navigation to the messaging surface
    and the reading of the address. *)
Definition is_opening (e : event) : bool :=
  match e with
  | HostEv c _ =>
      match c with
      | MathRandom | SetTimeout _ | DateNow => true
      | DateToISOString => false
      end
  | PageEv c _ =>
      match c with
      | PageGoto url => (url =? messengerUrl)%string
      | PageUrl => true
      | _ => false
      end
  end.

(** A click on an element. *)
Definition is_click (e : event) : bool :=
  match e with
  | PageEv c _ =>
      match c with
      | ElementClick _ _ | PageClick _ => true
      | _ => false
      end
  | HostEv _ _ => false
  end.

(** The uniform envelope of [login] and [sendMessage]: a boolean
    [success], and no error when it is [true]. *)
Definition success_envelope (r : obj) : Prop :=
  exists b, get r "success" = VBool b
            /\ (b = true -> nullish (get r "error") = true).

(** The envelope of the results of [sendFriendRequest]: no [success]
    property but a string [status]. *)
Definition status_envelope (r : obj) : Prop :=
  get r "success" = VUndef
  /\ ((get r "status" = VStr "success" /\ get r "error" = VNull)
      \/ (get r "status" = VStr "failed" /\ exists e, get r "error" = VStr e)).










Section Vocabulary.

Context {W : Type} {B : Browser W}.

(** Every value [m] returns satisfies [P]. *)
Definition post {A} (m : M W A) (P : A -> Prop) : Prop :=
  forall s a s' t, m s = (Ok a, s', t) -> P a.

(** [m] never runs out of fuel. *)
Definition fueled {A} (m : M W A) : Prop :=
  forall s s' t, m s <> (OutOfFuel, s', t).

(** [m] never throws. *)
Definition nothrow {A} (m : M W A) : Prop :=
  forall s e s' t, m s <> (Throw e, s', t).

(** [m] never sets the clock back. *)
Definition advances (clock : W -> Z) {A} (m : M W A) : Prop :=
  forall s r s' t, m s = (r, s', t) -> clock (page s) <= clock (page s').

(** A frame that triggers neither frame check, whenever it is looked
    at: its address is readable and matches no widget pattern, and its
    body text is unreadable or contains no challenge phrase. *)
Definition quiet_frame (g : frame) : Prop :=
  (forall w, exists gu, fst (page_call _ (FrameUrl g) w) = Ret gu
                        /\ frame_url_matches gu = false)
  /\ (forall w, match fst (page_call _ (FrameBodyText g) w) with
                | Ret txt => has_challenge_phrase (normalize txt) = false
                | Raise _ => True
                end).

End Vocabulary.


(** ** Vocabulary of the further properties *)

(** What a call typed: the argument of a [keyboard.type] that
    succeeded. *)
Definition typed_text (e : event) : option string :=
  match e with
  | PageEv c r =>
      match c with
      | KeyboardType ch =>
          match r with
          | Ret _ => Some ch
          | Raise _ => None
          end
      | _ => None
      end
  | HostEv _ _ => None
  end.

(** What the keyboard has typed in the course of a run. *)
Fixpoint keys (t : list event) : string :=
  match t with
  | [] => EmptyString
  | e :: r =>
      match typed_text e with
      | Some ch => ch ++ keys r
      | None => keys r
      end
  end.

(** How many times the keyboard has typed something. *)
Fixpoint strokes (t : list event) : nat :=
  match t with
  | [] => O
  | e :: r =>
      match typed_text e with
      | Some _ => S (strokes r)
      | None => strokes r
      end
  end.

(** The delay of a timer. *)
Definition pause_of (e : event) : option Q :=
  match e with
  | HostEv c _ =>
      match c with
      | SetTimeout ms => Some ms
      | _ => None
      end
  | PageEv _ _ => None
  end.

(** The timers of a run, in order. *)
Fixpoint pauses (t : list event) : list Q :=
  match t with
  | [] => []
  | e :: r =>
      match pause_of e with
      | Some ms => ms :: pauses r
      | None => pauses r
      end
  end.

(** A call that gives input to the page: typing, a key press, a click,
    a focus or a mouse move. *)
Definition is_input (e : event) : bool :=
  match e with
  | PageEv c _ =>
      match c with
      | KeyboardType _ | KeyboardPress _ | PageClick _ | ElementClick _ _
      | ElementFocus _ | MouseMove _ _ _ => true
      | _ => false
      end
  | HostEv _ _ => false
  end.

(** A navigation to the login page. *)
Definition is_login_goto (e : event) : bool :=
  match e with
  | PageEv c _ =>
      match c with
      | PageGoto url => (url =? "https://www.facebook.com/login")%string
      | _ => false
      end
  | HostEv _ _ => false
  end.

(** A call that is no navigation to the login page. *)
Definition stays (e : event) : bool := negb (is_login_goto e).

(** A call that gives no input to the page. *)
Definition hands_off (e : event) : bool := negb (is_input e).

(** A call that types no character. *)
Definition types_nothing (e : event) : bool :=
  match typed_text e with
  | Some _ => false
  | None => true
  end.

(** How often a run navigates to the login page. *)
Definition login_gotos (t : list event) : nat :=
  List.length (filter is_login_goto t).

(** A capture of the page. *)
Definition is_capture (e : event) : bool :=
  match e with
  | PageEv c _ =>
      match c with
      | PageScreenshot _ => true
      | _ => false
      end
  | HostEv _ _ => false
  end.

(** A call on the page or on the file system (not the clock, a timer
    or a random number). *)
Definition is_page_call (e : event) : bool :=
  match e with
  | PageEv _ _ => true
  | HostEv _ _ => false
  end.

(** Well-formed chunks: a first byte and continuation bytes, no more
    than it announces, and no fewer unless what follows is no
    continuation byte. *)
Fixpoint all_cont (s : string) : bool :=
  match s with
  | EmptyString => true
  | String c r => Js.is_cont c && all_cont r
  end.

Definition starts_cont (s : string) : bool :=
  match s with
  | String c _ => Js.is_cont c
  | EmptyString => false
  end.

Definition chunk_ok (c next : string) : Prop :=
  exists a tl,
    c = String a tl
    /\ all_cont tl = true
    /\ (String.length tl <= Nat.pred (Js.width a))%nat
    /\ (String.length tl = Nat.pred (Js.width a) \/ starts_cont next = false).

Fixpoint chunked (cs : list string) : Prop :=
  match cs with
  | [] => True
  | c :: r => chunk_ok c (String.concat EmptyString r) /\ chunked r
  end.

(** The value of a [screenshot] property: the URL path of the capture,
    or [null]. *)
Definition screenshot_ref (v : value) : Prop :=
  v = VNull \/ exists urlPath, v = VStr urlPath.

(** The results of [detectCaptcha]: [{ detected: false }], or a
    detection by one of the six methods; the three methods that read a
    text carry a snippet of at most 2000 UTF-16 code units (the
    [length] of the string), the others [null]. *)
Definition captcha_result (r : obj) : Prop :=
  r = not_detected
  \/ exists m mtch shot snippet,
       r = [("detected", VBool true); ("method", VStr m); ("match", VStr mtch);
            ("screenshot", shot); ("snippet", snippet)]
       /\ screenshot_ref shot
       /\ ((In m ["url"; "frame_url"; "selector"] /\ snippet = VNull)
           \/ (In m ["frame_text"; "selector_text"; "text"]
               /\ exists sn, snippet = VStr sn /\ (Js.length sn <= 2000)%nat)).

(** What a tier of [detectCaptcha] finds, if anything. *)
Definition found_shape (o : option obj) : Prop :=
  forall r, o = Some r -> captcha_result r.

(** The results of [login]. *)
Definition login_result (r : obj) : Prop :=
  r = [("success", VBool true)]
  \/ (exists shot c,
        r = [("success", VBool false); ("error", VStr "captcha_detected");
             ("screenshot", shot); ("detail", VObj c)]
        /\ screenshot_ref shot /\ positive c)
  \/ (exists snippet,
        r = [("success", VBool false); ("error", VStr "invalid_credentials");
             ("detail", VStr snippet)]
        /\ (0 < Js.length snippet <= 800)%nat)
  \/ r = [("success", VBool false); ("error", VStr "timeout")]
  \/ (exists err, r = [("success", VBool false); ("error", VStr err)]).

(** The results of [sendMessage]. *)
Definition message_result (r : obj) : Prop :=
  r = [("success", VBool true)]
  \/ exists err shot,
       r = [("success", VBool false); ("error", VStr err); ("screenshot", shot)]
       /\ screenshot_ref shot.

(** What [JSON.parse] reads back from the text [JSON.stringify] wrote
    for a value: a property whose value is [undefined] is left out. *)
Fixpoint json_of_value (v : value) : option json :=
  match v with
  | VUndef => None
  | VNull => Some JNull
  | VBool b => Some (JBool b)
  | VNum n => Some (JNum (inject_Z n))
  | VStr s => Some (JStr s)
  | VObj fields =>
      Some (JObj ((fix props (l : list (string * value)) : list (string * json) :=
                     match l with
                     | [] => []
                     | (k, x) :: r =>
                         match json_of_value x with
                         | Some j => (k, j) :: props r
                         | None => props r
                         end
                     end) fields))
  end.

Definition json_of_cookie (c : cookie) : json :=
  match json_of_value (VObj c) with
  | Some j => j
  | None => JNull
  end.

Definition json_of_storage (entries : list (string * string)) : json :=
  JObj (map (fun kv => (fst kv, JStr (snd kv))) entries).

(** The content of a session file, as it is read back. *)
Definition json_of_session (f : session_file) : json :=
  JObj [("cookies", JArr (map json_of_cookie (sf_cookies f)));
        ("localStorage", json_of_storage (sf_localStorage f));
        ("savedAt", JStr (sf_savedAt f))].

(** A wait for [sel] that found nothing: it answered [null] or
    failed. *)
Definition missed (visible : bool) (timeout : Z) (sel : string) (e : event)
  : Prop :=
  e = PageEv (WaitForSelector sel visible timeout) (Ret None)
  \/ exists err, e = PageEv (WaitForSelector sel visible timeout) (Raise err).

(** The cookies of a session file that [loadSession] hands to the
    browser context: the property [cookies] when it is truthy and has
    a truthy [length]. *)
Definition applied_cookies (parsed : json) : option json :=
  match member parsed "cookies" with
  | Some c => if jtruthy c && has_length c then Some c else None
  | None => None
  end.

Section Vocabulary2.

Context {W : Type} {B : Browser W}.

(** The directory of the session files and the file of the session
    [name]: [path.join(process.cwd(), "sessions")] and
    [path.join(<that directory>, name + ".json")]. *)
Definition sessions_dir : string := Js.path_join cwd "sessions".

Definition session_path (name : string) : string :=
  Js.path_join sessions_dir (name ++ ".json").

(** [m] navigates to the login page at most [n] times. *)
Definition navigates (n : nat) {A} (m : M W A) : Prop :=
  forall s r s' t, m s = (r, s', t) -> (login_gotos t <= n)%nat.

(** A candidate selector that triggers no selector check, whenever it
    is looked at: it matches no element (or the query fails), or it is
    not an [iframe] selector and the text of the element it matches is
    unreadable or contains no challenge phrase. *)
Definition quiet_selector (sel : string) : Prop :=
  forall w,
    match fst (page_call _ (PageQuery sel) w) with
    | Ret None | Raise _ => True
    | Ret (Some el) =>
        regex_i_test ["iframe"] sel = false
        /\ forall w',
             match fst (page_call _ (ElementTexts el) w') with
             | Ret texts =>
                 has_challenge_phrase
                   (normalize (Js.or_else (fst texts) (snd texts))) = false
             | Raise _ => True
             end
    end.

(** Every call [m] makes satisfies [P]. *)
Definition emits (P : event -> bool) {A} (m : M W A) : Prop :=
  forall s r s' t, m s = (r, s', t) -> forallb P t = true.

End Vocabulary2.

(** ** Scripted environments for the further runs *)

(** The login page as somebody who is logged in sees it: the search
    box of the header is shown. *)
Definition loggedInSite : site :=
  {| site_url := "https://www.facebook.com/";
     site_frames := [];
     site_query := [("input[type='search']", 4%nat)];
     site_body := Some "Home";
     site_buttons := [];
     site_fields := true |}.


(** The messaging surface with a conversation open. *)
Definition chatSite : site :=
  {| site_url := "https://www.facebook.com/messages/t/";
     site_frames := [];
     site_query :=
       [("div[contenteditable='true'][role='textbox'], div[aria-label='Message']",
         9%nat)];
     site_body := Some "Jane Doe";
     site_buttons := [];
     site_fields := true |}.

(** The home page with an advertisement in a frame and a banner that
    one of the candidate selectors matches. *)
Definition quietSite : site :=
  {| site_url := "https://www.facebook.com/";
     site_frames := [("https://example.org/banner", Some "Advertisement")];
     site_query := [("div[id*='captcha']", 8%nat)];
     site_body := Some "Welcome back";
     site_buttons := [];
     site_fields := true |}.

(** A Playwright page (no [setViewport]) whose browser context holds a
    session: two cookies and one entry of the local storage;
    everything else as on the home page. *)
Definition sessionCookies : list cookie :=
  [[("name", VStr "c_user"); ("value", VStr "100001"); ("domain", VStr ".facebook.com")];
   [("name", VStr "xs"); ("value", VStr "secret"); ("domain", VStr ".facebook.com")]].

Definition sessionBrowser : Browser Z :=
  {| cwd := "/app";
     has_setViewport := false;
     host_call := site_host;
     page_call := fun A (c : Page A) (clock : Z) =>
       match c in Page T return reply T * Z with
       | ContextCookies => (Ret sessionCookies, clock)
       | LocalStorageEntries => (Ret [("theme", "dark")], clock)
       | SetViewport _ _ => (Raise "this.page.setViewport is not a function", clock)
       | c' => site_page blankSite _ c' clock
       end |}.

(** The session file [saveSession] writes in that context. *)
Definition sessionFile : session_file :=
  {| sf_cookies := sessionCookies;
     sf_localStorage := [("theme", "dark")];
     sf_savedAt := "2025-01-01T00:00:00.000Z" |}.

(** A file system that holds the given session files; writing and the
    calls on the browser context succeed. *)
Definition diskPlatform (files : list (string * json)) : Platform Z :=
  {| ext_call := fun A (c : Ext A) (clock : Z) =>
       match c in Ext T return reply T * Z with
       | FsReadJson path =>
           (match assoc path files with
            | Some j => Ret j
            | None => Raise "ENOENT: no such file or directory"
            end, clock)
       | FsWriteJson _ _ => (Ret tt, clock)
       | ContextAddCookies _ => (Ret tt, clock)
       | LocalStorageSetItems _ => (Ret tt, clock)
       end |}.

(** The server once the start-up block has finished. *)
Definition readyServer : server Z :=
  {| fb := Some freshController; fbReady := true |}.
(** * Verification *)

(** ** Reasoning about computations *)

Section Rules.

Context {W : Type} {B : Browser W}.

Lemma bind_ok {A C} (m : M W A) (k : A -> M W C) s a s1 t1 :
  m s = (Ok a, s1, t1) ->
  bind m k s = (let '(r, s2, t2) := k a s1 in (r, s2, (t1 ++ t2)%list)).
Proof. intros E. unfold bind. rewrite E. reflexivity. Qed.

Lemma bind_throw {A C} (m : M W A) (k : A -> M W C) s e s1 t1 :
  m s = (Throw e, s1, t1) -> bind m k s = (Throw e, s1, t1).
Proof. intros E. unfold bind. rewrite E. reflexivity. Qed.

Lemma bind_assoc {A C D} (m : M W A) (k : A -> M W C) (k' : C -> M W D) s :
  bind (bind m k) k' s = bind m (fun a => bind (k a) k') s.
Proof.
  unfold bind. destruct (m s) as [[[a | e |] s1] t1]; try reflexivity.
  destruct (k a s1) as [[[c | e |] s2] t2]; try reflexivity.
  destruct (k' c s2) as [[r s3] t3]. rewrite app_assoc. reflexivity.
Qed.

Lemma try_ok {A} (m : M W A) h s a s1 t1 :
  m s = (Ok a, s1, t1) -> try_catch m h s = (Ok a, s1, t1).
Proof. intros E. unfold try_catch. rewrite E. reflexivity. Qed.

Lemma try_throw {A} (m : M W A) h s e s1 t1 :
  m s = (Throw e, s1, t1) ->
  try_catch m h s = (let '(r, s2, t2) := h e s1 in (r, s2, (t1 ++ t2)%list)).
Proof. intros E. unfold try_catch. rewrite E. reflexivity. Qed.

Lemma host_run {A} (c : Host A) (s : controller W) :
  host c s = (Ok (fst (host_call A c (page s))),
              with_page s (snd (host_call A c (page s))),
              [HostEv c (fst (host_call A c (page s)))]).
Proof. unfold host. destruct (host_call A c (page s)). reflexivity. Qed.

Lemma timer_run ms (s : controller W) :
  host (SetTimeout ms) s
  = (Ok tt, with_page s (snd (host_call _ (SetTimeout ms) (page s))),
     [HostEv (SetTimeout ms) tt]).
Proof.
  rewrite host_run. destruct (fst (host_call unit (SetTimeout ms) (page s))).
  reflexivity.
Qed.

Lemma call_ret {A} (c : Page A) (s : controller W) a :
  fst (page_call A c (page s)) = Ret a ->
  call c s = (Ok a, with_page s (snd (page_call A c (page s))),
              [PageEv c (Ret a)]).
Proof.
  unfold call. destruct (page_call A c (page s)) as [r w]. simpl.
  intros ->. reflexivity.
Qed.

Lemma post_ret {A} (a : A) (P : A -> Prop) : P a -> post (@ret W A a) P.
Proof. intros H s a' s' t E. inversion E; subst. exact H. Qed.

Lemma post_throw {A} e (P : A -> Prop) : post (@throw W A e) P.
Proof. intros s a s' t E. inversion E. Qed.

Lemma post_out_of_fuel {A} (P : A -> Prop) : post (@out_of_fuel W A) P.
Proof. intros s a s' t E. inversion E. Qed.

Lemma post_any {A} (m : M W A) : post m (fun _ => True).
Proof. intros s a s' t _. exact I. Qed.

Lemma post_bind {A C} (m : M W A) (k : A -> M W C) (Q : A -> Prop)
    (P : C -> Prop) :
  post m Q -> (forall a, Q a -> post (k a) P) -> post (bind m k) P.
Proof.
  intros Hm Hk s c s' t. unfold bind.
  destruct (m s) as [[[a | e |] s1] t1] eqn:E; try discriminate.
  destruct (k a s1) as [[r s2] t2] eqn:E2.
  intros H. inversion H; subst.
  exact (Hk a (Hm s a s1 t1 E) s1 c s' t2 E2).
Qed.

Lemma post_seq {A C} (m : M W A) (k : A -> M W C) (P : C -> Prop) :
  (forall a, post (k a) P) -> post (bind m k) P.
Proof.
  intros Hk. apply post_bind with (Q := fun _ => True); auto using post_any.
Qed.

Lemma post_try {A} (m : M W A) h (P : A -> Prop) :
  post m P -> (forall e, post (h e) P) -> post (try_catch m h) P.
Proof.
  intros Hm Hh s a s' t. unfold try_catch.
  destruct (m s) as [[[a1 | e |] s1] t1] eqn:E.
  - intros H. inversion H; subst. exact (Hm s a s' t E).
  - destruct (h e s1) as [[r s2] t2] eqn:E2. intros H. inversion H; subst.
    exact (Hh e s1 a s' t2 E2).
  - discriminate.
Qed.

Lemma fueled_ret {A} (a : A) : fueled (@ret W A a).
Proof. intros s s' t E. inversion E. Qed.

Lemma fueled_throw {A} e : fueled (@throw W A e).
Proof. intros s s' t E. inversion E. Qed.

Lemma fueled_this {A} (f : controller W -> A) : fueled (this f).
Proof. intros s s' t E. inversion E. Qed.

Lemma fueled_set z : fueled (@set_lastActionAt W z).
Proof. intros s s' t E. inversion E. Qed.

Lemma fueled_host {A} (c : Host A) : fueled (host c).
Proof.
  intros s s' t. unfold host. destruct (host_call A c (page s)). discriminate.
Qed.

Lemma fueled_call {A} (c : Page A) : fueled (call c).
Proof.
  intros s s' t. unfold call.
  destruct (page_call A c (page s)) as [[a | e] w]; discriminate.
Qed.

Lemma fueled_bind {A C} (m : M W A) (k : A -> M W C) :
  fueled m -> (forall a, fueled (k a)) -> fueled (bind m k).
Proof.
  intros Hm Hk s s' t. unfold bind.
  destruct (m s) as [[[a | e |] s1] t1] eqn:E.
  - destruct (k a s1) as [[r s2] t2] eqn:E2. intros H. inversion H; subst.
    exact (Hk a s1 s' t2 E2).
  - discriminate.
  - exfalso. exact (Hm s s1 t1 E).
Qed.

Lemma fueled_try {A} (m : M W A) h :
  fueled m -> (forall e, fueled (h e)) -> fueled (try_catch m h).
Proof.
  intros Hm Hh s s' t. unfold try_catch.
  destruct (m s) as [[[a | e |] s1] t1] eqn:E.
  - discriminate.
  - destruct (h e s1) as [[r s2] t2] eqn:E2. intros H. inversion H; subst.
    exact (Hh e s1 s' t2 E2).
  - exfalso. exact (Hm s s1 t1 E).
Qed.

Lemma nothrow_ret {A} (a : A) : nothrow (@ret W A a).
Proof. intros s e s' t E. inversion E. Qed.

Lemma nothrow_host {A} (c : Host A) : nothrow (host c).
Proof.
  intros s e s' t. unfold host. destruct (host_call A c (page s)). discriminate.
Qed.

Lemma nothrow_this {A} (f : controller W -> A) : nothrow (this f).
Proof. intros s e s' t E. inversion E. Qed.

Lemma nothrow_bind {A C} (m : M W A) (k : A -> M W C) :
  nothrow m -> (forall a, nothrow (k a)) -> nothrow (bind m k).
Proof.
  intros Hm Hk s e s' t. unfold bind.
  destruct (m s) as [[[a | e1 |] s1] t1] eqn:E.
  - destruct (k a s1) as [[r s2] t2] eqn:E2. intros H. inversion H; subst.
    exact (Hk a s1 e s' t2 E2).
  - exfalso. exact (Hm s e1 s1 t1 E).
  - discriminate.
Qed.

Lemma nothrow_try {A} (m : M W A) h :
  (forall e, nothrow (h e)) -> nothrow (try_catch m h).
Proof.
  intros Hh s e s' t. unfold try_catch.
  destruct (m s) as [[[a | e1 |] s1] t1] eqn:E; try discriminate.
  destruct (h e1 s1) as [[r s2] t2] eqn:E2. intros H. inversion H; subst.
  exact (Hh e1 s1 e s' t2 E2).
Qed.

Lemma nothrow_swallow {A} (m : M W A) : nothrow (swallow m).
Proof. apply nothrow_try. intros e. apply nothrow_ret. Qed.

Lemma advances_ret clock {A} (a : A) : advances clock (@ret W A a).
Proof. intros s r s' t H. inversion H. apply Z.le_refl. Qed.

Lemma advances_throw clock {A} e : advances clock (@throw W A e).
Proof. intros s r s' t H. inversion H. apply Z.le_refl. Qed.

Lemma advances_host clock {A} (c : Host A) :
  (forall A (c : Host A) w, clock w <= clock (snd (host_call A c w))) ->
  advances clock (host c).
Proof.
  intros Hc s r s' t. rewrite host_run. intros H. inversion H. apply Hc.
Qed.

Lemma advances_call clock {A} (c : Page A) :
  (forall A (c : Page A) w, clock w <= clock (snd (page_call A c w))) ->
  advances clock (call c).
Proof.
  intros Hc s r s' t. unfold call. pose proof (Hc A c (page s)) as Hw.
  destruct (page_call A c (page s)) as [x w]. intros H. inversion H. exact Hw.
Qed.

Lemma advances_bind clock {A C} (m : M W A) (k : A -> M W C) :
  advances clock m -> (forall a, advances clock (k a)) ->
  advances clock (bind m k).
Proof.
  intros Hm Hk s r s' t. unfold bind.
  destruct (m s) as [[[a | e |] s1] t1] eqn:E.
  - destruct (k a s1) as [[r2 s2] t2] eqn:E2. intros H. inversion H; subst.
    pose proof (Hm _ _ _ _ E). pose proof (Hk _ _ _ _ _ E2). lia.
  - intros H. inversion H; subst. exact (Hm _ _ _ _ E).
  - intros H. inversion H; subst. exact (Hm _ _ _ _ E).
Qed.

Lemma advances_try clock {A} (m : M W A) h :
  advances clock m -> (forall e, advances clock (h e)) ->
  advances clock (try_catch m h).
Proof.
  intros Hm Hh s r s' t. unfold try_catch.
  destruct (m s) as [[[a | e |] s1] t1] eqn:E.
  - intros H. inversion H; subst. exact (Hm _ _ _ _ E).
  - destruct (h e s1) as [[r2 s2] t2] eqn:E2. intros H. inversion H; subst.
    pose proof (Hm _ _ _ _ E). pose proof (Hh _ _ _ _ _ E2). lia.
  - intros H. inversion H; subst. exact (Hm _ _ _ _ E).
Qed.

Lemma bind_inv {A C} (m : M W A) (k : A -> M W C) s c s' t :
  bind m k s = (Ok c, s', t) ->
  exists a s1 t1 t2,
    m s = (Ok a, s1, t1) /\ k a s1 = (Ok c, s', t2) /\ t = (t1 ++ t2)%list.
Proof.
  unfold bind. destruct (m s) as [[[a | e |] s1] t1]; try discriminate.
  destruct (k a s1) as [[r s2] t2] eqn:E. intros H. inversion H; subst.
  exists a, s1, t1, t2. auto.
Qed.

Lemma try_inv {A} (m : M W A) h s a s' t :
  try_catch m h s = (Ok a, s', t) ->
  m s = (Ok a, s', t)
  \/ exists e s1 t1 t2,
       m s = (Throw e, s1, t1) /\ h e s1 = (Ok a, s', t2) /\ t = (t1 ++ t2)%list.
Proof.
  unfold try_catch. destruct (m s) as [[[a1 | e |] s1] t1]; try discriminate.
  - intros H. left. exact H.
  - destruct (h e s1) as [[r s2] t2] eqn:E. intros H. inversion H; subst.
    right. exists e, s1, t1, t2. auto.
Qed.

Lemma call_inv {A} (c : Page A) (s : controller W) a s' t :
  call c s = (Ok a, s', t) ->
  t = [PageEv c (Ret a)] /\ fst (page_call A c (page s)) = Ret a
  /\ s' = with_page s (snd (page_call A c (page s))).
Proof.
  unfold call. destruct (page_call A c (page s)) as [[a1 | e] w]; simpl;
    intros H; inversion H; subst; auto.
Qed.

(** A computation that neither throws nor runs out of fuel returns. *)
Lemma returns {A} (m : M W A) s :
  nothrow m -> fueled m -> exists a s' t, m s = (Ok a, s', t).
Proof.
  intros Hn Hf. destruct (m s) as [[[a | e |] s'] t] eqn:E.
  - eauto.
  - exfalso. exact (Hn s e s' t E).
  - exfalso. exact (Hf s s' t E).
Qed.

End Rules.

Create HintDb js.

#[export] Hint Resolve fueled_ret fueled_throw fueled_this fueled_set
  fueled_host fueled_call nothrow_ret nothrow_host nothrow_this
  nothrow_swallow post_throw post_out_of_fuel : js.

(** Syntax-directed proof of [fueled], [nothrow] and [post] goals. *)
Ltac js_step :=
  match goal with
  | |- _ (searchUrl _) => unfold searchUrl
  | |- _ (searchUrl _) _ => unfold searchUrl
  | |- fueled (bind _ _) => apply fueled_bind; [ | intros ? ]
  | |- fueled (try_catch _ _) => apply fueled_try; [ | intros ? ]
  | |- fueled (swallow _) => apply fueled_try; [ | intros ? ]
  | |- fueled (wait _) => apply fueled_host
  | |- nothrow (bind _ _) => apply nothrow_bind; [ | intros ? ]
  | |- nothrow (try_catch _ _) => apply nothrow_try; intros ?
  | |- nothrow (wait _) => apply nothrow_host
  | |- post (bind _ _) _ => apply post_seq; intros ?
  | |- post (ret _) _ => apply post_ret
  | |- post (try_catch _ _) _ => apply post_try; [ | intros ? ]
  | |- ?P (match ?x with _ => _ end) => destruct x
  | |- ?P (match ?x with _ => _ end) _ => destruct x
  | |- ?P (if ?b then _ else _) => destruct b
  | |- ?P (if ?b then _ else _) _ => destruct b
  | |- _ => solve [ auto with js ]
  end.

Ltac js_auto := repeat js_step.

(** One step of a run whose calls have been named: the bound values
    are substituted, the definitions are left folded. *)
Ltac run_step :=
  cbv beta iota zeta;
  cbn [page with_page minMessageIntervalMs _lastActionAt sessionName].


(** ** Diagnostic screenshots *)

Section Screenshots.

Context {W : Type} {B : Browser W}.

Lemma captureScreenshot_fueled label : fueled (captureScreenshot label).
Proof. unfold captureScreenshot. js_auto. Qed.

Lemma captureScreenshot_nothrow label : nothrow (captureScreenshot label).
Proof. unfold captureScreenshot. js_auto. Qed.

(** [captureScreenshot] always returns: a failing capture is reported
    in the returned object. *)
Lemma captureScreenshot_returns label s :
  exists shot s' t, captureScreenshot label s = (Ok shot, s', t).
Proof.
  apply returns; [apply captureScreenshot_nothrow | apply captureScreenshot_fueled].
Qed.

(** It touches nothing but the clock, a timer, the screenshot
    directory and the viewport. *)
Lemma captureScreenshot_trace label (s : controller W) r s' t :
  captureScreenshot label s = (r, s', t) -> forallb is_diagnostic t = true.
Proof.
  unfold captureScreenshot, swallow, bind, try_catch, host, call, ret, throw.
  destruct (host_call _ DateToISOString (page s)) as [iso w1];
    cbv beta iota zeta; cbn [page with_page].
  destruct (page_call _ (FsMkdir _) w1) as [[[] | e1] w2];
    cbv beta iota zeta; cbn [page with_page];
    destruct (host_call _ DateNow w2) as [now w3];
    cbv beta iota zeta; cbn [page with_page];
    (destruct has_setViewport; cbv beta iota zeta; cbn [page with_page];
     [ destruct (page_call _ (SetViewport 1280 800) w3) as [[[] | e2] w4];
       cbv beta iota zeta; cbn [page with_page];
       destruct (host_call _ (SetTimeout 200) w4) as [[] w5];
       cbv beta iota zeta; cbn [page with_page];
       destruct (page_call _ (PageScreenshot _) w5) as [[[] | e3] w6]
     | ]);
    intros H; apply (f_equal snd) in H; cbn [snd app] in H; subst t; reflexivity.
Qed.

End Screenshots.

(** ** Captcha detection *)

Section CaptchaFacts.

Context {W : Type} {B : Browser W}.

Lemma scanFrames_fueled frames : fueled (scanFrames frames).
Proof.
  induction frames as [| f rest IH]; simpl;
    js_auto; auto using captureScreenshot_fueled.
Qed.

Lemma scanSelectors_fueled sels : fueled (scanSelectors sels).
Proof.
  induction sels as [| sel rest IH]; simpl;
    js_auto; auto using captureScreenshot_fueled.
Qed.

Lemma scanBody_fueled patterns body : fueled (scanBody patterns body).
Proof.
  induction patterns as [| p rest IH]; simpl;
    js_auto; auto using captureScreenshot_fueled.
Qed.

Lemma detectCaptcha_fueled : fueled detectCaptcha.
Proof.
  unfold detectCaptcha.
  js_auto; auto using captureScreenshot_fueled, scanFrames_fueled,
    scanSelectors_fueled, scanBody_fueled.
Qed.

Lemma detectCaptcha_nothrow : nothrow detectCaptcha.
Proof. unfold detectCaptcha. js_auto. Qed.

Lemma found_none : positive_if_found None.
Proof. intros r H. discriminate. Qed.

Lemma found_detection m x shot sn :
  positive_if_found (Some (detection m x shot sn)).
Proof. intros r H. inversion H. reflexivity. Qed.

Lemma scanFrames_post frames : post (scanFrames frames) positive_if_found.
Proof.
  induction frames as [| f rest IH]; simpl.
  - apply post_ret, found_none.
  - apply post_seq; intros fu. destruct (frame_url_matches fu).
    + js_auto. apply found_detection.
    + apply post_bind with (Q := positive_if_found).
      * js_auto; auto using found_none, found_detection.
      * intros [r |] H; [apply post_ret; exact H | exact IH].
Qed.

Lemma scanSelectors_post sels : post (scanSelectors sels) positive_if_found.
Proof.
  induction sels as [| sel rest IH]; simpl.
  - apply post_ret, found_none.
  - apply post_bind with (Q := positive_if_found).
    + js_auto; auto using found_none, found_detection.
    + intros [r |] H; [apply post_ret; exact H | exact IH].
Qed.

Lemma scanBody_post patterns body :
  post (scanBody patterns body) positive_if_found.
Proof.
  induction patterns as [| p rest IH]; simpl;
    js_auto; auto using found_none, found_detection.
Qed.

(** Whatever [detectCaptcha] returns is a positive detection or the
    object [{ detected: false }]. *)
Lemma detectCaptcha_post :
  post detectCaptcha (fun r => positive r \/ r = not_detected).
Proof.
  unfold detectCaptcha.
  apply post_try; [ | intros e; apply post_ret; right; reflexivity ].
  apply post_seq; intros url.
  destruct (Js.nonempty url && url_is_checkpoint url).
  { js_auto. left. reflexivity. }
  apply post_bind with (Q := positive_if_found).
  { apply post_try; [ | intros e; apply post_ret, found_none ].
    apply post_seq; intros frames. apply scanFrames_post. }
  intros [r |] Hr; [ apply post_ret; left; apply Hr; reflexivity | ].
  apply post_bind with (Q := positive_if_found); [ apply scanSelectors_post | ].
  intros [r |] Hs; [ apply post_ret; left; apply Hs; reflexivity | ].
  apply post_seq; intros bodyText.
  apply post_bind with (Q := positive_if_found).
  { destruct (Js.nonempty (normalize (Some bodyText)));
      [ apply scanBody_post | apply post_ret, found_none ]. }
  intros [r |] Ht; apply post_ret; [ left; apply Ht | right ]; reflexivity.
Qed.

(** *** What a result rests on *)














(** C5.  A result of [detectCaptcha] with [detected == false] is the
    object [{ detected: false }]: it carries no method (the [none] of
    the data model) and its [match] is [== null]. *)
Theorem not_detected_has_no_method :
  forall (s : controller W) r s' t,
    detectCaptcha s = (Ok r, s', t) ->
    get r "detected" = VBool false ->
    r = not_detected
    /\ method_of r = Some MNone
    /\ nullish (get r "match") = true.
Proof.
  intros s r s' t E Hd.
  destruct (detectCaptcha_post s r s' t E) as [Hp | ->].
  - unfold positive in Hp. rewrite Hp in Hd. discriminate.
  - repeat split.
Qed.

End CaptchaFacts.

(** When the page is gone every check faults, and the result is
    [{ detected: false }]. *)
Example detectCaptcha_on_closed_page :
  fst (fst (@detectCaptcha unit closedPage
              (@newController unit tt None None))) = Ok not_detected.
Proof. reflexivity. Qed.

(** *** The frame tier *)

Section FrameTier.

Context {W : Type} {B : Browser W}.

(** A quiet frame is passed over: the scan goes on with the frames
    after it. *)
Lemma quiet_frame_skipped g rest s :
  quiet_frame g ->
  exists s1 t1,
    scanFrames (g :: rest) s
    = (let '(r, s2, t2) := scanFrames rest s1 in (r, s2, (t1 ++ t2)%list)).
Proof.
  intros [Hu Ht]. simpl. unfold bind at 1. unfold call at 1.
  destruct (Hu (page s)) as (gu & E & Hm).
  destruct (page_call _ (FrameUrl g) (page s)) as [r w]; simpl in E; subst r.
  rewrite Hm. unfold bind at 1, try_catch, bind at 1, call.
  specialize (Ht (page (with_page s w))).
  destruct (page_call _ (FrameBodyText g) (page (with_page s w)))
    as [[txt | e] w2]; simpl in Ht |- *.
  - rewrite Ht.
    destruct (negb (Js.nonempty (normalize txt))); simpl;
      match goal with |- context [scanFrames rest ?X] => exists X end;
      eexists [_; _]; destruct (scanFrames rest _) as [[? ?] ?]; reflexivity.
  - match goal with |- context [scanFrames rest ?X] => exists X end.
    eexists [_; _]; destruct (scanFrames rest _) as [[? ?] ?]; reflexivity.
Qed.

Variables (before after : list frame) (f : frame) (fu : string).

Hypothesis frame_address :
  forall w, fst (page_call _ (FrameUrl f) w) = Ret fu.
Hypothesis address_matches : frame_url_matches fu = true.
Hypothesis frames_before_are_quiet :
  forall g, In g before -> quiet_frame g.

Lemma scanFrames_reaches :
  forall s, exists shot s' t,
    scanFrames (before ++ f :: after) s
    = (Ok (Some (detection "frame_url" fu shot VNull)), s', t).
Proof.
  induction before as [| g pre IH]; intros s.
  - simpl.
    rewrite (bind_ok _ _ _ _ _ _ (call_ret _ _ _ (frame_address (page s)))).
    rewrite address_matches.
    destruct (captureScreenshot_returns "captcha-by-frame-url"
                (with_page s (snd (page_call _ (FrameUrl f) (page s)))))
      as (shot & s1 & t1 & E).
    rewrite (bind_ok _ _ _ _ _ _ E). simpl. eauto.
  - destruct (quiet_frame_skipped g (pre ++ f :: after) s) as (s1 & t1 & E).
    { apply frames_before_are_quiet. left. reflexivity. }
    change ((g :: pre) ++ f :: after)%list with (g :: (pre ++ f :: after))%list.
    rewrite E.
    destruct (IH (fun g' Hg => frames_before_are_quiet g' (or_intror Hg)) s1)
      as (shot & s' & t & E').
    rewrite E'. eauto.
Qed.

Hypothesis url_is_no_checkpoint :
  forall w, match fst (page_call _ PageUrl w) with
            | Ret u => url_is_checkpoint u = false
            | Raise _ => True
            end.
Hypothesis frames_listed :
  forall w, fst (page_call _ PageFrames w) = Ret (before ++ f :: after)%list.

Lemma url_tier_passed s :
  exists u s1 t1,
    try_catch (call PageUrl) (fun _ => ret EmptyString) s = (Ok u, s1, t1)
    /\ url_is_checkpoint u = false.
Proof.
  pose proof (url_is_no_checkpoint (page s)) as Hu.
  unfold try_catch, call, ret.
  destruct (page_call _ PageUrl (page s)) as [[u | e] w0]; simpl in Hu.
  - eauto 6.
  - exists EmptyString. eexists _, _. split; reflexivity.
Qed.

(** C4, as amended.  On a page whose top-level address matches no
    checkpoint pattern (or cannot be read) and whose frame list is
    [before ++ f :: after], where the address of [f] matches a
    challenge-widget pattern and every frame of [before] is quiet,
    [detectCaptcha] returns a positive detection with method
    [frame_url] and the address of [f] as its match, whatever the
    frames of [after] show.  The frames are examined one at a time,
    address first and text second. *)
Theorem frame_url_tier :
  forall s : controller W,
  exists shot s' t,
    detectCaptcha s = (Ok (detection "frame_url" fu shot VNull), s', t).
Proof.
  intros s.
  destruct (url_tier_passed s) as (u & s1 & t1 & E1 & Hu).
  pose proof (call_ret PageFrames s1 _ (frames_listed (page s1))) as E2.
  destruct (scanFrames_reaches
              (with_page s1 (snd (page_call _ PageFrames (page s1)))))
    as (shot & s2 & t2 & E3).
  exists shot. eexists _, _.
  unfold detectCaptcha. apply try_ok.
  rewrite (bind_ok _ _ _ _ _ _ E1).
  rewrite Hu, andb_false_r. cbv beta iota.
  erewrite bind_ok.
  2:{ apply try_ok. rewrite (bind_ok _ _ _ _ _ _ E2). rewrite E3. reflexivity. }
  reflexivity.
Qed.

End FrameTier.

(** ** Login *)

Section LoginFacts.

Context {W : Type} {B : Browser W}.

Lemma polled_none : polled None.
Proof. intros r H. discriminate. Qed.

Lemma pollOnce_post : post pollOnce polled.
Proof.
  unfold pollOnce.
  apply post_bind with (Q := polled).
  { js_auto; try apply polled_none.
    intros r H. inversion H. right. left. reflexivity. }
  intros [r |] H; [ apply post_ret; exact H | ].
  apply post_bind with (Q := polled).
  { apply post_try; [ | intros e; apply post_ret, polled_none ].
    eapply post_bind; [ apply detectCaptcha_post | ].
    intros c Hc. simpl truthy at 1. rewrite andb_true_l.
    destruct (truthy (get c "detected")) eqn:Hd; apply post_ret;
      [ | apply polled_none ].
    intros r Hr. inversion Hr. right. right. left. exists c.
    split; [ reflexivity | ].
    destruct Hc as [Hp | ->]; [ exact Hp | discriminate ]. }
  intros [r |] H2; [ apply post_ret; exact H2 | ].
  apply post_try; [ | intros e; apply post_ret, polled_none ].
  apply post_seq; intros body.
  destruct (shows_invalid_credentials _) eqn:Hi; apply post_ret;
    [ | apply polled_none ].
  intros r Hr. inversion Hr. right. right. right. left. eauto.
Qed.

Lemma pollLoop_post fuel start timeoutMs :
  post (pollLoop fuel start timeoutMs) login_outcome.
Proof.
  induction fuel as [| fuel IH]; simpl; apply post_seq; intros now;
    destruct (now - start <? timeoutMs);
    try (apply post_ret; repeat right; reflexivity).
  - apply post_out_of_fuel.
  - eapply post_bind; [ apply pollOnce_post | ].
    intros [r |] H; [ apply post_ret; apply H; reflexivity | ].
    apply post_seq; intros _. exact IH.
Qed.

(** The outcome of an attempt is one of the variants of
    [LoginOutcome], never a partial one. *)
Lemma doLoginOnce_post fuel email password :
  post (doLoginOnce fuel email password) login_outcome.
Proof.
  unfold doLoginOnce.
  apply post_bind
    with (Q := fun early => forall r, early = Some r -> login_outcome r).
  { unfold openLoginPage. js_auto; intros r H; inversion H. left. reflexivity. }
  intros [r |] H; [ apply post_ret; apply H; reflexivity | ].
  apply post_seq; intros _. unfold submitCredentials, waitForLoginOutcome.
  repeat (apply post_seq; intros ?). apply pollLoop_post.
Qed.

(** A string that is not empty starts with a code point, and so does
    every slice of it that is not empty. *)
Lemma chars_head c r :
  exists cur rest, Js.chars (String c r) = String c cur :: rest.
Proof.
  unfold Js.chars. cbn [Js.chars_from].
  destruct (Js.chars_from (Nat.pred (Js.width c)) r) as [cur rest].
  eexists _, _. reflexivity.
Qed.

Lemma slice0_nonempty n s :
  Js.nonempty s = true -> Js.nonempty (Js.slice0 (S n) s) = true.
Proof.
  destruct s as [| c r]; [ discriminate | intros _ ].
  unfold Js.slice0. destruct (chars_head c r) as (cur & rest & ->).
  cbn [Js.take_units].
  destruct (Js.astral (String c cur)); [ destruct n as [| n] | ];
    cbn [String.concat];
    try destruct (Js.take_units _ rest); reflexivity.
Qed.

Lemma snippet_nonempty nb :
  shows_invalid_credentials nb = true ->
  Js.nonempty (Js.slice0 800 nb) = true.
Proof.
  intros H. apply (slice0_nonempty 799).
  destruct nb as [| c r]; [ discriminate | reflexivity ].
Qed.



Lemma handleOutcome_captcha c maxRetries attempt :
  handleOutcome maxRetries attempt (captcha_outcome c)
  = (shot <- captureScreenshot ("login-captcha-" ++ Js.of_Z attempt) ;;
     if attempt <? maxRetries then
       r <- host MathRandom ;;
       host (SetTimeout (inject_Z (backoffMs (attempt + 1) r))) ;;
       try_catch (call ClearStorage) (fun _ => ret tt) ;;
       try_catch (cs <- call PageCookies ;; call (PageDeleteCookie cs))
         (fun _ => ret tt) ;;
       ret (Continue (attempt + 1))
     else
       ret (Return [("success", VBool false);
                    ("error", VStr "captcha_detected");
                    ("screenshot", shot_ref shot);
                    ("detail", VObj c)])).
Proof. reflexivity. Qed.



(** One turn of the loop of [login], once the attempt has returned an
    outcome. *)
Lemma loginLoop_turn turns fuel email password maxRetries attempt
    (s : controller W) outcome s1 t1 next s2 t2 :
  attempt <= maxRetries ->
  doLoginOnce fuel email password s = (Ok outcome, s1, t1) ->
  handleOutcome maxRetries attempt outcome s1 = (Ok next, s2, t2) ->
  loginLoop (S turns) fuel email password maxRetries attempt s
  = match next with
    | Return r => (Ok r, s2, (t1 ++ t2)%list)
    | Continue attempt' =>
        let '(result, s', t') :=
          loginLoop turns fuel email password maxRetries attempt' s2 in
        (result, s', (t1 ++ t2 ++ t')%list)
    end.
Proof.
  intros Hle E Eh. apply Z.leb_le in Hle.
  cbn [loginLoop]. rewrite Hle. unfold loginTurn.
  erewrite bind_ok.
  2:{ apply try_ok. rewrite (bind_ok _ _ _ _ _ _ E), Eh. reflexivity. }
  destruct next as [r | attempt'].
  - cbn [ret]. rewrite app_nil_r. reflexivity.
  - destruct (loginLoop turns fuel email password maxRetries attempt' s2)
      as [[result s'] t']. rewrite app_assoc. reflexivity.
Qed.

Lemma handleOutcome_continue maxRetries attempt outcome :
  post (handleOutcome maxRetries attempt outcome)
    (fun t => match t with
              | Return _ => True
              | Continue attempt' =>
                  attempt' = attempt + 1 /\ attempt < maxRetries
              end).
Proof.
  unfold handleOutcome.
  destruct (attempt <? maxRetries) eqn:Hlt;
    [ apply Z.ltb_lt in Hlt | ]; js_auto; auto.
Qed.

(** The number of turns [login] allows is enough: with any two
    sufficient numbers the loop does the same, so the loop itself never
    stops for want of turns. *)
Lemma loginLoop_turns_suffice fuel email password maxRetries :
  forall turns turns' attempt (s : controller W),
    maxRetries - attempt < Z.of_nat turns ->
    maxRetries - attempt < Z.of_nat turns' ->
    loginLoop turns fuel email password maxRetries attempt s
    = loginLoop turns' fuel email password maxRetries attempt s.
Proof.
  induction turns as [| turns IH]; intros turns' attempt s H H'.
  - destruct turns' as [| turns']; [ reflexivity | ].
    cbn [loginLoop]. destruct (attempt <=? maxRetries) eqn:Hle; [ | reflexivity ].
    apply Z.leb_le in Hle. simpl in H. lia.
  - destruct turns' as [| turns'].
    + cbn [loginLoop]. destruct (attempt <=? maxRetries) eqn:Hle; [ | reflexivity ].
      apply Z.leb_le in Hle. simpl in H'. lia.
    + cbn [loginLoop]. destruct (attempt <=? maxRetries) eqn:Hle; [ | reflexivity ].
      unfold bind.
      destruct (loginTurn fuel email password maxRetries attempt s)
        as [[[[r | attempt'] | e |] s1] t1] eqn:E; try reflexivity.
      assert (Hnext : attempt' = attempt + 1 /\ attempt < maxRetries).
      { revert E. unfold loginTurn, try_catch, bind.
        destruct (doLoginOnce fuel email password s)
          as [[[outcome | e |] s0] t0]; cbn [ret]; try discriminate.
        destruct (handleOutcome maxRetries attempt outcome s0)
          as [[[next | e |] s2] t2] eqn:Eh; cbn [ret]; try discriminate.
        intros H0. inversion H0; subst.
        exact (handleOutcome_continue maxRetries attempt outcome s0 _ _ _ Eh). }
      destruct Hnext as [-> Hlt].
      rewrite (IH turns' (attempt + 1) s1); [ reflexivity | lia | lia ].
Qed.

(** C8.  When the attempt of a turn ends with the outcome
    [invalid_credentials], [login] returns at once the failure
    [{ success: false, error: "invalid_credentials", detail: snippet }]
    with the snippet of the outcome: its final state and its calls are
    those of the attempt, so no delay and no further attempt follow,
    however many retries remain ([attempt <= maxRetries] is the
    condition of the loop). *)
Theorem invalid_credentials_is_terminal :
  forall turns fuel email password maxRetries attempt
         (s : controller W) outcome s1 t1,
    attempt <= maxRetries ->
    doLoginOnce fuel email password s = (Ok outcome, s1, t1) ->
    get outcome "outcome" = VStr "invalid_credentials" ->
    exists snippet,
      get outcome "snippet" = VStr snippet
      /\ loginLoop (S turns) fuel email password maxRetries attempt s
         = (Ok [("success", VBool false);
                ("error", VStr "invalid_credentials");
                ("detail", VStr snippet)], s1, t1).
Proof.
  intros turns fuel email password maxRetries attempt s outcome s1 t1 Hle E Htag.
  pose proof (doLoginOnce_post fuel email password s outcome s1 t1 E) as Hshape.
  destruct Hshape as [-> | [-> | [(c & -> & _) | [(nb & -> & Hnb) | ->]]]];
    try discriminate.
  exists (Js.slice0 800 nb). split; [ reflexivity | ].
  erewrite loginLoop_turn; [ | exact Hle | exact E | ].
  2:{ unfold handleOutcome. simpl. unfold vor. simpl truthy.
      rewrite (snippet_nonempty nb Hnb). reflexivity. }
  cbv beta iota. rewrite app_nil_r. reflexivity.
Qed.


(** C10.  [humanType] with a selector that matches no element
    ([page.$] answers [null]) throws [humanType: handle not found] and
    types nothing; sequencing does not contain the exception, so it
    reaches the caller; in [login], where the selector targets occur,
    it is caught by the [try] of the loop and becomes the failure
    result of the workflow, without a retry. *)
Theorem humanType_missing_element :
  forall (s : controller W) sel text w',
    page_call _ (PageQuery sel) (page s) = (Ret None, w') ->
    humanType (BySelector sel) text s
    = (Throw "humanType: handle not found", with_page s w',
       [PageEv (PageQuery sel) (Ret None)])
    /\ (forall A (k : unit -> M W A),
          bind (humanType (BySelector sel) text) k s
          = (Throw "humanType: handle not found", with_page s w',
             [PageEv (PageQuery sel) (Ret None)]))
    /\ (forall turns fuel password maxRetries attempt s0 sa ta tb,
          sel = "#email" ->
          attempt <= maxRetries ->
          openLoginPage s0 = (Ok None, sa, ta) ->
          ensureFields sa = (Ok tt, s, tb) ->
          loginLoop (S turns) fuel text password maxRetries attempt s0
          = (Ok [("success", VBool false);
                 ("error", VStr "humanType: handle not found")],
             with_page s w',
             (ta ++ tb ++ [PageEv (PageQuery sel) (Ret None)])%list)).
Proof.
  intros s sel text w' Hq.
  assert (Hthrow : humanType (BySelector sel) text s
                   = (Throw "humanType: handle not found", with_page s w',
                      [PageEv (PageQuery sel) (Ret None)])).
  { unfold humanType, humanTypeWith, bind, call. rewrite Hq. reflexivity. }
  split; [ exact Hthrow | ]. split.
  - intros A k. apply bind_throw. exact Hthrow.
  - intros turns fuel password maxRetries attempt s0 sa ta tb -> Hle Eopen Efields.
    apply Z.leb_le in Hle. cbn [loginLoop]. rewrite Hle.
    unfold loginTurn.
    erewrite bind_ok.
    2:{ erewrite try_throw.
        2:{ apply bind_throw. unfold doLoginOnce.
            rewrite (bind_ok _ _ _ _ _ _ Eopen).
            rewrite (bind_ok _ _ _ _ _ _ Efields).
            unfold submitCredentials. rewrite (bind_throw _ _ _ _ _ _ Hthrow).
            reflexivity. }
        reflexivity. }
    cbn [ret app]. rewrite !app_nil_r. reflexivity.
Qed.

End LoginFacts.

(** ** The workflows *)

Section Workflows.

Context {W : Type} {B : Browser W}.

Lemma openMessenger_trace (s : controller W) r s' t :
  openMessenger s = (r, s', t) -> forallb is_opening t = true.
Proof.
  unfold openMessenger, throttle, wait, bind, host, call, this,
    set_lastActionAt, ret.
  destruct (host_call _ MathRandom (page s)) as [r0 w1]; simpl.
  destruct (host_call _ (SetTimeout _) w1) as [[] w2]; simpl.
  destruct (host_call _ DateNow w2) as [now w3]; simpl.
  destruct (0 <? _); simpl;
    [ destruct (host_call _ (SetTimeout _) w3) as [[] w4]; simpl | ];
    match goal with
    | |- context [host_call _ DateNow ?w] =>
        destruct (host_call _ DateNow w) as [now' w5]; simpl
    end;
    match goal with
    | |- context [page_call _ (PageGoto messengerUrl) ?w] =>
        destruct (page_call _ (PageGoto messengerUrl) w) as [[[] | e1] w6]; simpl
    end;
    try match goal with
    | |- context [page_call _ PageUrl ?w] =>
        destruct (page_call _ PageUrl w) as [[u | e2] w7]; simpl
    end;
    intros H; inversion H; reflexivity.
Qed.

(** C9.  When the lookup of the login-form fields made right after
    the navigation to the messaging surface finds an element,
    [sendMessage] returns the failure [not_logged_in].  Its calls are
    those of [openMessenger] (random numbers, timers, the clock, the
    one navigation, the reading of the address), then that lookup, then
    the calls of the diagnostic screenshot, and nothing else: no
    typing, no search, no further navigation. *)
Theorem sendMessage_not_logged_in :
  forall recipient text (s : controller W) s1 t1 h w2,
    openMessenger s = (Ok tt, s1, t1) ->
    page_call _ (PageQuery loginFieldsSelector) (page s1) = (Ret (Some h), w2) ->
    exists shot s3 t_shot,
      captureScreenshot "not-logged-in" (with_page s1 w2) = (Ok shot, s3, t_shot)
      /\ sendMessage recipient text s
         = (Ok [("success", VBool false);
                ("error", VStr "not_logged_in");
                ("screenshot", shot_ref shot)],
            s3,
            (t1 ++ [PageEv (PageQuery loginFieldsSelector) (Ret (Some h))]
             ++ t_shot)%list)
      /\ forallb is_opening t1 = true
      /\ forallb is_diagnostic t_shot = true.
Proof.
  intros recipient text s s1 t1 h w2 Eopen Hq.
  destruct (captureScreenshot_returns "not-logged-in" (with_page s1 w2))
    as (shot & s3 & t_shot & Eshot).
  exists shot, s3, t_shot. split; [ exact Eshot | ].
  split; [ | split;
             [ exact (openMessenger_trace _ _ _ _ Eopen)
             | exact (captureScreenshot_trace _ _ _ _ _ Eshot) ] ].
  unfold sendMessage. apply try_ok.
  rewrite (bind_ok _ _ _ _ _ _ Eopen).
  unfold afterMessengerOpen.
  assert (Ecall : call (PageQuery loginFieldsSelector) s1
                  = (Ok (Some h), with_page s1 w2,
                     [PageEv (PageQuery loginFieldsSelector) (Ret (Some h))])).
  { unfold call. rewrite Hq. reflexivity. }
  rewrite (bind_ok _ _ _ _ _ _ Ecall).
  rewrite (bind_ok _ _ _ _ _ _ Eshot).
  cbn [ret app]. rewrite app_nil_r. reflexivity.
Qed.

Lemma saveSession_fueled name : fueled (saveSession name).
Proof. unfold saveSession. js_auto. Qed.

Lemma persistSession_fueled : fueled persistSession.
Proof. unfold persistSession. js_auto. apply saveSession_fueled. Qed.

Lemma throttle_fueled : fueled throttle.
Proof. unfold throttle. js_auto. Qed.

Lemma faultBoundary_fueled label f o : fueled (faultBoundary label f o).
Proof. unfold faultBoundary. js_auto. apply captureScreenshot_fueled. Qed.

Lemma faultBoundary_nothrow label f o : nothrow (faultBoundary label f o).
Proof. unfold faultBoundary. js_auto. Qed.

Lemma sendFriendRequest_fueled profileName :
  fueled (sendFriendRequest profileName).
Proof.
  unfold sendFriendRequest, openSearchResults, afterButtonFound, clickAndScan,
    clickAndConfirm.
  js_auto; auto using throttle_fueled, persistSession_fueled, faultBoundary_fueled.
Qed.

Lemma sendFriendRequest_nothrow profileName :
  nothrow (sendFriendRequest profileName).
Proof.
  unfold sendFriendRequest. apply nothrow_try. intros e.
  apply faultBoundary_nothrow.
Qed.

Lemma sendFriendRequest_post profileName :
  post (sendFriendRequest profileName) status_envelope.
Proof.
  unfold sendFriendRequest, afterButtonFound, clickAndConfirm, faultBoundary.
  js_auto; (split; [ reflexivity | ]);
    first [ left; split; reflexivity
          | right; split; [ reflexivity | eexists; reflexivity ] ].
Qed.

(** C3, the diverging path.  [sendFriendRequest] always returns, and
    what it returns never has a [success] property: its envelope is
    [{ status: "success" | "failed", message, error, ... }], while its
    caller ([playwrightServer.js], [/friendRequest]) tests
    [result.success]. *)
Theorem sendFriendRequest_has_no_success_field :
  forall profileName (s : controller W),
  exists r s' t,
    sendFriendRequest profileName s = (Ok r, s', t)
    /\ get r "success" = VUndef
    /\ truthy (get r "success") = false
    /\ (get r "status" = VStr "success" \/ get r "status" = VStr "failed").
Proof.
  intros profileName s.
  destruct (returns (sendFriendRequest profileName) s
              (sendFriendRequest_nothrow profileName)
              (sendFriendRequest_fueled profileName)) as (r & s' & t & E).
  exists r, s', t. split; [ exact E | ].
  destruct (sendFriendRequest_post profileName s r s' t E)
    as [H0 [[H1 _] | [H1 _]]]; rewrite H0; auto.
Qed.

(** The guard and the scan.  Once the lookup of the [Add friend]
    control has completed: if the control is absent, [sendFriendRequest] returns
    the failure [no_add_friend_button], whatever the buttons show; if
    it is present and the step that clicks it and reads the button
    texts completes with a text that contains an already-connected
    indicator (English or Farsi), [sendFriendRequest] returns the
    success outcome [Already friends with this user], and its calls are
    those of the lookup and of that step. *)
Theorem already_friends_short_circuit :
  forall profileName (s : controller W) addFriendBtn s1 t1,
    openSearchResults profileName s = (Ok addFriendBtn, s1, t1) ->
    match addFriendBtn with
    | None =>
        sendFriendRequest profileName s
        = (Ok [("status", VStr "failed");
               ("message", VStr "No 'Add friend' button found");
               ("error", VStr "no_add_friend_button")], s1, t1)
    | Some btn =>
        forall texts s2 t2,
          clickAndScan btn s1 = (Ok texts, s2, t2) ->
          existsb alreadyFriendText texts = true ->
          sendFriendRequest profileName s
          = (Ok [("status", VStr "success");
                 ("message", VStr "Already friends with this user");
                 ("error", VNull);
                 ("profile", VStr profileName)], s2, (t1 ++ t2)%list)
    end.
Proof.
  intros profileName s [btn |] s1 t1 Eopen.
  - intros texts s2 t2 Escan Hfriend.
    unfold sendFriendRequest. apply try_ok.
    rewrite (bind_ok _ _ _ _ _ _ Eopen). unfold afterButtonFound.
    rewrite (bind_ok _ _ _ _ _ _ Escan), Hfriend.
    cbn [ret]. rewrite app_nil_r. reflexivity.
  - unfold sendFriendRequest. apply try_ok.
    rewrite (bind_ok _ _ _ _ _ _ Eopen).
    cbn [ret]. rewrite app_nil_r. reflexivity.
Qed.

Lemma faultBoundary_result label withShot withoutShot (s : controller W) r s' t :
  faultBoundary label withShot withoutShot s = (Ok r, s', t) ->
  (exists shot, r = withShot shot) \/ r = withoutShot.
Proof.
  unfold faultBoundary. intros E. apply try_inv in E.
  destruct E as [E | (e & s1 & t1 & t2 & _ & E & _)].
  - apply bind_inv in E. destruct E as (shot & s1 & t1 & t2 & _ & E & _).
    inversion E. left. exists shot. reflexivity.
  - inversion E. right. reflexivity.
Qed.

(** C2.  The short-circuit comes after the click.  Whenever
    [sendFriendRequest] returns the outcome [Already friends with this
    user], the run has found the [Add friend] control and clicked it,
    and only after that click has it read the texts of the
    [div[role='button']] elements in which it found the
    already-connected indicator: the claim's "no click on the
    add-relationship control" fails on every page that reaches the
    short-circuit. *)
Theorem already_friends_after_click :
  forall profileName (s : controller W) r s' t,
    sendFriendRequest profileName s = (Ok r, s', t) ->
    get r "message" = VStr "Already friends with this user" ->
    exists btn texts ta tb,
      t = (ta ++ PageEv (ElementClick btn 1) (Ret tt) :: tb)%list
      /\ In (PageEv (PageQuery addFriendSelector) (Ret (Some btn))) ta
      /\ In (PageEv RoleButtonTexts (Ret texts)) tb
      /\ existsb alreadyFriendText texts = true
      /\ r = [("status", VStr "success");
              ("message", VStr "Already friends with this user");
              ("error", VNull);
              ("profile", VStr profileName)].
Proof.
  intros profileName s r s' t E Hm.
  unfold sendFriendRequest in E. apply try_inv in E.
  destruct E as [E | (e & s1 & t1 & t2 & _ & E & _)].
  2:{ apply faultBoundary_result in E.
      destruct E as [[shot ->] | ->]; discriminate Hm. }
  apply bind_inv in E. destruct E as (found & s1 & t1 & t2 & Eopen & E & ->).
  destruct found as [btn |]; [ | inversion E; subst; discriminate Hm ].
  unfold afterButtonFound in E. apply bind_inv in E.
  destruct E as (texts & s2 & t3 & t4 & Escan & E & ->).
  destruct (existsb alreadyFriendText texts) eqn:Hfriend.
  2:{ unfold clickAndConfirm, bind, throw in E. discriminate E. }
  inversion E; subst. clear E.
  unfold openSearchResults in Eopen.
  repeat (apply bind_inv in Eopen;
          destruct Eopen as (? & ? & ? & ? & _ & Eopen & ->)).
  apply call_inv in Eopen. destruct Eopen as (-> & _ & _).
  unfold clickAndScan in Escan.
  apply bind_inv in Escan. destruct Escan as ([] & s3 & t5 & t6 & Eclick & Escan & ->).
  apply call_inv in Eclick. destruct Eclick as (-> & _ & _).
  repeat (apply bind_inv in Escan;
          destruct Escan as (? & ? & ? & ? & _ & Escan & ->)).
  apply call_inv in Escan. destruct Escan as (-> & _ & _).
  eexists btn, texts, _, _. split.
  - rewrite app_nil_r. cbn [app]. rewrite app_assoc. reflexivity.
  - split; [ repeat (apply in_or_app; right); left; reflexivity | ].
    split; [ repeat (apply in_or_app; right); left; reflexivity | ].
    split; [ exact Hfriend | reflexivity ].
Qed.

(** C1, what the code does.  When the [Add friend] control is found
    and clicked and the scan of the button texts finds no
    already-connected indicator, [sendFriendRequest] returns a failure
    whose error is the ReferenceError [addFriendButtons is not
    defined]: after the scan it only captures the diagnostic
    screenshot; the confirmation scan and [persistSession] are never
    reached. *)
Theorem friend_request_never_confirmed :
  forall profileName (s : controller W) btn s1 t1 texts s2 t2,
    openSearchResults profileName s = (Ok (Some btn), s1, t1) ->
    clickAndScan btn s1 = (Ok texts, s2, t2) ->
    existsb alreadyFriendText texts = false ->
    exists shot s3 t_shot,
      captureScreenshot "sendFriendRequest-exception" s2 = (Ok shot, s3, t_shot)
      /\ sendFriendRequest profileName s
         = (Ok [("status", VStr "failed");
                ("message", VStr "Exception while sending friend request");
                ("error", VStr "addFriendButtons is not defined");
                ("screenshot", shot_ref shot);
                ("profile", VStr profileName)],
            s3, (t1 ++ t2 ++ t_shot)%list)
      /\ forallb is_diagnostic t_shot = true.
Proof.
  intros profileName s btn s1 t1 texts s2 t2 Eopen Escan Hfriend.
  destruct (captureScreenshot_returns "sendFriendRequest-exception" s2)
    as (shot & s3 & t_shot & Eshot).
  exists shot, s3, t_shot. split; [ exact Eshot | ].
  split; [ | exact (captureScreenshot_trace _ _ _ _ _ Eshot) ].
  unfold sendFriendRequest.
  erewrite try_throw.
  2:{ rewrite (bind_ok _ _ _ _ _ _ Eopen). unfold afterButtonFound.
      rewrite (bind_ok _ _ _ _ _ _ Escan), Hfriend.
      unfold clickAndConfirm. cbn [bind throw]. rewrite !app_nil_r.
      reflexivity. }
  unfold faultBoundary.
  erewrite try_ok.
  2:{ rewrite (bind_ok _ _ _ _ _ _ Eshot). cbn [ret]. rewrite app_nil_r.
      reflexivity. }
  rewrite app_assoc. reflexivity.
Qed.

(** *** The envelope of [login] and [sendMessage] *)

Lemma failure_envelope e rest :
  success_envelope (("success", VBool false) :: ("error", e) :: rest).
Proof. exists false. split; [ reflexivity | discriminate ]. Qed.

Lemma handleOutcome_post maxRetries attempt outcome :
  post (handleOutcome maxRetries attempt outcome)
    (fun t => match t with
              | Return r => success_envelope r
              | Continue _ => True
              end).
Proof.
  unfold handleOutcome.
  js_auto; try exact I; try apply failure_envelope;
    exists true; split; reflexivity.
Qed.

Lemma loginLoop_post turns fuel email password maxRetries attempt :
  post (loginLoop turns fuel email password maxRetries attempt) success_envelope.
Proof.
  revert attempt.
  induction turns as [| turns IH]; intros attempt; cbn [loginLoop];
    destruct (attempt <=? maxRetries);
    try (apply post_ret, failure_envelope); [ apply post_out_of_fuel | ].
  eapply post_bind.
  - unfold loginTurn. apply post_try.
    + apply post_seq; intros outcome. apply handleOutcome_post.
    + intros e. apply post_ret. apply failure_envelope.
  - intros [r | attempt'] H; [ apply post_ret; exact H | apply IH ].
Qed.

(** Every result of [login] is the uniform envelope. *)
Lemma login_envelope fuel email password maxRetries :
  post (login fuel email password maxRetries) success_envelope.
Proof. apply loginLoop_post. Qed.

(** Every result of [sendMessage] is the uniform envelope. *)
Lemma sendMessage_envelope recipient text :
  post (sendMessage recipient text) success_envelope.
Proof.
  unfold sendMessage. apply post_try.
  - apply post_seq; intros _. unfold afterMessengerOpen.
    apply post_seq; intros [h |]; [ js_auto; apply failure_envelope | ].
    apply post_seq; intros _.
    apply post_bind
      with (Q := fun o => forall r, o = Some r -> success_envelope r).
    + unfold globalSearchFallback.
      js_auto; intros r H; inversion H; apply failure_envelope.
    + intros [r |] H; [ apply post_ret; apply H; reflexivity | ].
      unfold typeAndSend.
      js_auto; try apply failure_envelope. exists true. split; reflexivity.
  - intros e. unfold faultBoundary. js_auto; apply failure_envelope.
Qed.

(** *** [sendMessage] is a failure boundary *)

Lemma typeChars_fueled text lo hi : fueled (typeChars text lo hi).
Proof.
  unfold typeChars.
  induction (Js.chars text) as [| ch rest IH]; cbn [typeEach]; js_auto.
Qed.

Lemma humanType_fueled target text : fueled (humanType target text).
Proof.
  unfold humanType, humanTypeWith. js_auto. apply typeChars_fueled.
Qed.

Lemma smallHumanMove_fueled : fueled smallHumanMove.
Proof. unfold smallHumanMove. js_auto. Qed.

Lemma waitSelectors_fueled sels start overall :
  fueled (waitSelectors sels start overall).
Proof. induction sels as [| sel rest IH]; simpl; js_auto. Qed.

Lemma findMessageInputHandle_fueled overall :
  fueled (findMessageInputHandle overall).
Proof.
  unfold findMessageInputHandle. js_auto. apply waitSelectors_fueled.
Qed.

Lemma findSearchHandle_fueled sels : fueled (findSearchHandle sels).
Proof. induction sels as [| sel rest IH]; simpl; js_auto. Qed.

Lemma openFirstRow_fueled rows : fueled (openFirstRow rows).
Proof. induction rows as [| span rest IH]; simpl; js_auto. Qed.

Lemma scanCandidates_fueled candidates : fueled (scanCandidates candidates).
Proof. induction candidates as [| c rest IH]; simpl; js_auto. Qed.

Lemma scanCards_fueled cards : fueled (scanCards cards).
Proof.
  induction cards as [| card rest IH]; simpl; js_auto.
  apply scanCandidates_fueled.
Qed.

Lemma sendMessage_fueled recipient text : fueled (sendMessage recipient text).
Proof.
  unfold sendMessage, openMessenger, afterMessengerOpen, searchInMessenger,
    globalSearchFallback, typeAndSend.
  js_auto;
    auto using throttle_fueled, captureScreenshot_fueled, humanType_fueled,
      smallHumanMove_fueled, findMessageInputHandle_fueled,
      findSearchHandle_fueled, openFirstRow_fueled, scanCards_fueled,
      persistSession_fueled, faultBoundary_fueled.
Qed.

Lemma sendMessage_nothrow recipient text : nothrow (sendMessage recipient text).
Proof.
  unfold sendMessage. apply nothrow_try. intros e. apply faultBoundary_nothrow.
Qed.

(** [sendMessage] always returns, and what it returns is the uniform
    envelope. *)
Theorem sendMessage_returns recipient text :
  forall s : controller W,
  exists r s' t,
    sendMessage recipient text s = (Ok r, s', t) /\ success_envelope r.
Proof.
  intros s.
  destruct (returns (sendMessage recipient text) s
              (sendMessage_nothrow recipient text)
              (sendMessage_fueled recipient text)) as (r & s' & t & E).
  exists r, s', t. split; [ exact E | ].
  exact (sendMessage_envelope recipient text s r s' t E).
Qed.

End Workflows.

(** ** Enough fuel

    The fuel of [pollLoop] stands for the passing of time.  On a
    browser whose clock never runs backwards and whose timers last at
    least as long as asked, [timeoutMs / 700] ticks (rounded up) are
    enough, and
    [login] always returns a result. *)

Ltac mono_step :=
  match goal with
  | |- advances _ (bind _ _) => apply advances_bind; [ | intros ? ]
  | |- advances _ (try_catch _ _) => apply advances_try; [ | intros ? ]
  | |- advances _ (swallow _) => apply advances_try; [ | intros ? ]
  | |- advances _ (ret _) => apply advances_ret
  | |- advances _ (throw _) => apply advances_throw
  | |- advances _ (host _) => apply advances_host; assumption
  | |- advances _ (wait _) => apply advances_host; assumption
  | |- advances _ (call _) => apply advances_call; assumption
  | |- advances _ (match ?x with _ => _ end) => destruct x
  | |- advances _ (if ?b then _ else _) => destruct b
  end.

Section Clock.

Context {W : Type} {B : Browser W}.

Variable clock : W -> Z.

Hypothesis clock_now : forall w, fst (host_call _ DateNow w) = clock w.
Hypothesis clock_host :
  forall A (c : Host A) w, clock w <= clock (snd (host_call A c w)).
Hypothesis clock_page :
  forall A (c : Page A) w, clock w <= clock (snd (page_call A c w)).
Hypothesis clock_timer :
  forall ms w, clock w + Qfloor ms <= clock (snd (host_call _ (SetTimeout ms) w)).

Lemma captureScreenshot_advances label :
  advances clock (captureScreenshot label).
Proof. unfold captureScreenshot. repeat mono_step. Qed.

Lemma scanFrames_advances frames : advances clock (scanFrames frames).
Proof.
  induction frames as [| f rest IH]; simpl; repeat mono_step;
    auto using captureScreenshot_advances.
Qed.

Lemma scanSelectors_advances sels : advances clock (scanSelectors sels).
Proof.
  induction sels as [| sel rest IH]; simpl; repeat mono_step;
    auto using captureScreenshot_advances.
Qed.

Lemma scanBody_advances patterns body :
  advances clock (scanBody patterns body).
Proof.
  induction patterns as [| p rest IH]; simpl; repeat mono_step;
    auto using captureScreenshot_advances.
Qed.

Lemma detectCaptcha_advances : advances clock detectCaptcha.
Proof.
  unfold detectCaptcha. repeat mono_step;
    auto using captureScreenshot_advances, scanFrames_advances,
      scanSelectors_advances, scanBody_advances.
Qed.

Lemma pollOnce_advances : advances clock pollOnce.
Proof.
  unfold pollOnce. repeat mono_step; auto using detectCaptcha_advances.
Qed.

Lemma pollOnce_fueled : fueled pollOnce.
Proof. unfold pollOnce. js_auto. apply detectCaptcha_fueled. Qed.

(** The polling loop does not run out of fuel when the fuel covers the
    time left until the deadline. *)
Lemma pollLoop_fueled fuel start timeoutMs :
  forall s : controller W,
    start + timeoutMs - clock (page s) <= 700 * Z.of_nat fuel ->
    forall s' t, pollLoop fuel start timeoutMs s <> (OutOfFuel, s', t).
Proof.
  induction fuel as [| fuel IH]; intros s Hfuel s' t;
    cbn [pollLoop]; unfold bind at 1; rewrite host_run;
    rewrite clock_now; cbv beta iota;
    pose proof (clock_host _ DateNow (page s)) as Hnow;
    destruct (clock (page s) - start <? timeoutMs) eqn:Hlt;
    try (cbn [ret]; discriminate);
    apply Z.ltb_lt in Hlt.
  - simpl in Hfuel. lia.
  - set (s0 := with_page s (snd (host_call _ DateNow (page s)))) in *.
    unfold bind at 1.
    destruct (pollOnce s0) as [[[[r |] | e |] s1] t1] eqn:Epoll;
      try (cbn [ret]; discriminate).
    + pose proof (pollOnce_advances s0 _ _ _ Epoll) as Hpoll.
      unfold bind at 1. rewrite timer_run. cbv beta iota.
      set (s2 := with_page s1 _).
      assert (Hs2 : start + timeoutMs - clock (page s2) <= 700 * Z.of_nat fuel).
      { pose proof (clock_timer 700 (page s1)) as Ht.
        change (Qfloor 700) with 700 in Ht.
        subst s2 s0. cbn [page with_page] in *. lia. }
      destruct (pollLoop fuel start timeoutMs s2) as [[r2 s3] t3] eqn:Eloop.
      intros H. inversion H; subst.
      exact (IH s2 Hs2 _ _ Eloop).
    + exfalso. exact (pollOnce_fueled s0 s1 t1 Epoll).
Qed.

Lemma waitForLoginOutcome_fueled fuel timeoutMs :
  timeoutMs <= 700 * Z.of_nat fuel ->
  fueled (waitForLoginOutcome fuel timeoutMs).
Proof.
  intros Hfuel s s' t. unfold waitForLoginOutcome, bind.
  rewrite host_run, clock_now. cbv beta iota.
  destruct (pollLoop fuel (clock (page s)) timeoutMs _) as [[r s1] t1] eqn:E.
  intros H. inversion H; subst. revert E. apply pollLoop_fueled.
  pose proof (clock_host _ DateNow (page s)). cbn [page with_page]. lia.
Qed.

Lemma doLoginOnce_fueled fuel email password :
  20000 <= 700 * Z.of_nat fuel ->
  fueled (doLoginOnce fuel email password).
Proof.
  intros Hfuel.
  unfold doLoginOnce, openLoginPage, ensureFields, submitCredentials.
  js_auto;
    auto using humanType_fueled, smallHumanMove_fueled,
      waitForLoginOutcome_fueled.
Qed.

Lemma handleOutcome_fueled maxRetries attempt outcome :
  fueled (handleOutcome maxRetries attempt outcome).
Proof.
  unfold handleOutcome.
  js_auto; auto using captureScreenshot_fueled, persistSession_fueled.
Qed.

Lemma loginTurn_nothrow fuel email password maxRetries attempt :
  nothrow (loginTurn fuel email password maxRetries attempt).
Proof. unfold loginTurn. js_auto. Qed.

Lemma loginLoop_nothrow turns fuel email password maxRetries :
  forall attempt,
    nothrow (loginLoop turns fuel email password maxRetries attempt).
Proof.
  induction turns as [| turns IH]; intros attempt; cbn [loginLoop];
    destruct (attempt <=? maxRetries); try apply nothrow_ret.
  - intros s e s' t H. inversion H.
  - apply nothrow_bind; [ apply loginTurn_nothrow | ].
    intros [r | attempt']; [ apply nothrow_ret | apply IH ].
Qed.

Lemma loginLoop_fueled fuel email password maxRetries :
  20000 <= 700 * Z.of_nat fuel ->
  forall turns attempt (s : controller W) s' t,
    maxRetries - attempt < Z.of_nat turns ->
    loginLoop turns fuel email password maxRetries attempt s
    <> (OutOfFuel, s', t).
Proof.
  intros Hfuel.
  induction turns as [| turns IH]; intros attempt s s' t Hturns;
    cbn [loginLoop]; destruct (attempt <=? maxRetries) eqn:Hle;
    try (cbn [ret]; discriminate).
  - apply Z.leb_le in Hle. simpl in Hturns. lia.
  - unfold bind.
    destruct (loginTurn fuel email password maxRetries attempt s)
      as [[[[r | attempt'] | e |] s1] t1] eqn:E;
      try (cbn [ret]; discriminate).
    + assert (Hnext : attempt' = attempt + 1).
      { revert E. unfold loginTurn, try_catch, bind.
        destruct (doLoginOnce fuel email password s)
          as [[[outcome | e |] s0] t0]; cbn [ret]; try discriminate.
        destruct (handleOutcome maxRetries attempt outcome s0)
          as [[[next | e |] s2] t2] eqn:Eh; cbn [ret]; try discriminate.
        intros H0. inversion H0; subst.
        exact (proj1 (handleOutcome_continue maxRetries attempt outcome s0
                        _ _ _ Eh)). }
      subst attempt'.
      destruct (loginLoop turns fuel email password maxRetries (attempt + 1) s1)
        as [[r2 s2] t2] eqn:Eloop.
      intros H. inversion H; subst.
      refine (IH (attempt + 1) s1 _ _ _ Eloop). lia.
    + exfalso. revert E. unfold loginTurn.
      apply fueled_try; [ | intros err; apply fueled_ret ].
      apply fueled_bind; [ apply doLoginOnce_fueled; exact Hfuel | ].
      intros outcome. apply handleOutcome_fueled.
Qed.

(** [login] is a failure boundary: with enough fuel for the polling
    budget of 20 s it always returns, and what it returns is the
    uniform envelope. *)
Theorem login_returns fuel email password maxRetries :
  20000 <= 700 * Z.of_nat fuel ->
  forall s : controller W,
  exists r s' t,
    login fuel email password maxRetries s = (Ok r, s', t)
    /\ success_envelope r.
Proof.
  intros Hfuel s.
  destruct (login fuel email password maxRetries s) as [[[r | e |] s'] t] eqn:E.
  - exists r, s', t. split; [ reflexivity | ].
    exact (login_envelope fuel email password maxRetries s r s' t E).
  - exfalso. exact (loginLoop_nothrow _ _ _ _ _ _ _ _ _ _ E).
  - exfalso. revert E. apply loginLoop_fueled; [ exact Hfuel | ].
    lia.
Qed.

End Clock.

(** The scripted browser is such a browser: on every site [login]
    returns when the fuel covers the 20 s of polling. *)
Lemma login_returns_on_every_site (st : site) email password maxRetries :
  forall s : controller Z,
  exists r s' t,
    @login Z (siteBrowser st) 29 email password maxRetries s = (Ok r, s', t)
    /\ success_envelope r.
Proof.
  apply (login_returns (B := siteBrowser st) (fun clock => clock)).
  - intros w. reflexivity.
  - intros A c w. destruct c; simpl; lia.
  - intros A c w. destruct c; simpl;
      repeat match goal with
             | |- context [match ?x with _ => _ end] => destruct x
             | |- context [if ?b then _ else _] => destruct b
             end; simpl; lia.
  - intros ms w. simpl.
    assert (Qfloor ms <= Qceiling ms).
    { rewrite Zle_Qle. eapply Qle_trans; [ apply Qfloor_le | apply Qle_ceiling ]. }
    lia.
  - simpl. lia.
Qed.

(** ** Concrete runs *)

(** C5 on the home page: nothing is detected, and the result has no
    method. *)
Lemma not_detected_has_no_method_witness :
  fst (fst (@detectCaptcha Z (siteBrowser blankSite) freshController))
  = Ok not_detected
  /\ method_of not_detected = Some MNone
  /\ nullish (get not_detected "match") = true.
Proof.
  set (run := @detectCaptcha Z (siteBrowser blankSite) freshController).
  assert (E : run = (Ok not_detected, snd (fst run), snd run))
    by (vm_compute; reflexivity).
  split; [ rewrite E; reflexivity | ].
  exact (proj2 (not_detected_has_no_method (B := siteBrowser blankSite)
                  freshController not_detected _ _ E eq_refl)).
Defined.

(** C4 as stated fails when a frame with a challenge phrase comes
    before the challenge widget: the address of the page is no
    checkpoint, a frame address matches a widget pattern, and the
    method is [frame_text]. *)
Lemma frame_text_before_frame_url :
  url_is_checkpoint (site_url phraseFirstSite) = false
  /\ existsb (fun fr => frame_url_matches (fst fr)) (site_frames phraseFirstSite)
     = true
  /\ fst (fst (@detectCaptcha Z (siteBrowser phraseFirstSite) freshController))
     = Ok [("detected", VBool true);
           ("method", VStr "frame_text");
           ("match", VStr "https://example.org/help");
           ("screenshot",
            VStr "/screenshots/2025-01-01/captcha-by-frame-text-1700000000000.png");
           ("snippet", VStr "security check")]
  /\ fst (fst (@detectCaptcha Z (siteBrowser phraseFirstSite) freshController))
     <> Ok (detection "frame_url" "https://www.google.com/recaptcha/api2/anchor"
              [("success", VBool true);
               ("path",
                VStr "/app/screenshots/2025-01-01/captcha-by-frame-url-1700000000000.png");
               ("urlPath",
                VStr "/screenshots/2025-01-01/captcha-by-frame-url-1700000000000.png")]
              VNull).
Proof.
  split; [ vm_compute; reflexivity | ]. split; [ vm_compute; reflexivity | ].
  split; [ vm_compute; reflexivity | vm_compute; discriminate ].
Qed.

(** C4 as amended, on a page whose widget frame comes after a quiet
    frame and before a frame with a challenge phrase. *)
Lemma frame_url_tier_witness :
  exists shot s' t,
    @detectCaptcha Z (siteBrowser widgetSite) freshController
    = (Ok (detection "frame_url" "https://www.google.com/recaptcha/api2/anchor"
             shot VNull), s', t).
Proof.
  apply (frame_url_tier (B := siteBrowser widgetSite)
           [0%nat] [2%nat] 1%nat "https://www.google.com/recaptcha/api2/anchor").
  - intros w. reflexivity.
  - vm_compute. reflexivity.
  - intros g [<- | []]. split; intros w.
    + exists "https://example.org/banner". split; [ reflexivity | ].
      vm_compute. reflexivity.
    + vm_compute. reflexivity.
  - intros w. vm_compute. reflexivity.
  - intros w. reflexivity.
Defined.

(** C8 on a login form that answers with the wrong-password notice:
    [login], with two retries left, returns after the first attempt,
    in the state and with the calls of that attempt. *)
Lemma invalid_credentials_is_terminal_witness :
  let attempt :=
    @doLoginOnce Z (siteBrowser wrongPasswordSite) 40 "a@b.c" "pw"
      freshController in
  fst (fst attempt)
  = Ok [("outcome", VStr "invalid_credentials");
        ("snippet", VStr "the password you entered is incorrect.")]
  /\ @login Z (siteBrowser wrongPasswordSite) 40 "a@b.c" "pw" 2 freshController
     = (Ok [("success", VBool false);
            ("error", VStr "invalid_credentials");
            ("detail", VStr "the password you entered is incorrect.")],
        snd (fst attempt), snd attempt).
Proof.
  intros attempt.
  assert (E : attempt
              = (Ok [("outcome", VStr "invalid_credentials");
                     ("snippet", VStr "the password you entered is incorrect.")],
                 snd (fst attempt), snd attempt))
    by (vm_compute; reflexivity).
  split; [ rewrite E; reflexivity | ].
  destruct (invalid_credentials_is_terminal (B := siteBrowser wrongPasswordSite)
              2%nat 40%nat "a@b.c" "pw" 2 0 freshController _ _ _
              ltac:(discriminate) E eq_refl)
    as (snippet & Hs & Hlogin).
  injection Hs as <-. exact Hlogin.
Defined.


(** The whole run on that site: three attempts, then the failure
    [captcha_detected] with the detail of the last detection. *)
Example login_exhausts_retries_on_captcha :
  let run :=
    @login Z (siteBrowser checkpointSite) 40 "a@b.c" "pw" 2 freshController in
  (exists shot detail,
     fst (fst run) = Ok [("success", VBool false);
                         ("error", VStr "captcha_detected");
                         ("screenshot", shot);
                         ("detail", VObj detail)]
     /\ get detail "method" = VStr "url")
  /\ List.length
       (filter (fun e => match e with
                         | PageEv (PageGoto _) _ => true
                         | _ => false
                         end) (snd run)) = 3%nat.
Proof.
  intros run. split.
  - exists (VStr "/screenshots/2025-01-01/login-captcha-2-1700000010205.png").
    eexists. split; [ vm_compute; reflexivity | reflexivity ].
  - vm_compute. reflexivity.
Qed.

(** C10 on a page without [#email]: [humanType] throws, and [login]
    turns the exception into its failure result. *)
Lemma humanType_missing_element_witness :
  (exists s' t,
     @humanType Z (siteBrowser blankSite) (BySelector "#email") "a@b.c"
       freshController
     = (Throw "humanType: handle not found", s', t))
  /\ (exists s' t,
        @login Z (siteBrowser blankSite) 40 "a@b.c" "pw" 2 freshController
        = (Ok [("success", VBool false);
               ("error", VStr "humanType: handle not found")], s', t)).
Proof.
  pose proof (humanType_missing_element (B := siteBrowser blankSite)
                freshController "#email" "a@b.c" _ eq_refl) as [H1 [_ H3]].
  split.
  - eexists _, _. exact H1.
  - set (opened := @openLoginPage Z (siteBrowser blankSite) freshController).
    assert (Eopen : opened = (Ok None, freshController, snd opened))
      by (vm_compute; reflexivity).
    set (ensured := @ensureFields Z (siteBrowser blankSite) freshController).
    assert (Efields : ensured = (Ok tt, freshController, snd ensured))
      by (vm_compute; reflexivity).
    eexists _, _.
    exact (H3 2%nat 40%nat "pw" 2 0 freshController _ _ _ eq_refl
             ltac:(discriminate) Eopen Efields).
Defined.

(** C9 on the login form shown instead of the messaging surface: one
    navigation, no key typed. *)
Lemma sendMessage_not_logged_in_witness :
  let run :=
    @sendMessage Z (siteBrowser expiredSessionSite) "Jane Doe" "hello"
      freshController in
  fst (fst run)
  = Ok [("success", VBool false);
        ("error", VStr "not_logged_in");
        ("screenshot",
         VStr "/screenshots/2025-01-01/not-logged-in-1700000002000.png")]
  /\ existsb (fun e => match e with
                       | PageEv (KeyboardType _) _ => true
                       | PageEv (KeyboardPress _) _ => true
                       | _ => false
                       end) (snd run) = false
  /\ List.length
       (filter (fun e => match e with
                         | PageEv (PageGoto _) _ => true
                         | _ => false
                         end) (snd run)) = 1%nat.
Proof.
  intros run.
  set (opened := @openMessenger Z (siteBrowser expiredSessionSite) freshController).
  assert (Eopen : opened = (Ok tt, snd (fst opened), snd opened))
    by (vm_compute; reflexivity).
  assert (Hq : @page_call Z (siteBrowser expiredSessionSite) _
                 (PageQuery loginFieldsSelector) (page (snd (fst opened)))
               = (Ret (Some 5%nat), page (snd (fst opened))))
    by (vm_compute; reflexivity).
  destruct (sendMessage_not_logged_in (B := siteBrowser expiredSessionSite)
              "Jane Doe" "hello" freshController _ _ 5%nat _ Eopen Hq)
    as (shot & s3 & t_shot & Eshot & E & _).
  unfold run. rewrite E. cbn [fst snd].
  assert (Es : (Ok shot, s3, t_shot)
               = (let c := @captureScreenshot Z (siteBrowser expiredSessionSite)
                             "not-logged-in"
                             (with_page (snd (fst opened)) (page (snd (fst opened))))
                  in (fst (fst c), snd (fst c), snd c))).
  { rewrite <- Eshot. reflexivity. }
  injection Es as -> _ ->.
  split; [ vm_compute; reflexivity | ].
  split; vm_compute; reflexivity.
Defined.

(** The guard comes before the scan.  On the results for somebody who
    is a friend already the button texts contain an already-connected
    indicator, there is no [Add friend] button, and the outcome is the
    failure [no_add_friend_button]. *)
Lemma already_friend_without_button_fails :
  existsb alreadyFriendText (site_buttons friendSite) = true
  /\ fst (fst (@sendFriendRequest Z (siteBrowser friendSite) "Jane Doe"
                 freshController))
     = Ok [("status", VStr "failed");
           ("message", VStr "No 'Add friend' button found");
           ("error", VStr "no_add_friend_button")].
Proof. split; vm_compute; reflexivity. Qed.

(** The guard and the scan on results that show both buttons. *)
Lemma already_friends_short_circuit_witness :
  exists s' t,
    @sendFriendRequest Z (siteBrowser mixedResultsSite) "Jane Doe"
      freshController
    = (Ok [("status", VStr "success");
           ("message", VStr "Already friends with this user");
           ("error", VNull);
           ("profile", VStr "Jane Doe")], s', t).
Proof.
  set (opened := @openSearchResults Z (siteBrowser mixedResultsSite) "Jane Doe"
                   freshController).
  assert (Eopen : opened = (Ok (Some 7%nat), snd (fst opened), snd opened))
    by (vm_compute; reflexivity).
  set (scanned := @clickAndScan Z (siteBrowser mixedResultsSite) 7%nat
                    (snd (fst opened))).
  assert (Escan : scanned
                  = (Ok [Some "Add friend"; Some "Friends"],
                     snd (fst scanned), snd scanned))
    by (vm_compute; reflexivity).
  eexists _, _.
  exact (already_friends_short_circuit (B := siteBrowser mixedResultsSite)
           "Jane Doe" freshController (Some 7%nat) _ _ Eopen _ _ _ Escan eq_refl).
Defined.

(** C2 on results that show an [Add friend] button and a [Friends]
    button: the outcome is [Already friends with this user], and the
    control has been clicked before the texts were read. *)
Lemma already_friends_after_click_witness :
  exists r s' btn texts ta tb,
    @sendFriendRequest Z (siteBrowser mixedResultsSite) "Jane Doe"
      freshController
    = (Ok r, s', (ta ++ PageEv (ElementClick btn 1) (Ret tt) :: tb)%list)
    /\ get r "message" = VStr "Already friends with this user"
    /\ In (PageEv (PageQuery addFriendSelector) (Ret (Some btn))) ta
    /\ In (PageEv RoleButtonTexts (Ret texts)) tb
    /\ existsb alreadyFriendText texts = true
    /\ r = [("status", VStr "success");
            ("message", VStr "Already friends with this user");
            ("error", VNull);
            ("profile", VStr "Jane Doe")].
Proof.
  set (run := @sendFriendRequest Z (siteBrowser mixedResultsSite) "Jane Doe"
                freshController).
  assert (E : run
              = (Ok [("status", VStr "success");
                     ("message", VStr "Already friends with this user");
                     ("error", VNull);
                     ("profile", VStr "Jane Doe")],
                 snd (fst run), snd run))
    by (vm_compute; reflexivity).
  destruct (already_friends_after_click (B := siteBrowser mixedResultsSite)
              "Jane Doe" freshController _ _ _ E eq_refl)
    as (btn & texts & ta & tb & Et & Hq & Hs & Hf & Hr).
  exists [("status", VStr "success");
          ("message", VStr "Already friends with this user");
          ("error", VNull);
          ("profile", VStr "Jane Doe")],
         (snd (fst run)), btn, texts, ta, tb.
  split; [ rewrite <- Et; exact E | ].
  split; [ reflexivity | ].
  split; [ exact Hq | ].
  split; [ exact Hs | ].
  split; [ exact Hf | reflexivity ].
Defined.

(** On those results the control has been clicked before the scan. *)
Example already_friends_found_after_click :
  existsb is_click
    (snd (@sendFriendRequest Z (siteBrowser mixedResultsSite) "Jane Doe"
            freshController)) = true.
Proof. vm_compute. reflexivity. Qed.

(** C1 on results with an [Add friend] button and no indicator: the
    control is clicked, the outcome is a failure, and no session file
    is written. *)
Lemma friend_request_never_confirmed_witness :
  let run :=
    @sendFriendRequest Z (siteBrowser strangerSite) "Jane Doe" freshController in
  existsb alreadyFriendText (site_buttons strangerSite) = false
  /\ (exists shot,
        fst (fst run)
        = Ok [("status", VStr "failed");
              ("message", VStr "Exception while sending friend request");
              ("error", VStr "addFriendButtons is not defined");
              ("screenshot", shot);
              ("profile", VStr "Jane Doe")])
  /\ existsb is_click (snd run) = true
  /\ existsb (fun e => match e with
                       | PageEv (FsWriteFile _ _) _ => true
                       | _ => false
                       end) (snd run) = false.
Proof.
  intros run.
  split; [ vm_compute; reflexivity | ].
  split; [ | split; vm_compute; reflexivity ].
  set (opened := @openSearchResults Z (siteBrowser strangerSite) "Jane Doe"
                   freshController).
  assert (Eopen : opened = (Ok (Some 7%nat), snd (fst opened), snd opened))
    by (vm_compute; reflexivity).
  set (scanned := @clickAndScan Z (siteBrowser strangerSite) 7%nat
                    (snd (fst opened))).
  assert (Escan : scanned
                  = (Ok [Some "Add friend"; Some "Message"],
                     snd (fst scanned), snd scanned))
    by (vm_compute; reflexivity).
  destruct (friend_request_never_confirmed (B := siteBrowser strangerSite)
              "Jane Doe" freshController 7%nat _ _ _ _ _ Eopen Escan eq_refl)
    as (shot & s3 & t_shot & _ & E & _).
  exists (shot_ref shot). unfold run. rewrite E. reflexivity.
Defined.

(** * Further properties of the code *)

From Stdlib Require Import Lqa.

(** ** More reasoning about computations *)

Section MoreRules.

Context {W : Type} {B : Browser W}.

Lemma emits_ret P {A} (a : A) : emits P (@ret W A a).
Proof. intros s r s' t H. inversion H. reflexivity. Qed.

Lemma emits_throw P {A} e : emits P (@throw W A e).
Proof. intros s r s' t H. inversion H. reflexivity. Qed.

Lemma emits_out_of_fuel P {A} : emits P (@out_of_fuel W A).
Proof. intros s r s' t H. inversion H. reflexivity. Qed.

Lemma emits_this P {A} (f : controller W -> A) : emits P (this f).
Proof. intros s r s' t H. inversion H. reflexivity. Qed.

Lemma emits_set P z : emits P (@set_lastActionAt W z).
Proof. intros s r s' t H. inversion H. reflexivity. Qed.

Lemma emits_host P {A} (c : Host A) :
  (forall a, P (HostEv c a) = true) -> emits P (host c).
Proof.
  intros Hc s r s' t. rewrite host_run. intros H. inversion H.
  simpl. rewrite Hc. reflexivity.
Qed.

Lemma emits_call P {A} (c : Page A) :
  (forall r, P (PageEv c r) = true) -> emits P (call c).
Proof.
  intros Hc s r s' t. unfold call.
  destruct (page_call A c (page s)) as [x w]. intros H. inversion H.
  simpl. rewrite Hc. reflexivity.
Qed.

Lemma emits_bind P {A C} (m : M W A) (k : A -> M W C) :
  emits P m -> (forall a, emits P (k a)) -> emits P (bind m k).
Proof.
  intros Hm Hk s r s' t. unfold bind.
  destruct (m s) as [[[a | e |] s1] t1] eqn:E.
  - destruct (k a s1) as [[r2 s2] t2] eqn:E2. intros H. inversion H; subst.
    rewrite forallb_app, (Hm _ _ _ _ E), (Hk _ _ _ _ _ E2). reflexivity.
  - intros H. inversion H; subst. exact (Hm _ _ _ _ E).
  - intros H. inversion H; subst. exact (Hm _ _ _ _ E).
Qed.

Lemma emits_try P {A} (m : M W A) h :
  emits P m -> (forall e, emits P (h e)) -> emits P (try_catch m h).
Proof.
  intros Hm Hh s r s' t. unfold try_catch.
  destruct (m s) as [[[a | e |] s1] t1] eqn:E.
  - intros H. inversion H; subst. exact (Hm _ _ _ _ E).
  - destruct (h e s1) as [[r2 s2] t2] eqn:E2. intros H. inversion H; subst.
    rewrite forallb_app, (Hm _ _ _ _ E), (Hh _ _ _ _ _ E2). reflexivity.
  - intros H. inversion H; subst. exact (Hm _ _ _ _ E).
Qed.

Lemma emits_weaken (P Q : event -> bool) {A} (m : M W A) :
  (forall e, P e = true -> Q e = true) -> emits P m -> emits Q m.
Proof.
  intros HPQ Hm s r s' t E. pose proof (Hm s r s' t E) as H.
  rewrite forallb_forall in *. auto.
Qed.

Lemma nothrow_call_caught {A} (c : Page A) (a : A) :
  nothrow (try_catch (call c) (fun _ => @ret W A a)).
Proof. apply nothrow_try. intros e. apply nothrow_ret. Qed.

End MoreRules.

(** Syntax-directed proof of [emits] goals. *)
Ltac emit_step :=
  match goal with
  | |- emits _ (searchUrl _) => unfold searchUrl
  | |- emits _ (bind _ _) => apply emits_bind; [ | intros ? ]
  | |- emits _ (try_catch _ _) => apply emits_try; [ | intros ? ]
  | |- emits _ (swallow _) => apply emits_try; [ | intros ? ]
  | |- emits _ (ret _) => apply emits_ret
  | |- emits _ (throw _) => apply emits_throw
  | |- emits _ out_of_fuel => apply emits_out_of_fuel
  | |- emits _ (this _) => apply emits_this
  | |- emits _ (set_lastActionAt _) => apply emits_set
  | |- emits _ (host _) => apply emits_host; intros ?; reflexivity
  | |- emits _ (wait _) => apply emits_host; intros ?; reflexivity
  | |- emits _ (call _) => apply emits_call; intros ?; reflexivity
  | |- emits _ (match ?x with _ => _ end) => destruct x
  | |- emits _ (if ?b then _ else _) => destruct b
  end.

Ltac emit_auto := repeat emit_step.

(** The result and the trace of a run that has been computed. *)
Ltac run_done H :=
  let Hr := fresh in
  let Ht := fresh in
  pose proof (f_equal (fun x => fst (fst x)) H) as Hr;
  pose proof (f_equal snd H) as Ht;
  cbn [fst snd] in Hr, Ht; clear H; subst.

(** ** Strings and traces *)

Lemma string_app_assoc (a b c : string) : (a ++ b) ++ c = a ++ (b ++ c).
Proof. induction a as [| x a IH]; simpl; [ | rewrite IH ]; reflexivity. Qed.

Lemma prefix_empty (s : string) : String.prefix EmptyString s = true.
Proof. destruct s; reflexivity. Qed.

Lemma prefix_cons ch (a b : string) :
  String.prefix (String ch a) (String ch b) = String.prefix a b.
Proof.
  simpl. destruct (ascii_dec ch ch) as [_ | N]; [ reflexivity | ].
  exfalso. apply N. reflexivity.
Qed.

Lemma string_app_nil_r (s : string) : s ++ EmptyString = s.
Proof. induction s as [| x s IH]; simpl; [ | rewrite IH ]; reflexivity. Qed.

Lemma concat_cons (c : string) (r : list string) :
  String.concat EmptyString (c :: r) = c ++ String.concat EmptyString r.
Proof.
  destruct r; cbn [String.concat]; [ rewrite string_app_nil_r | ]; reflexivity.
Qed.

Lemma prefix_app (c a b : string) :
  String.prefix (c ++ a) (c ++ b) = String.prefix a b.
Proof.
  induction c as [| x c IH]; [ reflexivity | ].
  cbn [append]. rewrite prefix_cons. exact IH.
Qed.

(** *** Code points *)

Lemma chars_from_tail tl :
  forall k next,
    all_cont tl = true ->
    (String.length tl <= k)%nat ->
    (String.length tl = k \/ starts_cont next = false) ->
    Js.chars_from k (tl ++ next) = (tl, Js.chars next).
Proof.
  induction tl as [| a tl IH]; intros k next Hc Hle Hend.
  - cbn [append]. destruct next as [| c r]; [ destruct k; reflexivity | ].
    unfold Js.chars. cbn [Js.chars_from].
    assert (Hcond : match k with O => false | S _ => Js.is_cont c end = false).
    { destruct k; [ reflexivity | ].
      destruct Hend as [H | H]; [ discriminate H | exact H ]. }
    rewrite Hcond.
    destruct (Js.chars_from (Nat.pred (Js.width c)) r). reflexivity.
  - cbn [all_cont] in Hc. apply andb_true_iff in Hc. destruct Hc as [Ha Htl].
    destruct k as [| k]; [ cbn [String.length] in Hle; lia | ].
    cbn [append Js.chars_from Nat.pred]. rewrite Ha.
    rewrite (IH k next Htl).
    + reflexivity.
    + cbn [String.length] in Hle. lia.
    + destruct Hend as [H | H]; [ left; cbn [String.length] in H; lia | right; exact H ].
Qed.

Lemma chars_chunk c next :
  chunk_ok c next -> Js.chars (c ++ next) = c :: Js.chars next.
Proof.
  intros (a & tl & -> & Hc & Hle & Hend).
  unfold Js.chars at 1. cbn [append Js.chars_from].
  rewrite (chars_from_tail tl _ next Hc Hle Hend). reflexivity.
Qed.

(** A list of chunks is the list of the code points of its text. *)
Lemma chunked_concat cs :
  chunked cs -> Js.chars (String.concat EmptyString cs) = cs.
Proof.
  induction cs as [| c r IH]; [ reflexivity | ].
  intros [Hc Hr]. rewrite concat_cons, (chars_chunk _ _ Hc), (IH Hr). reflexivity.
Qed.

Lemma chars_from_spec s :
  forall k cur rest,
    Js.chars_from k s = (cur, rest) ->
    all_cont cur = true
    /\ (String.length cur <= k)%nat
    /\ (String.length cur = k
        \/ starts_cont (String.concat EmptyString rest) = false)
    /\ chunked rest
    /\ s = cur ++ String.concat EmptyString rest.
Proof.
  induction s as [| c r IH]; intros k cur rest E; cbn [Js.chars_from] in E.
  - inversion E; subst. cbn. repeat split; try lia; try (right; reflexivity).
  - destruct (match k with O => false | S _ => Js.is_cont c end) eqn:Hcond.
    + destruct k as [| k]; [ discriminate | ]. cbn [Nat.pred] in E.
      destruct (Js.chars_from k r) as [cur' rest'] eqn:E'.
      inversion E; subst.
      destruct (IH k _ _ E') as (H1 & H2 & H3 & H4 & H5).
      split; [ cbn [all_cont]; rewrite Hcond, H1; reflexivity | ].
      split; [ cbn [String.length]; lia | ].
      split; [ destruct H3 as [H3 | H3];
               [ left; cbn [String.length]; lia | right; exact H3 ] | ].
      split; [ exact H4 | ].
      cbn [append]. f_equal. exact H5.
    + destruct (Js.chars_from (Nat.pred (Js.width c)) r) as [cur' rest'] eqn:E'.
      inversion E; subst.
      destruct (IH _ _ _ E') as (H1 & H2 & H3 & H4 & H5).
      split; [ reflexivity | ].
      split; [ cbn [String.length]; lia | ].
      split.
      { destruct k as [| k]; [ left; reflexivity | right ].
        rewrite concat_cons. cbn [append starts_cont]. exact Hcond. }
      split.
      { split; [ | exact H4 ]. exists c, cur'. auto. }
      rewrite concat_cons. cbn [append]. f_equal. exact H5.
Qed.

Lemma chars_chunked s : chunked (Js.chars s).
Proof.
  unfold Js.chars. destruct (Js.chars_from 0 s) as [cur rest] eqn:E.
  apply chars_from_spec in E. cbn [snd]. tauto.
Qed.

(** The code points of a string make up the string. *)
Lemma chars_concat s : String.concat EmptyString (Js.chars s) = s.
Proof.
  unfold Js.chars. destruct (Js.chars_from 0 s) as [cur rest] eqn:E.
  apply chars_from_spec in E. destruct E as (_ & Hle & _ & _ & ->).
  destruct cur; [ reflexivity | cbn [String.length] in Hle; lia ].
Qed.

Lemma is_cont_cont_byte n : Js.is_cont (Js.cont_byte n) = true.
Proof. unfold Js.cont_byte. destruct (ascii_of_N n). reflexivity. Qed.

Lemma starts_cont_take n cs :
  chunked cs ->
  starts_cont (String.concat EmptyString cs) = false ->
  starts_cont (String.concat EmptyString (Js.take_units n cs)) = false.
Proof.
  destruct cs as [| c r]; [ reflexivity | ].
  intros [(a & tl & -> & _) _] H.
  rewrite concat_cons in H. cbn [append starts_cont] in H.
  destruct n as [| n]; [ reflexivity | ]. cbn [Js.take_units].
  destruct (Js.astral (String a tl)); [ destruct n as [| n] | ];
    try (rewrite concat_cons; cbn [append starts_cont]; exact H).
  reflexivity.
Qed.

Lemma take_chunked cs :
  forall n, chunked cs -> chunked (Js.take_units n cs).
Proof.
  induction cs as [| c r IH]; intros n H; [ exact I | ].
  destruct H as [Hc Hr].
  assert (Hkeep : forall m, chunked (c :: Js.take_units m r)).
  { intros m. split; [ | apply IH; exact Hr ].
    destruct Hc as (a & tl & -> & H1 & H2 & H3).
    exists a, tl. split; [ reflexivity | ]. split; [ exact H1 | ].
    split; [ exact H2 | ].
    destruct H3 as [H3 | H3]; [ left; exact H3 | right ].
    apply starts_cont_take; assumption. }
  destruct n as [| n]; [ exact I | ]. cbn [Js.take_units].
  destruct (Js.astral c); [ destruct n as [| n] | ]; try apply Hkeep.
  split; [ | exact I ].
  unfold Js.high_surrogate.
  eexists _, _. split; [ reflexivity | ].
  split; [ cbn [all_cont]; rewrite !is_cont_cont_byte; reflexivity | ].
  split; [ vm_compute; lia | left; reflexivity ].
Qed.

Lemma take_units_sum cs :
  forall n, (list_sum (map Js.units (Js.take_units n cs)) <= n)%nat.
Proof.
  induction cs as [| c r IH]; intros [| n]; cbn [Js.take_units map list_sum fold_right];
    try lia.
  destruct (Js.astral c) eqn:Ha; [ destruct n as [| n] | ];
    cbn [map list_sum fold_right].
  - unfold Js.units, Js.high_surrogate. cbn [Js.astral]. apply Nat.le_refl.
  - unfold Js.units at 1. rewrite Ha. specialize (IH n). unfold list_sum in IH. lia.
  - unfold Js.units at 1. rewrite Ha. specialize (IH n). unfold list_sum in IH. lia.
Qed.

(** [s.slice(0, n)] has at most [n] code units. *)
Lemma slice0_length n (s : string) : (Js.length (Js.slice0 n s) <= n)%nat.
Proof.
  unfold Js.length, Js.slice0.
  rewrite chunked_concat by (apply take_chunked, chars_chunked).
  apply take_units_sum.
Qed.

Lemma length_positive (s : string) :
  Js.nonempty s = true -> (0 < Js.length s)%nat.
Proof.
  destruct s as [| c r]; [ discriminate | intros _ ].
  unfold Js.length. destruct (chars_head c r) as (cur & rest & ->).
  cbn [map list_sum fold_right]. unfold Js.units at 1.
  destruct (Js.astral (String c cur)); lia.
Qed.

Lemma keys_app (t1 t2 : list event) : keys (t1 ++ t2) = keys t1 ++ keys t2.
Proof.
  induction t1 as [| e t1 IH]; simpl; [ reflexivity | ].
  destruct (typed_text e); [ rewrite IH, string_app_assoc | ]; auto.
Qed.

Lemma strokes_app (t1 t2 : list event) :
  strokes (t1 ++ t2) = (strokes t1 + strokes t2)%nat.
Proof.
  induction t1 as [| e t1 IH]; simpl; [ reflexivity | ].
  destruct (typed_text e); simpl; rewrite IH; reflexivity.
Qed.

(** A run whose calls type nothing has typed nothing. *)
Lemma keys_silent (t : list event) :
  forallb types_nothing t = true -> keys t = EmptyString.
Proof.
  induction t as [| e t IH]; simpl; [ reflexivity | ].
  intros H. apply andb_true_iff in H. destruct H as [He Ht].
  rewrite (IH Ht). unfold types_nothing in He.
  destruct (typed_text e); [ discriminate | reflexivity ].
Qed.

(** The scaled random number [Math.floor(Math.random() * n)]. *)
Lemma scaled_range (r : unit01) n : 0 < n -> 0 <= Qfloor (r * inject_Z n) < n.
Proof.
  intros Hn. destruct r as [q [Hlo Hhi]]. cbn [u01]. split.
  - change 0 with (Qfloor 0). apply Qfloor_resp_le.
    apply Qmult_le_0_compat; [ exact Hlo | ].
    change 0%Q with (inject_Z 0). rewrite <- Zle_Qle. lia.
  - rewrite Zlt_Qlt.
    apply Qle_lt_trans with (y := (q * inject_Z n)%Q); [ apply Qfloor_le | ].
    setoid_replace (inject_Z n) with (1 * inject_Z n)%Q at 2 by ring.
    apply Qmult_lt_compat_r; [ | exact Hhi ].
    change 0%Q with (inject_Z 0). rewrite <- Zlt_Qlt. exact Hn.
Qed.

(** ** Diagnostic screenshots *)

Section ScreenshotFacts.

Context {W : Type} {B : Browser W}.

(** X1.  [captureScreenshot] never rejects.  On a page without the
    method [setViewport] (the Playwright page that
    [playwrightServer.js] builds) it fails before anything is
    captured: the result is [{ success: false, error:
    "page.setViewport is not a function" }] and [page.screenshot] is
    not called.  On a page that has the method it succeeds exactly when
    [page.screenshot] does, whatever [fs.mkdir] and [page.setViewport]
    answer: on success the result carries the path of the file that
    was written, which is [path.join(process.cwd(), "screenshots",
    <date>, <label>-<now>.png)], and the URL path
    [/screenshots/<date>/<label>-<now>.png], where [<date>] is the
    ISO time up to its [T] and [<now>] the clock reading; on failure
    it carries the message of [page.screenshot]. *)
Theorem captureScreenshot_reports_the_capture :
  forall label (s : controller W),
  exists shot s' t iso now,
    captureScreenshot label s = (Ok shot, s', t)
    /\ In (HostEv DateToISOString iso) t
    /\ In (HostEv DateNow now) t
    /\ let dateDir := Js.before "T" iso in
       let filename := label ++ "-" ++ Js.of_Z now ++ ".png" in
       let filePath :=
         Js.path_join (Js.path_join (Js.path_join cwd "screenshots") dateDir)
           filename in
       if has_setViewport then
         (shot = [("success", VBool true);
                  ("path", VStr filePath);
                  ("urlPath", VStr ("/screenshots/" ++ dateDir ++ "/" ++ filename))]
          /\ In (PageEv (PageScreenshot filePath) (Ret tt)) t)
         \/ (exists err,
               shot = [("success", VBool false); ("error", VStr err)]
               /\ In (PageEv (PageScreenshot filePath) (Raise err)) t)
       else
         shot = [("success", VBool false);
                 ("error", VStr "page.setViewport is not a function")]
         /\ forallb (fun e => negb (is_capture e)) t = true.
Proof.
  intros label s.
  unfold captureScreenshot, swallow, bind, try_catch, host, call, ret, throw.
  destruct (host_call _ DateToISOString (page s)) as [iso w1]. run_step.
  destruct (page_call _ (FsMkdir _) w1) as [[[] | e1] w2]; run_step;
    destruct (host_call _ DateNow w2) as [now w3]; run_step;
    (destruct has_setViewport; run_step;
     [ destruct (page_call _ (SetViewport 1280 800) w3) as [[[] | e2] w4]; run_step;
       destruct (host_call _ (SetTimeout 200) w4) as [[] w5]; run_step;
       destruct (page_call _ (PageScreenshot _) w5) as [[[] | e3] w6]; run_step
     | ]);
    eexists _, _, _, iso, now;
    (split; [ reflexivity | ]);
    (split; [ simpl; tauto | ]);
    (split; [ simpl; tauto | ]);
    first [ left; split; [ reflexivity | simpl; tauto ]
          | right; exists e3; split; [ reflexivity | simpl; tauto ]
          | split; reflexivity ].
Qed.

Lemma captureScreenshot_ref label :
  post (captureScreenshot label) (fun shot => screenshot_ref (shot_ref shot)).
Proof.
  unfold captureScreenshot.
  js_auto; [ right; eexists; reflexivity | left; reflexivity ].
Qed.

Lemma captureScreenshot_emits P label :
  (forall e, is_diagnostic e = true -> P e = true) ->
  emits P (captureScreenshot label).
Proof.
  intros HP s r s' t E.
  pose proof (captureScreenshot_trace label s r s' t E) as H.
  rewrite forallb_forall in *. auto.
Qed.

End ScreenshotFacts.

(** ** Pacing *)

Section Pacing.

Context {W : Type} {B : Browser W}.

Variable clock : W -> Z.

Hypothesis clock_now : forall w, fst (host_call _ DateNow w) = clock w.
Hypothesis clock_host :
  forall A (c : Host A) w, clock w <= clock (snd (host_call A c w)).
Hypothesis clock_timer :
  forall ms w, clock w + Qfloor ms <= clock (snd (host_call _ (SetTimeout ms) w)).

(** X2.  On a host whose clock never runs backwards and whose timers
    last at least as long as asked, [throttle] returns with
    [_lastActionAt] set to a clock reading that is at least
    [minMessageIntervalMs] after the previous [_lastActionAt] (and not
    after the clock at the return); it makes no call on the page. *)
Theorem throttle_keeps_the_interval :
  forall s : controller W,
  exists s' t,
    throttle s = (Ok tt, s', t)
    /\ _lastActionAt s + minMessageIntervalMs s <= _lastActionAt s'
    /\ _lastActionAt s' <= clock (page s')
    /\ minMessageIntervalMs s' = minMessageIntervalMs s
    /\ forallb (fun e => negb (is_page_call e)) t = true.
Proof.
  intros s.
  unfold throttle, wait, this, set_lastActionAt, bind, host, ret.
  pose proof (clock_now (page s)) as N0.
  pose proof (clock_host _ DateNow (page s)) as H0.
  destruct (host_call _ DateNow (page s)) as [now w1]. run_step.
  cbn [fst snd] in N0, H0. subst now.
  destruct (0 <? Z.max 0 (minMessageIntervalMs s - (clock (page s) - _lastActionAt s)))
    eqn:Hpos; [ apply Z.ltb_lt in Hpos | apply Z.ltb_ge in Hpos ]; run_step.
  - pose proof (clock_timer (inject_Z (Z.max 0 (minMessageIntervalMs s
                   - (clock (page s) - _lastActionAt s)))) w1) as H1.
    rewrite Qfloor_Z in H1.
    destruct (host_call _ (SetTimeout _) w1) as [[] w2]. run_step.
    pose proof (clock_now w2) as N2.
    pose proof (clock_host _ DateNow w2) as H2.
    destruct (host_call _ DateNow w2) as [now' w3]. run_step.
    cbn [fst snd] in *. subst now'.
    eexists _, _. split; [ reflexivity | ].
    cbn [_lastActionAt minMessageIntervalMs page].
    repeat split; try lia.
  - pose proof (clock_now w1) as N2.
    pose proof (clock_host _ DateNow w1) as H2.
    destruct (host_call _ DateNow w1) as [now' w3]. run_step.
    cbn [fst snd] in *. subst now'.
    eexists _, _. split; [ reflexivity | ].
    cbn [_lastActionAt minMessageIntervalMs page].
    repeat split; try lia.
Qed.

End Pacing.

(** ** Typing and moving like a person *)

Section HumanFacts.

Context {W : Type} {B : Browser W}.

Lemma typeEach_keys lo hi chs :
  forall (s : controller W) r s' t,
    typeEach chs lo hi s = (r, s', t) ->
    String.prefix (keys t) (String.concat EmptyString chs) = true
    /\ (r = Ok tt -> keys t = String.concat EmptyString chs).
Proof.
  induction chs as [| ch rest IH]; intros s r s' t; cbn [typeEach].
  - intros H. inversion H. split; reflexivity.
  - unfold bind, call, host. rewrite concat_cons.
    destruct (page_call _ (KeyboardType ch) (page s)) as [[[] | e] w1]; run_step.
    + destruct (host_call _ MathRandom w1) as [r0 w2]; run_step.
      destruct (host_call _ (SetTimeout _) w2) as [[] w3]; run_step.
      destruct (typeEach rest lo hi (with_page (with_page (with_page s w1) w2) w3))
        as [[r1 s1] t1] eqn:E.
      destruct (IH _ _ _ _ E) as [Hp Hk].
      intros H. run_done H.
      cbn [app keys typed_text].
      rewrite prefix_app. split; [ exact Hp | ].
      intros Hr. rewrite (Hk Hr). reflexivity.
    + intros H. run_done H.
      split; [ apply prefix_empty | discriminate ].
Qed.

Lemma typeChars_keys lo hi text :
  forall (s : controller W) r s' t,
    typeChars text lo hi s = (r, s', t) ->
    String.prefix (keys t) text = true /\ (r = Ok tt -> keys t = text).
Proof.
  intros s r s' t E. unfold typeChars in E.
  pose proof (typeEach_keys lo hi (Js.chars text) s r s' t E) as H.
  rewrite chars_concat in H. exact H.
Qed.

(** What [humanType] has typed into a given element when it
    returns. *)
Lemma typed_into_handle h text (s : controller W) s' t :
  humanType (ByHandle (Some h)) text s = (Ok tt, s', t) -> keys t = text.
Proof.
  unfold humanType, humanTypeWith, bind, call, ret. run_step.
  destruct (page_call _ (ElementFocus h) (page s)) as [[[] | e] w2]; run_step;
    [ | discriminate ].
  destruct (typeChars text 70 140 (with_page s w2)) as [[r1 s1] t1] eqn:E.
  intros H. inversion H; subst.
  exact (proj2 (typeChars_keys 70 140 text _ _ _ _ E) eq_refl).
Qed.

(** X3.  [humanType] types the text and nothing else: whatever
    happens, what the keyboard has typed is a prefix of the text, and
    when [humanType] returns it is the whole text, character by
    character in order. *)
Theorem humanType_types_the_text :
  forall target text lo hi (s : controller W) r s' t,
    humanTypeWith target text lo hi s = (r, s', t) ->
    String.prefix (keys t) text = true /\ (r = Ok tt -> keys t = text).
Proof.
  intros target text lo hi s r s' t. unfold humanTypeWith, bind, call, ret, throw.
  destruct target as [sel | [h |]].
  - destruct (page_call _ (PageQuery sel) (page s)) as [[[h |] | e] w1]; run_step.
    + destruct (page_call _ (ElementFocus h) w1) as [[[] | e] w2]; run_step.
      * destruct (typeChars text lo hi (with_page (with_page s w1) w2))
          as [[r1 s1] t1] eqn:E.
        intros H. inversion H; subst.
        exact (typeChars_keys lo hi text _ _ _ _ E).
      * intros H. inversion H; subst.
        split; [ apply prefix_empty | discriminate ].
    + intros H. inversion H; subst. split; [ apply prefix_empty | discriminate ].
    + intros H. inversion H; subst. split; [ apply prefix_empty | discriminate ].
  - run_step.
    destruct (page_call _ (ElementFocus h) (page s)) as [[[] | e] w2]; run_step.
    + destruct (typeChars text lo hi (with_page s w2)) as [[r1 s1] t1] eqn:E.
      intros H. inversion H; subst.
      exact (typeChars_keys lo hi text _ _ _ _ E).
    + intros H. inversion H; subst.
      split; [ apply prefix_empty | discriminate ].
  - run_step. intros H. inversion H; subst.
    split; [ apply prefix_empty | discriminate ].
Qed.

Lemma typeEach_pauses lo hi chs :
  lo < hi ->
  forall (s : controller W) r s' t,
    typeEach chs lo hi s = (r, s', t) ->
    Forall (fun ms => exists d, ms = inject_Z d /\ lo <= d < hi) (pauses t)
    /\ List.length (pauses t) = strokes t
    /\ (strokes t <= List.length chs)%nat
    /\ (r = Ok tt -> strokes t = List.length chs).
Proof.
  intros Hlt.
  induction chs as [| ch rest IH]; intros s r s' t; cbn [typeEach].
  - intros H. inversion H. cbn. repeat split; auto.
  - unfold bind, call, host.
    destruct (page_call _ (KeyboardType ch) (page s)) as [[[] | e] w1]; run_step.
    + destruct (host_call _ MathRandom w1) as [r0 w2]; run_step.
      destruct (host_call _ (SetTimeout _) w2) as [[] w3]; run_step.
      destruct (typeEach rest lo hi (with_page (with_page (with_page s w1) w2) w3))
        as [[r1 s1] t1] eqn:E.
      destruct (IH _ _ _ _ E) as (Hp & Hn & Hle & Hall).
      intros H. run_done H.
      cbn [app pauses pause_of strokes typed_text List.length].
      split; [ constructor; [ | exact Hp ] | ].
      { eexists. split; [ reflexivity | ].
        pose proof (scaled_range r0 (hi - lo)). lia. }
      split; [ rewrite Hn; reflexivity | ].
      split; [ lia | ].
      intros Hr. rewrite (Hall Hr). reflexivity.
    + intros H. run_done H.
      cbn. repeat split; auto; try lia. discriminate.
Qed.

Lemma typeChars_pauses lo hi text :
  lo < hi ->
  forall (s : controller W) r s' t,
    typeChars text lo hi s = (r, s', t) ->
    Forall (fun ms => exists d, ms = inject_Z d /\ lo <= d < hi) (pauses t)
    /\ List.length (pauses t) = strokes t
    /\ (r = Ok tt -> strokes t = List.length (Js.chars text)).
Proof.
  intros Hlt s r s' t E.
  destruct (typeEach_pauses lo hi (Js.chars text) Hlt s r s' t E)
    as (H1 & H2 & _ & H3).
  auto.
Qed.

(** X4.  [humanType] pauses once after every [keyboard.type] that
    succeeded, each time for a whole number of milliseconds that is at
    least [minDelay] and less than [maxDelay] (70 and 140 by default),
    and it sets no other timer; when it returns it has typed once for
    every code point of the text (a character outside the basic plane
    is typed in one piece, not as two halves). *)
Theorem humanType_pauses_between_characters :
  forall target text lo hi (s : controller W) r s' t,
    lo < hi ->
    humanTypeWith target text lo hi s = (r, s', t) ->
    Forall (fun ms => exists d, ms = inject_Z d /\ lo <= d < hi) (pauses t)
    /\ List.length (pauses t) = strokes t
    /\ (r = Ok tt -> strokes t = List.length (Js.chars text)).
Proof.
  intros target text lo hi s r s' t Hlt.
  unfold humanTypeWith, bind, call, ret, throw.
  destruct target as [sel | [h |]].
  - destruct (page_call _ (PageQuery sel) (page s)) as [[[h |] | e] w1]; run_step.
    + destruct (page_call _ (ElementFocus h) w1) as [[[] | e] w2]; run_step.
      * destruct (typeChars text lo hi (with_page (with_page s w1) w2))
          as [[r1 s1] t1] eqn:E.
        intros H. run_done H.
        exact (typeChars_pauses lo hi text Hlt _ _ _ _ E).
      * intros H. run_done H.
        cbn. repeat split; auto. discriminate.
    + intros H. run_done H.
      cbn. repeat split; auto. discriminate.
    + intros H. run_done H.
      cbn. repeat split; auto. discriminate.
  - run_step.
    destruct (page_call _ (ElementFocus h) (page s)) as [[[] | e] w2]; run_step.
    + destruct (typeChars text lo hi (with_page s w2)) as [[r1 s1] t1] eqn:E.
      intros H. run_done H.
      exact (typeChars_pauses lo hi text Hlt _ _ _ _ E).
    + intros H. run_done H.
      cbn. repeat split; auto. discriminate.
  - run_step. intros H. run_done H.
    cbn. repeat split; auto. discriminate.
Qed.

Lemma inside (r : unit01) (w a b : Q) :
  (0 <= w)%Q -> (0 <= a)%Q -> (0 <= b)%Q -> (a + b <= 1)%Q ->
  0 <= Qfloor (w * a + r * w * b)
  /\ (inject_Z (Qfloor (w * a + r * w * b)) <= w)%Q.
Proof.
  intros Hw Ha Hb Hab. destruct r as [q [Hlo Hhi]]. cbn [u01].
  assert (H0 : (0 <= q * w)%Q) by (apply Qmult_le_0_compat; assumption).
  assert (H1 : (q * w <= w)%Q).
  { setoid_replace w with (1 * w)%Q at 2 by ring.
    apply Qmult_le_compat_r; [ apply Qlt_le_weak; exact Hhi | exact Hw ]. }
  split.
  - change 0 with (Qfloor 0). apply Qfloor_resp_le.
    apply Qle_trans with (y := (0 + 0)%Q); [ discriminate | ].
    apply Qplus_le_compat; apply Qmult_le_0_compat; assumption.
  - eapply Qle_trans; [ apply Qfloor_le | ].
    apply Qle_trans with (y := (w * a + w * b)%Q).
    + apply Qplus_le_compat; [ apply Qle_refl | ].
      apply Qmult_le_compat_r; assumption.
    + setoid_replace (w * a + w * b)%Q with (w * (a + b))%Q by ring.
      setoid_replace w with (w * 1)%Q at 2 by ring.
      rewrite !(Qmult_comm w).
      apply Qmult_le_compat_r; assumption.
Qed.

(** X5.  When the page has a body of width [w] and height [h] (not
    negative), [smallHumanMove] returns after one mouse move in ten
    steps to a point with whole coordinates inside the body:
    [0 <= x <= w] and [0 <= y <= h]; the outcome of the move itself is
    ignored. *)
Theorem smallHumanMove_stays_in_the_body :
  forall (s : controller W) (w h : Q) w1,
    page_call _ BodyRect (page s) = (Ret (Some (w, h)), w1) ->
    (0 <= w)%Q -> (0 <= h)%Q ->
    exists (r1 r2 : unit01) x y rep s',
      smallHumanMove s
      = (Ok tt, s',
         [PageEv BodyRect (Ret (Some (w, h)));
          HostEv MathRandom r1;
          HostEv MathRandom r2;
          PageEv (MouseMove x y 10) rep])
      /\ 0 <= x /\ (inject_Z x <= w)%Q
      /\ 0 <= y /\ (inject_Z y <= h)%Q.
Proof.
  intros s w h w1 Hbox Hw Hh.
  unfold smallHumanMove, try_catch, bind, call, host, ret. rewrite Hbox. run_step.
  destruct (host_call _ MathRandom w1) as [r1 w2]; run_step.
  destruct (host_call _ MathRandom w2) as [r2 w3]; run_step.
  destruct (inside r1 w (3 # 10) (6 # 10) Hw) as [Hx0 Hx1]; try discriminate.
  destruct (inside r2 h (2 # 10) (6 # 10) Hh) as [Hy0 Hy1]; try discriminate.
  destruct (page_call _ (MouseMove _ _ 10) w3) as [[[] | e] w4] eqn:Em; run_step;
    eexists r1, r2, _, _, _, _; (split; [ reflexivity | ]); auto.
Qed.

End HumanFacts.

(** ** Saving the session *)

Section SessionFacts.

Context {W : Type} {B : Browser W}.

Lemma session_path_eq (name : string) :
  Js.path_join SESSIONS_DIR (name ++ ".json") = session_path name.
Proof. reflexivity. Qed.

(** X6.  [persistSession] never throws.  When it returns a path, the
    path is [path.join(process.cwd(), "sessions", sessionName +
    ".json")] ([session_path]: the joined path is normalised, so a
    session name with [..] segments leaves the directory) and the
    file written there holds the cookies of the browser context and
    the entries of the local storage that were read in this very call,
    stamped with the ISO time; a failing [fs.mkdir] does not matter.
    It returns [null] exactly when reading the cookies, reading the
    storage or writing the file failed. *)
Theorem persistSession_saves_what_it_reads :
  forall s : controller W,
  exists r s' t,
    persistSession s = (Ok r, s', t)
    /\ match r with
       | Some path =>
           path = session_path (sessionName s)
           /\ exists cookies storage savedAt,
                In (PageEv ContextCookies (Ret cookies)) t
                /\ In (PageEv LocalStorageEntries (Ret storage)) t
                /\ In (HostEv DateToISOString savedAt) t
                /\ In (PageEv (FsWriteFile path
                                 {| sf_cookies := cookies;
                                    sf_localStorage := storage;
                                    sf_savedAt := savedAt |}) (Ret tt)) t
       | None =>
           exists err,
             In (PageEv ContextCookies (Raise err)) t
             \/ In (PageEv LocalStorageEntries (Raise err)) t
             \/ exists path data, In (PageEv (FsWriteFile path data) (Raise err)) t
       end.
Proof.
  intros s.
  unfold persistSession, saveSession, this, try_catch, bind, call, host, ret.
  run_step. rewrite session_path_eq.
  destruct (page_call _ (FsMkdir _) (page s)) as [[[] | e0] w0]; run_step;
    (destruct (page_call _ ContextCookies w0) as [[cookies | e1] w1]; run_step;
     [ destruct (page_call _ LocalStorageEntries w1) as [[storage | e2] w2];
       run_step;
       [ destruct (host_call _ DateToISOString w2) as [savedAt w3]; run_step;
         destruct (page_call _ (FsWriteFile _ _) w3) as [[[] | e3] w4]; run_step
       | ]
     | ]);
    eexists _, _, _; (split; [ reflexivity | ]);
    first [ split; [ reflexivity | ];
            exists cookies, storage, savedAt; simpl; tauto
          | eexists; simpl; eauto 10 ].
Qed.

End SessionFacts.

(** ** Captcha detection *)

Section CaptchaShape.

Context {W : Type} {B : Browser W}.

Lemma shape_none : found_shape None.
Proof. intros r H. discriminate. Qed.

Lemma shape_plain m mtch shot :
  In m ["url"; "frame_url"; "selector"] ->
  screenshot_ref (shot_ref shot) ->
  captcha_result (detection m mtch shot VNull).
Proof.
  intros Hm Hs. right. exists m, mtch, (shot_ref shot), VNull.
  split; [ reflexivity | ]. split; [ exact Hs | ]. left. split; [ exact Hm | reflexivity ].
Qed.

Lemma shape_text m mtch shot n :
  In m ["frame_text"; "selector_text"; "text"] ->
  screenshot_ref (shot_ref shot) ->
  captcha_result (detection m mtch shot (VStr (Js.slice0 2000 n))).
Proof.
  intros Hm Hs. right. exists m, mtch, (shot_ref shot), (VStr (Js.slice0 2000 n)).
  split; [ reflexivity | ]. split; [ exact Hs | ]. right. split; [ exact Hm | ].
  eexists. split; [ reflexivity | apply slice0_length ].
Qed.

Lemma shot_then_plain label m mtch :
  In m ["url"; "frame_url"; "selector"] ->
  post (shot <- captureScreenshot label ;;
        @ret W _ (Some (detection m mtch shot VNull))) found_shape.
Proof.
  intros Hm. eapply post_bind; [ apply captureScreenshot_ref | ].
  intros shot Hs. apply post_ret. intros r [= <-]. apply shape_plain; assumption.
Qed.

Lemma shot_then_text label m mtch n :
  In m ["frame_text"; "selector_text"; "text"] ->
  post (shot <- captureScreenshot label ;;
        @ret W _ (Some (detection m mtch shot (VStr (Js.slice0 2000 n)))))
    found_shape.
Proof.
  intros Hm. eapply post_bind; [ apply captureScreenshot_ref | ].
  intros shot Hs. apply post_ret. intros r [= <-]. apply shape_text; assumption.
Qed.

Lemma scanFrames_shape frames : post (scanFrames frames) found_shape.
Proof.
  induction frames as [| f rest IH]; cbn [scanFrames].
  - apply post_ret, shape_none.
  - apply post_seq; intros fu. destruct (frame_url_matches fu).
    + apply shot_then_plain. simpl; tauto.
    + apply post_bind with (Q := found_shape).
      * apply post_try; [ | intros e; apply post_ret, shape_none ].
        apply post_seq; intros txt.
        destruct (negb (Js.nonempty (normalize txt)));
          [ apply post_ret, shape_none | ].
        destruct (has_challenge_phrase (normalize txt));
          [ | apply post_ret, shape_none ].
        apply shot_then_text. simpl; tauto.
      * intros [r |] H; [ apply post_ret; exact H | exact IH ].
Qed.

Lemma scanSelectors_shape sels : post (scanSelectors sels) found_shape.
Proof.
  induction sels as [| sel rest IH]; cbn [scanSelectors].
  - apply post_ret, shape_none.
  - apply post_bind with (Q := found_shape).
    + apply post_try; [ | intros e; apply post_ret, shape_none ].
      apply post_seq; intros [el |]; [ | apply post_ret, shape_none ].
      destruct (regex_i_test ["iframe"] sel).
      * apply shot_then_plain. simpl; tauto.
      * apply post_seq; intros texts.
        destruct (has_challenge_phrase _); [ | apply post_ret, shape_none ].
        apply shot_then_text. simpl; tauto.
    + intros [r |] H; [ apply post_ret; exact H | exact IH ].
Qed.

Lemma scanBody_shape patterns body :
  post (scanBody patterns body) found_shape.
Proof.
  induction patterns as [| p rest IH]; cbn [scanBody].
  - apply post_ret, shape_none.
  - destruct (Js.nonempty (normalize (Some p)) && Js.includes body (normalize (Some p)));
      [ | exact IH ].
    apply shot_then_text. simpl; tauto.
Qed.

Lemma detectCaptcha_shape : post detectCaptcha captcha_result.
Proof.
  unfold detectCaptcha.
  apply post_try; [ | intros e; apply post_ret; left; reflexivity ].
  apply post_seq; intros url.
  destruct (Js.nonempty url && url_is_checkpoint url).
  { eapply post_bind; [ apply captureScreenshot_ref | ].
    intros shot Hs. apply post_ret. apply shape_plain; [ simpl; tauto | exact Hs ]. }
  apply post_bind with (Q := found_shape).
  { apply post_try; [ | intros e; apply post_ret, shape_none ].
    apply post_seq; intros frames. apply scanFrames_shape. }
  intros [r |] Hr; [ apply post_ret; apply Hr; reflexivity | ].
  apply post_bind with (Q := found_shape); [ apply scanSelectors_shape | ].
  intros [r |] Hs; [ apply post_ret; apply Hs; reflexivity | ].
  apply post_seq; intros bodyText.
  apply post_bind with (Q := found_shape).
  { destruct (Js.nonempty (normalize (Some bodyText)));
      [ apply scanBody_shape | apply post_ret, shape_none ]. }
  intros [r |] Ht; apply post_ret; [ apply Ht | left ]; reflexivity.
Qed.

(** X7.  [detectCaptcha] always returns, and its result is either
    [{ detected: false }] or an object with exactly the properties
    [detected: true], [method], [match], [screenshot] and [snippet]:
    the method is one of [url], [frame_url], [frame_text],
    [selector], [selector_text], [text]; the match is a string; the
    screenshot is a URL path or [null]; the snippet is [null] for the
    methods [url], [frame_url] and [selector] and a string whose
    [length] is at most 2000 (UTF-16 code units) for the three methods
    that read a text. *)
Theorem detectCaptcha_result_shape :
  forall s : controller W,
  exists r s' t, detectCaptcha s = (Ok r, s', t) /\ captcha_result r.
Proof.
  intros s.
  destruct (returns detectCaptcha s detectCaptcha_nothrow detectCaptcha_fueled)
    as (r & s' & t & E).
  exists r, s', t. split; [ exact E | ].
  exact (detectCaptcha_shape s r s' t E).
Qed.

Lemma checkpoint_url_nonempty u :
  url_is_checkpoint u = true -> Js.nonempty u = true.
Proof. destruct u; [ discriminate | reflexivity ]. Qed.

(** X8.  The address tier comes first and is final: when the address
    of the page matches one of the checkpoint patterns,
    [detectCaptcha] returns the detection by [url] with the address as
    match and no snippet; besides reading the address it only captures
    the screenshot: it lists no frame, queries no selector and reads no
    text. *)
Theorem url_tier_is_first :
  forall (s : controller W) u w1,
    page_call _ PageUrl (page s) = (Ret u, w1) ->
    url_is_checkpoint u = true ->
    exists shot s' t_shot,
      captureScreenshot "captcha-by-url" (with_page s w1) = (Ok shot, s', t_shot)
      /\ detectCaptcha s
         = (Ok [("detected", VBool true); ("method", VStr "url");
                ("match", VStr u); ("screenshot", shot_ref shot);
                ("snippet", VNull)],
            s', PageEv PageUrl (Ret u) :: t_shot)
      /\ forallb is_diagnostic t_shot = true.
Proof.
  intros s u w1 Hu Hc.
  destruct (captureScreenshot_returns "captcha-by-url" (with_page s w1))
    as (shot & s' & t_shot & Eshot).
  exists shot, s', t_shot. split; [ exact Eshot | ].
  split; [ | exact (captureScreenshot_trace _ _ _ _ _ Eshot) ].
  unfold detectCaptcha. apply try_ok.
  assert (E1 : try_catch (call PageUrl) (fun _ => ret EmptyString) s
               = (Ok u, with_page s w1, [PageEv PageUrl (Ret u)])).
  { unfold try_catch, call. rewrite Hu. reflexivity. }
  rewrite (bind_ok _ _ _ _ _ _ E1).
  rewrite Hc, (checkpoint_url_nonempty u Hc). cbv beta iota. cbn [andb].
  rewrite (bind_ok _ _ _ _ _ _ Eshot). cbn [ret app].
  rewrite app_nil_r. reflexivity.
Qed.

End CaptchaShape.

(** *** A page without a challenge *)

Section CleanPage.

Context {W : Type} {B : Browser W}.

Lemma scanFrames_quiet frames :
  (forall g, In g frames -> quiet_frame g) ->
  forall s : controller W, exists s' t, scanFrames frames s = (Ok None, s', t).
Proof.
  induction frames as [| g rest IH]; intros Hq s.
  - eexists _, _. reflexivity.
  - destruct (quiet_frame_skipped g rest s (Hq g (or_introl eq_refl)))
      as (s1 & t1 & E).
    destruct (IH (fun g' Hg => Hq g' (or_intror Hg)) s1) as (s' & t & E').
    rewrite E, E'. eauto.
Qed.

Lemma quiet_selector_skipped sel rest (s : controller W) :
  quiet_selector sel ->
  exists s1 t1,
    scanSelectors (sel :: rest) s
    = (let '(r, s2, t2) := scanSelectors rest s1 in (r, s2, (t1 ++ t2)%list)).
Proof.
  intros Hq. cbn [scanSelectors]. unfold bind at 1, try_catch, bind at 1, call at 1.
  specialize (Hq (page s)).
  destruct (page_call _ (PageQuery sel) (page s)) as [[[el |] | e] w1];
    cbn [fst] in Hq; run_step.
  - destruct Hq as [Hi Ht]. rewrite Hi. unfold bind at 1, call.
    specialize (Ht (page (with_page s w1))).
    destruct (page_call _ (ElementTexts el) (page (with_page s w1)))
      as [[texts | e] w2]; cbn [fst] in Ht; run_step.
    + rewrite Ht. cbn [ret]. run_step.
      match goal with |- context [scanSelectors rest ?X] => exists X end.
      eexists. destruct (scanSelectors rest _) as [[? ?] ?]. reflexivity.
    + cbn [ret]. run_step.
      match goal with |- context [scanSelectors rest ?X] => exists X end.
      eexists. destruct (scanSelectors rest _) as [[? ?] ?]. reflexivity.
  - cbn [ret]. run_step.
    match goal with |- context [scanSelectors rest ?X] => exists X end.
    eexists. destruct (scanSelectors rest _) as [[? ?] ?]. reflexivity.
  - cbn [ret]. run_step.
    match goal with |- context [scanSelectors rest ?X] => exists X end.
    eexists. destruct (scanSelectors rest _) as [[? ?] ?]. reflexivity.
Qed.

Lemma scanSelectors_quiet sels :
  (forall sel, In sel sels -> quiet_selector sel) ->
  forall s : controller W, exists s' t, scanSelectors sels s = (Ok None, s', t).
Proof.
  induction sels as [| sel rest IH]; intros Hq s.
  - eexists _, _. reflexivity.
  - destruct (quiet_selector_skipped sel rest s (Hq sel (or_introl eq_refl)))
      as (s1 & t1 & E).
    destruct (IH (fun x Hx => Hq x (or_intror Hx)) s1) as (s' & t & E').
    rewrite E, E'. eauto.
Qed.

Lemma scanBody_quiet patterns n (s : controller W) :
  existsb (fun p => Js.includes n (normalize (Some p))) patterns = false ->
  scanBody patterns n s = (Ok None, s, []).
Proof.
  induction patterns as [| p rest IH]; cbn [scanBody existsb];
    [ reflexivity | ].
  intros H. apply orb_false_iff in H. destruct H as [Hp Hrest].
  cbv zeta. rewrite Hp, andb_false_r. exact (IH Hrest).
Qed.

Hypothesis url_is_no_checkpoint :
  forall w, match fst (page_call _ PageUrl w) with
            | Ret u => url_is_checkpoint u = false
            | Raise _ => True
            end.
Hypothesis frames_are_quiet :
  forall w, match fst (page_call _ PageFrames w) with
            | Ret frames => forall g, In g frames -> quiet_frame g
            | Raise _ => True
            end.
Hypothesis selectors_are_quiet :
  forall sel, In sel SELECTOR_CANDIDATES -> quiet_selector sel.
Hypothesis body_has_no_phrase :
  forall w, match fst (page_call _ BodyInnerText w) with
            | Ret body => has_challenge_phrase (normalize body) = false
            | Raise _ => True
            end.

(** X9.  No false alarm on a page without a challenge.  When, however
    often they are looked at, the address of the page matches no
    checkpoint pattern, every frame has an address that matches no
    widget pattern and a text without a challenge phrase, every
    candidate selector matches nothing (or an element that is no
    [iframe] and whose text has no challenge phrase) and the text of
    the body contains no challenge phrase (a check that cannot be made
    counts as passed), [detectCaptcha] returns [{ detected: false }]. *)
Theorem clean_page_is_not_detected :
  forall s : controller W,
  exists s' t, detectCaptcha s = (Ok not_detected, s', t).
Proof.
  intros s.
  destruct (url_tier_passed url_is_no_checkpoint s) as (u & s1 & t1 & E1 & Hu).
  assert (E2 : exists s2 t2,
             try_catch (frames <- call PageFrames ;; scanFrames frames)
               (fun _ => ret None) s1 = (Ok None, s2, t2)).
  { pose proof (frames_are_quiet (page s1)) as Hf.
    unfold try_catch, bind, call.
    destruct (page_call _ PageFrames (page s1)) as [[frames | e] w2];
      cbn [fst] in Hf; run_step.
    - destruct (scanFrames_quiet frames Hf (with_page s1 w2)) as (s2 & t2 & E).
      rewrite E. eauto.
    - cbn [ret]. eauto. }
  destruct E2 as (s2 & t2 & E2).
  destruct (scanSelectors_quiet SELECTOR_CANDIDATES selectors_are_quiet s2)
    as (s3 & t3 & E3).
  assert (E4 : exists bodyText s4 t4,
             try_catch (b <- call BodyInnerText ;; ret (Js.or_empty b))
               (fun _ => ret EmptyString) s3 = (Ok bodyText, s4, t4)
             /\ has_challenge_phrase (normalize (Some bodyText)) = false).
  { pose proof (body_has_no_phrase (page s3)) as Hb.
    unfold try_catch, bind, call, ret.
    destruct (page_call _ BodyInnerText (page s3)) as [[b | e] w4];
      cbn [fst] in Hb; run_step.
    - eexists _, _, _. split; [ reflexivity | ].
      destruct b; exact Hb.
    - eexists _, _, _. split; reflexivity. }
  destruct E4 as (bodyText & s4 & t4 & E4 & Hb).
  unfold has_challenge_phrase in Hb. rewrite <- existsb_app in Hb.
  eexists _, _.
  unfold detectCaptcha. apply try_ok.
  rewrite (bind_ok _ _ _ _ _ _ E1).
  rewrite Hu, andb_false_r. cbv beta iota.
  rewrite (bind_ok _ _ _ _ _ _ E2). cbv beta iota.
  rewrite (bind_ok _ _ _ _ _ _ E3). cbv beta iota.
  rewrite (bind_ok _ _ _ _ _ _ E4). cbv beta iota zeta.
  destruct (Js.nonempty (normalize (Some bodyText))).
  - rewrite (bind_ok _ _ _ _ _ _ (scanBody_quiet _ _ s4 Hb)). reflexivity.
  - reflexivity.
Qed.

End CleanPage.

(** ** Login *)

Section LoginResults.

Context {W : Type} {B : Browser W}.

Lemma persistSession_nothrow : nothrow (@persistSession W B).
Proof. unfold persistSession. js_auto. Qed.

Lemma persistSession_returns (s : controller W) :
  exists p s' t, persistSession s = (Ok p, s', t).
Proof. apply returns; [ apply persistSession_nothrow | apply persistSession_fueled ]. Qed.

Lemma snippet_length nb :
  shows_invalid_credentials nb = true ->
  (0 < Js.length (Js.slice0 800 nb) <= 800)%nat.
Proof.
  intros H. split; [ | apply slice0_length ].
  apply length_positive, snippet_nonempty. exact H.
Qed.

Lemma handleOutcome_results maxRetries attempt outcome :
  login_outcome outcome ->
  post (handleOutcome maxRetries attempt outcome)
    (fun t => match t with
              | Return r => login_result r
              | Continue _ => True
              end).
Proof.
  intros [-> | [-> | [(c & -> & Hc) | [(nb & -> & Hnb) | ->]]]].
  - unfold handleOutcome. simpl. js_auto. left. reflexivity.
  - unfold handleOutcome. simpl. js_auto. left. reflexivity.
  - rewrite handleOutcome_captcha.
    eapply post_bind; [ apply captureScreenshot_ref | ].
    intros shot Hs. js_auto; try exact I.
    right. left. exists (shot_ref shot), c. auto.
  - unfold handleOutcome. simpl. unfold vor. simpl truthy.
    rewrite (snippet_nonempty nb Hnb). apply post_ret.
    right. right. left. eexists. split; [ reflexivity | ].
    apply snippet_length. exact Hnb.
  - unfold handleOutcome. simpl. js_auto; try exact I.
    right. right. right. left. reflexivity.
Qed.

Lemma loginLoop_results turns fuel email password maxRetries attempt :
  post (loginLoop turns fuel email password maxRetries attempt) login_result.
Proof.
  revert attempt.
  induction turns as [| turns IH]; intros attempt; cbn [loginLoop];
    destruct (attempt <=? maxRetries);
    try (apply post_ret; repeat right; eexists; reflexivity);
    [ apply post_out_of_fuel | ].
  eapply post_bind.
  - unfold loginTurn. apply post_try.
    + eapply post_bind; [ apply doLoginOnce_post | ].
      intros outcome Ho. apply handleOutcome_results. exact Ho.
    + intros e. apply post_ret. repeat right. eexists. reflexivity.
  - intros [r | attempt'] H; [ apply post_ret; exact H | apply IH ].
Qed.

(** X10.  Whatever [login] returns is one of: [{ success: true }];
    the failure [captcha_detected] with a screenshot (a URL path or
    [null]) and, as detail, a positive captcha detection; the failure
    [invalid_credentials] with, as detail, a snippet whose [length]
    is 1 to 800 (UTF-16 code units); the failure [timeout]; or a
    failure with nothing but
    an [error] string (the message of an exception, or
    [max_retries_exceeded]).  So the two other results the source
    spells out, [{ success: true, alreadyLoggedIn: true }] and the
    failure [unknown_outcome] with its detail, are never returned. *)
Theorem login_results :
  forall fuel email password maxRetries (s : controller W) r s' t,
    login fuel email password maxRetries s = (Ok r, s', t) ->
    login_result r /\ get r "alreadyLoggedIn" = VUndef.
Proof.
  intros fuel email password maxRetries s r s' t E.
  pose proof (loginLoop_results _ _ _ _ _ _ s r s' t E) as H.
  split; [ exact H | ].
  destruct H as [-> | [(shot & c & -> & _) | [(sn & -> & _) | [-> | (err & ->)]]]];
    reflexivity.
Qed.

(** *** The number of attempts *)

Lemma login_gotos_app (t1 t2 : list event) :
  login_gotos (t1 ++ t2) = (login_gotos t1 + login_gotos t2)%nat.
Proof. unfold login_gotos. rewrite filter_app, length_app. reflexivity. Qed.

Lemma navigates_weaken (n n' : nat) {A} (m : M W A) :
  (n <= n')%nat -> navigates n m -> navigates n' m.
Proof. intros Hn Hm s r s' t E. pose proof (Hm s r s' t E). lia. Qed.

Lemma navigates_quiet {A} (m : M W A) :
  emits stays m -> navigates 0 m.
Proof.
  intros Hm s r s' t E. pose proof (Hm s r s' t E) as H.
  unfold login_gotos. clear E. induction t as [| e t IH]; [ reflexivity | ].
  simpl in H. apply andb_true_iff in H. destruct H as [He Ht].
  unfold stays in He.
  simpl. destruct (is_login_goto e); [ discriminate | exact (IH Ht) ].
Qed.

Lemma navigates_call {A} (c : Page A) : navigates 1 (call c).
Proof.
  intros s r s' t. unfold call. destruct (page_call A c (page s)) as [x w].
  intros H. apply (f_equal snd) in H. cbn [snd] in H. subst t.
  unfold login_gotos. cbn [filter].
  destruct (is_login_goto (PageEv c x)); simpl; lia.
Qed.

Lemma navigates_bind (a b : nat) {A C} (m : M W A) (k : A -> M W C)
    (Q : A -> Prop) :
  post m Q -> navigates a m -> (forall x, Q x -> navigates b (k x)) ->
  navigates (a + b) (bind m k).
Proof.
  intros Hq Hm Hk s r s' t. unfold bind.
  destruct (m s) as [[[x | e |] s1] t1] eqn:E.
  - destruct (k x s1) as [[r2 s2] t2] eqn:E2.
    intros H. apply (f_equal snd) in H. cbn [snd] in H. subst t.
    rewrite login_gotos_app.
    pose proof (Hm _ _ _ _ E). pose proof (Hk x (Hq _ _ _ _ E) _ _ _ _ E2). lia.
  - intros H. apply (f_equal snd) in H. cbn [snd] in H. subst t.
    pose proof (Hm _ _ _ _ E). lia.
  - intros H. apply (f_equal snd) in H. cbn [snd] in H. subst t.
    pose proof (Hm _ _ _ _ E). lia.
Qed.

Lemma navigates_try (a b : nat) {A} (m : M W A) h :
  navigates a m -> (forall e, navigates b (h e)) ->
  navigates (a + b) (try_catch m h).
Proof.
  intros Hm Hh s r s' t. unfold try_catch.
  destruct (m s) as [[[x | e |] s1] t1] eqn:E.
  - intros H. apply (f_equal snd) in H. cbn [snd] in H. subst t.
    pose proof (Hm _ _ _ _ E). lia.
  - destruct (h e s1) as [[r2 s2] t2] eqn:E2.
    intros H. apply (f_equal snd) in H. cbn [snd] in H. subst t.
    rewrite login_gotos_app.
    pose proof (Hm _ _ _ _ E). pose proof (Hh e _ _ _ _ E2). lia.
  - intros H. apply (f_equal snd) in H. cbn [snd] in H. subst t.
    pose proof (Hm _ _ _ _ E). lia.
Qed.

Lemma captureScreenshot_stays label : emits stays (captureScreenshot label).
Proof.
  apply captureScreenshot_emits.
  intros [A c a | A c r]; [ reflexivity | ]. destruct c; try reflexivity; discriminate.
Qed.

Lemma scanFrames_stays frames : emits stays (scanFrames frames).
Proof.
  induction frames as [| f rest IH]; cbn [scanFrames]; emit_auto;
    auto using captureScreenshot_stays.
Qed.

Lemma scanSelectors_stays sels : emits stays (scanSelectors sels).
Proof.
  induction sels as [| sel rest IH]; cbn [scanSelectors]; emit_auto;
    auto using captureScreenshot_stays.
Qed.

Lemma scanBody_stays patterns body : emits stays (scanBody patterns body).
Proof.
  induction patterns as [| p rest IH]; cbn [scanBody]; emit_auto;
    auto using captureScreenshot_stays.
Qed.

Lemma detectCaptcha_stays : emits stays detectCaptcha.
Proof.
  unfold detectCaptcha. emit_auto;
    auto using captureScreenshot_stays, scanFrames_stays, scanSelectors_stays,
      scanBody_stays.
Qed.

Lemma pollLoop_stays fuel start timeoutMs :
  emits stays (pollLoop fuel start timeoutMs).
Proof.
  induction fuel as [| fuel IH]; cbn [pollLoop]; unfold pollOnce; emit_auto;
    auto using detectCaptcha_stays.
Qed.

Lemma typeChars_stays text lo hi : emits stays (typeChars text lo hi).
Proof.
  unfold typeChars.
  induction (Js.chars text) as [| ch rest IH]; cbn [typeEach]; emit_auto; exact IH.
Qed.

Lemma persistSession_stays : emits stays persistSession.
Proof. unfold persistSession, saveSession. emit_auto. Qed.

Lemma handleOutcome_stays maxRetries attempt outcome :
  emits stays (handleOutcome maxRetries attempt outcome).
Proof.
  unfold handleOutcome. emit_auto;
    auto using captureScreenshot_stays, persistSession_stays.
Qed.

Lemma doLoginOnce_navigates fuel email password :
  navigates 1 (doLoginOnce fuel email password).
Proof.
  unfold doLoginOnce, openLoginPage.
  intros s r s' t. rewrite !bind_assoc. revert s r s' t.
  apply (navigates_bind 1 0) with (Q := fun _ => True);
    [ apply post_any | apply navigates_call | ].
  intros _ _. apply navigates_quiet.
  unfold ensureFields, submitCredentials, humanType, humanTypeWith,
    smallHumanMove, waitForLoginOutcome.
  emit_auto; auto using typeChars_stays, pollLoop_stays.
Qed.

Lemma loginTurn_navigates fuel email password maxRetries attempt :
  navigates 1 (loginTurn fuel email password maxRetries attempt).
Proof.
  unfold loginTurn.
  apply (navigates_try 1 0); [ | intros e; apply navigates_quiet, emits_ret ].
  apply (navigates_bind 1 0) with (Q := fun _ => True);
    [ apply post_any | apply doLoginOnce_navigates | ].
  intros outcome _. apply navigates_quiet, handleOutcome_stays.
Qed.

Lemma loginTurn_continue fuel email password maxRetries attempt :
  post (loginTurn fuel email password maxRetries attempt)
    (fun t => match t with
              | Return _ => True
              | Continue attempt' =>
                  attempt' = attempt + 1 /\ attempt < maxRetries
              end).
Proof.
  unfold loginTurn. apply post_try; [ | intros e; apply post_ret; exact I ].
  apply post_seq; intros outcome. apply handleOutcome_continue.
Qed.

(** X11.  The loop of [login] navigates to the login page at most
    once for every value the counter [attempt] can still take up to
    [maxRetries]: at most [maxRetries - attempt + 1] times from
    [attempt] on, so [login] makes at most [maxRetries + 1] attempts
    (3 by default) and none when [maxRetries] is negative, however the
    attempts end. *)
Theorem login_attempts_are_bounded :
  forall turns fuel email password maxRetries attempt (s : controller W) r s' t,
    loginLoop turns fuel email password maxRetries attempt s = (r, s', t) ->
    (login_gotos t <= Z.to_nat (maxRetries - attempt + 1))%nat.
Proof.
  induction turns as [| turns IH];
    intros fuel email password maxRetries attempt s r s' t;
    cbn [loginLoop]; destruct (attempt <=? maxRetries) eqn:Hle;
    try (intros H; apply (f_equal snd) in H; cbn [snd] in H; subst t;
         unfold login_gotos; simpl; lia).
  apply Z.leb_le in Hle.
  assert (Hn : navigates (1 + Z.to_nat (maxRetries - (attempt + 1) + 1))
                 (t <- loginTurn fuel email password maxRetries attempt ;;
                  match t with
                  | Return r => ret r
                  | Continue attempt' =>
                      loginLoop turns fuel email password maxRetries attempt'
                  end)).
  { eapply navigates_bind;
      [ apply loginTurn_continue | apply loginTurn_navigates | ].
    intros [r0 | attempt'] Hq.
    - apply navigates_weaken with (n := 0%nat); [ lia | ].
      apply navigates_quiet, emits_ret.
    - destruct Hq as [-> _]. intros s0 r0 s0' t0. apply IH. }
  intros E. pose proof (Hn s r s' t E). lia.
Qed.

(** *** A timeout and a session that is still alive *)



Lemma openLoginPage_early :
  post (@openLoginPage W B)
    (fun early => forall r, early = Some r ->
       r = [("alreadyLoggedIn", VBool true); ("success", VBool true)]).
Proof. unfold openLoginPage. js_auto; intros r H; inversion H. reflexivity. Qed.

Lemma openLoginPage_hands_off : emits hands_off (@openLoginPage W B).
Proof. unfold openLoginPage. emit_auto. Qed.

Lemma persistSession_hands_off : emits hands_off (@persistSession W B).
Proof. unfold persistSession, saveSession. emit_auto. Qed.

(** X13.  When the login page shows the search box of somebody who
    is logged in (the early check of the attempt answers), [login]
    returns [{ success: true }], without the flag [alreadyLoggedIn],
    after saving the session, whether or not the saving worked; up to
    there it gives no input to the page: the credentials are not
    typed, nothing is clicked. *)
Theorem already_logged_in_skips_the_form :
  forall turns fuel email password maxRetries attempt
         (s : controller W) early s1 t1,
    attempt <= maxRetries ->
    openLoginPage s = (Ok (Some early), s1, t1) ->
    exists p s2 t2,
      persistSession s1 = (Ok p, s2, t2)
      /\ loginLoop (S turns) fuel email password maxRetries attempt s
         = (Ok [("success", VBool true)], s2, (t1 ++ t2)%list)
      /\ forallb hands_off (t1 ++ t2) = true.
Proof.
  intros turns fuel email password maxRetries attempt s early s1 t1 Hle Eopen.
  pose proof (openLoginPage_early s _ s1 t1 Eopen early eq_refl) as ->.
  destruct (persistSession_returns s1) as (p & s2 & t2 & Ep).
  exists p, s2, t2. split; [ exact Ep | ]. split.
  - assert (E : doLoginOnce fuel email password s
                = (Ok [("alreadyLoggedIn", VBool true); ("success", VBool true)],
                   s1, t1)).
    { unfold doLoginOnce. rewrite (bind_ok _ _ _ _ _ _ Eopen).
      cbn [ret]. rewrite app_nil_r. reflexivity. }
    assert (Eh : handleOutcome maxRetries attempt
                   [("alreadyLoggedIn", VBool true); ("success", VBool true)] s1
                 = (Ok (Return [("success", VBool true)]), s2, t2)).
    { unfold handleOutcome. simpl. rewrite (bind_ok _ _ _ _ _ _ Ep).
      cbn [ret]. rewrite app_nil_r. reflexivity. }
    exact (loginLoop_turn turns fuel email password maxRetries attempt s _ s1 t1
             _ _ _ Hle E Eh).
  - rewrite forallb_app.
    rewrite (openLoginPage_hands_off _ _ _ _ Eopen).
    rewrite (persistSession_hands_off _ _ _ _ Ep). reflexivity.
Qed.

End LoginResults.

(** ** Sending a message *)

Section MessageFacts.

Context {W : Type} {B : Browser W}.

Lemma post_try_nothrow {A} (m : M W A) h (P : A -> Prop) :
  nothrow m -> post m P -> post (try_catch m h) P.
Proof.
  intros Hn Hm s a s' t. unfold try_catch.
  destruct (m s) as [[[a1 | e |] s1] t1] eqn:E.
  - intros H. inversion H; subst. exact (Hm s a s' t E).
  - exfalso. exact (Hn s e s1 t1 E).
  - discriminate.
Qed.

Lemma shot_failure label err :
  post (shot <- captureScreenshot label ;;
        @ret W _ [("success", VBool false); ("error", VStr err);
                  ("screenshot", shot_ref shot)])
    message_result.
Proof.
  eapply post_bind; [ apply captureScreenshot_ref | ].
  intros shot Hs. apply post_ret. right. exists err, (shot_ref shot). auto.
Qed.

Lemma sendMessage_results recipient text :
  post (sendMessage recipient text) message_result.
Proof.
  unfold sendMessage. apply post_try.
  - apply post_seq; intros _. unfold afterMessengerOpen.
    apply post_seq; intros [h |]; [ apply shot_failure | ].
    apply post_seq; intros _.
    apply post_bind with (Q := fun o => forall r, o = Some r -> message_result r).
    + unfold globalSearchFallback.
      apply post_seq; intros [h |]; [ apply post_ret; discriminate | ].
      do 6 (apply post_seq; intros ?).
      match goal with |- post (if ?b then _ else _) _ => destruct b end.
      * eapply post_bind; [ apply captureScreenshot_ref | ].
        intros shot Hs. apply post_ret. intros r [= <-].
        right. eexists _, (shot_ref shot). auto.
      * js_auto. discriminate.
    + intros [r |] H; [ apply post_ret; apply H; reflexivity | ].
      unfold typeAndSend.
      apply post_seq; intros [h |]; [ | apply shot_failure ].
      js_auto. left. reflexivity.
  - intros e. unfold faultBoundary. apply post_try_nothrow.
    + apply nothrow_bind; [ apply captureScreenshot_nothrow | ].
      intros shot. apply nothrow_ret.
    + apply shot_failure.
Qed.

(** X14.  [sendMessage] always returns, and its result is either
    [{ success: true }] or a failure with exactly the properties
    [success: false], [error] (a string) and [screenshot] (a URL path
    or [null]): every failure carries the reference to a diagnostic
    screenshot, and the answer without one that the source provides
    for a failing capture is never given. *)
Theorem sendMessage_outcomes :
  forall recipient text (s : controller W),
  exists r s' t,
    sendMessage recipient text s = (Ok r, s', t) /\ message_result r.
Proof.
  intros recipient text s.
  destruct (returns (sendMessage recipient text) s
              (sendMessage_nothrow recipient text)
              (sendMessage_fueled recipient text)) as (r & s' & t & E).
  exists r, s', t. split; [ exact E | ].
  exact (sendMessage_results recipient text s r s' t E).
Qed.

(** *** What a sent message has typed *)

Lemma captureScreenshot_types_nothing label :
  emits types_nothing (captureScreenshot label).
Proof.
  apply captureScreenshot_emits.
  intros [A c a | A c r]; [ reflexivity | ]. destruct c; try reflexivity; discriminate.
Qed.

Lemma throttle_types_nothing : emits types_nothing (@throttle W B).
Proof. unfold throttle. emit_auto. Qed.

Lemma persistSession_types_nothing : emits types_nothing (@persistSession W B).
Proof. unfold persistSession, saveSession. emit_auto. Qed.

Lemma smallHumanMove_types_nothing : emits types_nothing (@smallHumanMove W B).
Proof. unfold smallHumanMove. emit_auto. Qed.

Lemma findSearchHandle_types_nothing sels :
  emits types_nothing (findSearchHandle sels).
Proof. induction sels as [| sel rest IH]; cbn [findSearchHandle]; emit_auto; exact IH. Qed.

Lemma openFirstRow_types_nothing rows : emits types_nothing (openFirstRow rows).
Proof. induction rows as [| span rest IH]; cbn [openFirstRow]; emit_auto; exact IH. Qed.

Lemma scanCandidates_types_nothing candidates :
  emits types_nothing (scanCandidates candidates).
Proof.
  induction candidates as [| c rest IH]; cbn [scanCandidates]; emit_auto; exact IH.
Qed.

Lemma scanCards_types_nothing cards : emits types_nothing (scanCards cards).
Proof.
  induction cards as [| card rest IH]; cbn [scanCards]; emit_auto;
    auto using scanCandidates_types_nothing.
Qed.

Lemma waitSelectors_types_nothing sels start overall :
  emits types_nothing (waitSelectors sels start overall).
Proof. induction sels as [| sel rest IH]; cbn [waitSelectors]; emit_auto; exact IH. Qed.

Lemma findMessageInputHandle_types_nothing overall :
  emits types_nothing (findMessageInputHandle overall).
Proof.
  unfold findMessageInputHandle. emit_auto; apply waitSelectors_types_nothing.
Qed.

Lemma openMessenger_types_nothing : emits types_nothing (@openMessenger W B).
Proof. unfold openMessenger. emit_auto. apply throttle_types_nothing. Qed.

Lemma globalSearchFallback_types_nothing recipient :
  emits types_nothing (globalSearchFallback recipient).
Proof.
  unfold globalSearchFallback. emit_auto;
    auto using scanCards_types_nothing, captureScreenshot_types_nothing.
Qed.

Lemma searchInMessenger_keys recipient (s : controller W) s' t :
  searchInMessenger recipient s = (Ok tt, s', t) ->
  keys t = EmptyString \/ keys t = recipient.
Proof.
  unfold searchInMessenger. intros E.
  apply bind_inv in E as (? & s1 & t1 & t2 & E1 & E2 & ->).
  apply bind_inv in E2 as (sh & s2 & t3 & t4 & E3 & E4 & ->).
  assert (H1 : keys t1 = EmptyString).
  { apply keys_silent. revert E1. generalize (Ok tt : res unit).
    intros r0 E1. revert E1.
    match goal with |- ?m s = _ -> _ => assert (Hm : emits types_nothing m) end.
    { emit_auto. }
    apply Hm. }
  assert (H3 : keys t3 = EmptyString).
  { apply keys_silent. exact (findSearchHandle_types_nothing _ _ _ _ _ E3). }
  rewrite !keys_app, H1, H3. cbn [append].
  destruct sh as [h |]; [ | inversion E4; subst; left; reflexivity ].
  apply bind_inv in E4 as (? & s3 & t5 & t6 & E5 & E6 & ->).
  apply bind_inv in E6 as (? & s4 & t7 & t8 & E7 & E8 & ->).
  apply bind_inv in E8 as ([] & s5 & t9 & t10 & E9 & E10 & ->).
  right. rewrite !keys_app.
  rewrite (typed_into_handle h recipient _ _ _ E9).
  assert (H5 : keys t5 = EmptyString).
  { apply keys_silent. revert E5.
    match goal with |- ?m _ = _ -> _ => assert (Hm : emits types_nothing m) end.
    { emit_auto. }
    apply Hm. }
  assert (H7 : keys t7 = EmptyString).
  { apply keys_silent. revert E7.
    match goal with |- ?m _ = _ -> _ => assert (Hm : emits types_nothing m) end.
    { emit_auto. }
    apply Hm. }
  assert (H10 : keys t10 = EmptyString).
  { apply keys_silent. revert E10.
    match goal with |- ?m _ = _ -> _ => assert (Hm : emits types_nothing m) end.
    { emit_auto; apply openFirstRow_types_nothing. }
    apply Hm. }
  rewrite H5, H7, H10. cbn [append].
  clear. induction recipient as [| c r IH]; simpl; [ | rewrite IH ]; reflexivity.
Qed.

Lemma typeAndSend_typed text (s : controller W) r s' t :
  typeAndSend text s = (Ok r, s', t) ->
  get r "success" = VBool true ->
  exists ta tb,
    t = (ta ++ PageEv (KeyboardPress "Enter") (Ret tt) :: tb)%list
    /\ keys ta = text /\ keys tb = EmptyString.
Proof.
  unfold typeAndSend. intros E Hs.
  apply bind_inv in E as (mh & s1 & t1 & t2 & E1 & E2 & ->).
  destruct mh as [h |].
  - apply bind_inv in E2 as (? & s2 & tf & t3 & Ef & E3 & ->).
    apply bind_inv in E3 as (? & s3 & tm & t4 & Em & E4 & ->).
    apply bind_inv in E4 as ([] & s4 & ty & t5 & Ey & E5 & ->).
    apply bind_inv in E5 as ([] & s5 & te & t6 & Ee & E6 & ->).
    apply call_inv in Ee as (-> & _ & _).
    apply call_inv in Ef as (-> & _ & _).
    exists (t1 ++ [PageEv (ElementFocus h) (Ret x)] ++ tm ++ ty)%list, t6.
    split; [ rewrite <- !app_assoc; reflexivity | ].
    split.
    + rewrite !keys_app.
      rewrite (keys_silent t1
                 (findMessageInputHandle_types_nothing _ _ _ _ _ E1)).
      rewrite (keys_silent tm (smallHumanMove_types_nothing _ _ _ _ Em)).
      rewrite (typed_into_handle h text _ _ _ Ey). reflexivity.
    + apply keys_silent. revert E6.
      match goal with |- ?m _ = _ -> _ => assert (Hm : emits types_nothing m) end.
      { emit_auto. apply persistSession_types_nothing. }
      apply Hm.
  - apply bind_inv in E2 as (shot & s2 & tf & t3 & Ef & E3 & ->).
    inversion E3; subst. discriminate.
Qed.

(** X15.  A message reported as sent has been typed and sent: when
    [sendMessage] returns [success: true], its run contains a
    successful press of [Enter]; before it the keyboard has typed the
    text, preceded by the recipient if the search box of the
    messaging surface was used, and nothing else; after it nothing is
    typed. *)
Theorem sent_message_was_typed :
  forall recipient text (s : controller W) r s' t,
    sendMessage recipient text s = (Ok r, s', t) ->
    get r "success" = VBool true ->
    exists ta tb,
      t = (ta ++ PageEv (KeyboardPress "Enter") (Ret tt) :: tb)%list
      /\ (keys ta = text \/ keys ta = recipient ++ text)
      /\ keys tb = EmptyString.
Proof.
  intros recipient text s r s' t E Hs.
  unfold sendMessage in E. apply try_inv in E.
  destruct E as [E | (e & s1 & t1 & t2 & _ & E & _)].
  2:{ exfalso.
      assert (Hf : post (faultBoundary "sendMessage-exception"
                           (fun shot => [("success", VBool false);
                                         ("error", VStr e);
                                         ("screenshot", shot_ref shot)])
                           [("success", VBool false); ("error", VStr e)])
                     (fun r : obj => get r "success" = VBool false)).
      { unfold faultBoundary. js_auto; reflexivity. }
      rewrite (Hf _ _ _ _ E) in Hs. discriminate. }
  apply bind_inv in E as ([] & s1 & t1 & t2 & E1 & E2 & ->).
  unfold afterMessengerOpen in E2.
  apply bind_inv in E2 as (lf & s2 & tq & t3 & Eq & E3 & ->).
  apply call_inv in Eq as (-> & _ & _).
  destruct lf as [h |].
  { exfalso. apply bind_inv in E3 as (shot & ? & ? & ? & _ & E3 & _).
    inversion E3; subst. discriminate. }
  apply bind_inv in E3 as ([] & s3 & ts & t4 & Es & E4 & ->).
  apply bind_inv in E4 as (fallback & s4 & tg & t5 & Eg & E5 & ->).
  destruct fallback as [r' |].
  { exfalso. inversion E5; subst.
    assert (Hg : post (globalSearchFallback recipient)
                   (fun o => forall x, o = Some x -> get x "success" = VBool false)).
    { unfold globalSearchFallback. js_auto; intros x [= <-]; reflexivity. }
    rewrite (Hg _ _ _ _ Eg r eq_refl) in Hs. discriminate. }
  destruct (typeAndSend_typed text s4 r s' t5 E5 Hs) as (ta & tb & -> & Ha & Hb).
  exists (t1 ++ [PageEv (PageQuery loginFieldsSelector) (Ret None)] ++ ts ++ tg ++ ta)%list,
    tb.
  split; [ rewrite <- !app_assoc; reflexivity | ]. split; [ | exact Hb ].
  rewrite !keys_app.
  rewrite (keys_silent t1 (openMessenger_types_nothing _ _ _ _ E1)).
  rewrite (keys_silent tg (globalSearchFallback_types_nothing _ _ _ _ _ Eg)).
  rewrite Ha. cbn [keys typed_text append].
  destruct (searchInMessenger_keys recipient _ _ ts Es) as [-> | ->];
    [ left | right ]; reflexivity.
Qed.

End MessageFacts.

(** ** Finding the message input *)

Section InputFacts.

Context {W : Type} {B : Browser W}.

Lemma waitSelectors_nothrow sels start overall :
  nothrow (@waitSelectors W B sels start overall).
Proof. induction sels as [| sel rest IH]; cbn [waitSelectors]; js_auto. Qed.

Lemma findMessageInputHandle_nothrow overall :
  nothrow (@findMessageInputHandle W B overall).
Proof.
  unfold findMessageInputHandle. js_auto. apply waitSelectors_nothrow.
Qed.

Lemma waitSelectors_found sels start overall :
  forall (s : controller W) h s' t,
    waitSelectors sels start overall s = (Ok (Some h), s', t) ->
    exists sel timeout,
      In sel sels /\ 0 < timeout <= 2000
      /\ In (PageEv (WaitForSelector sel true timeout) (Ret (Some h))) t.
Proof.
  induction sels as [| sel rest IH]; intros s h s' t; cbn [waitSelectors].
  - intros H. inversion H.
  - intros E. apply bind_inv in E as (now & s1 & t1 & t2 & _ & E & ->).
    destruct (Z.max 0 (overall - (now - start)) =? 0) eqn:Hrem;
      [ inversion E | ].
    apply Z.eqb_neq in Hrem.
    apply bind_inv in E as (found & s2 & t3 & t4 & Ef & E & ->).
    destruct found as [h0 |].
    + inversion E; subst.
      apply try_inv in Ef as [Ef | (e & ? & ? & ? & _ & Ef & _)];
        [ | inversion Ef ].
      apply call_inv in Ef as (-> & _ & _).
      exists sel, (Z.min 2000 (Z.max 0 (overall - (now - start)))).
      split; [ left; reflexivity | ]. split; [ lia | ].
      apply in_or_app. right. apply in_or_app. left. left. reflexivity.
    + destruct (IH _ _ _ _ E) as (sel' & timeout & Hin & Hto & Hev).
      exists sel', timeout. split; [ right; exact Hin | ]. split; [ exact Hto | ].
      apply in_or_app. right. apply in_or_app. right. exact Hev.
Qed.

Lemma firstCandidate_visible nodes h :
  firstCandidate nodes = Some h ->
  exists n, In n nodes /\ node_handle n = h
            /\ isVisible n = true /\ looksLikeTextbox n = true.
Proof.
  unfold firstCandidate.
  destruct (filter looksLikeTextbox nodes) as [| n rest] eqn:Hf; [ discriminate | ].
  intros [= <-].
  assert (Hin : In n (filter looksLikeTextbox nodes)) by (rewrite Hf; left; reflexivity).
  apply filter_In in Hin. destruct Hin as [Hin Hl].
  exists n. split; [ exact Hin | ]. split; [ reflexivity | ]. split; [ | exact Hl ].
  unfold looksLikeTextbox in Hl.
  destruct (isVisible n); [ reflexivity | discriminate ].
Qed.

(** X16.  [findMessageInputHandle] never rejects: it returns an
    element or [null].  An element it returns is either the answer of
    one of its waits for a visible match of one of the ten selectors
    (each wait with a timeout of more than 0 and at most 2000 ms), or
    a node of the fallback scan that is visible (displayed, of
    non-zero size, outside every [aria-hidden] subtree) and passes the
    textbox filter. *)
Theorem findMessageInputHandle_finds_a_visible_element :
  forall overallTimeout (s : controller W),
  exists r s' t,
    findMessageInputHandle overallTimeout s = (Ok r, s', t)
    /\ forall h, r = Some h ->
         (exists sel timeout,
            In sel messageInputSelectors /\ 0 < timeout <= 2000
            /\ In (PageEv (WaitForSelector sel true timeout) (Ret (Some h))) t)
         \/ (exists nodes n,
               In (PageEv EditableNodes (Ret nodes)) t
               /\ In n nodes /\ node_handle n = h
               /\ isVisible n = true /\ looksLikeTextbox n = true).
Proof.
  intros overallTimeout s.
  destruct (returns (findMessageInputHandle overallTimeout) s
              (findMessageInputHandle_nothrow overallTimeout)
              (findMessageInputHandle_fueled overallTimeout)) as (r & s' & t & E).
  exists r, s', t. split; [ exact E | ].
  intros h ->. unfold findMessageInputHandle in E.
  apply bind_inv in E as (start & s1 & t1 & t2 & _ & E & ->).
  apply bind_inv in E as (quick & s2 & t3 & t4 & Eq & E & ->).
  destruct quick as [h0 |].
  - inversion E; subst. left.
    destruct (waitSelectors_found _ _ _ _ _ _ _ Eq) as (sel & timeout & H1 & H2 & H3).
    exists sel, timeout. split; [ exact H1 | ]. split; [ exact H2 | ].
    apply in_or_app. right. apply in_or_app. left. exact H3.
  - right.
    apply try_inv in E as [E | (e & ? & ? & ? & _ & E & _)]; [ | inversion E ].
    apply bind_inv in E as (now & s3 & t5 & t6 & _ & E & ->).
    destruct (Z.max 0 (overallTimeout - (now - start)) <=? 0); [ inversion E | ].
    apply bind_inv in E as (? & s4 & t7 & t8 & _ & E & ->).
    apply bind_inv in E as (nodes & s5 & t9 & t10 & En & E & ->).
    apply call_inv in En as (-> & _ & _).
    inversion E; subst.
    destruct (firstCandidate_visible nodes h) as (n & H1 & H2 & H3 & H4);
      [ assumption | ].
    exists nodes, n. split; [ | auto ].
    do 4 (apply in_or_app; right). left. reflexivity.
Qed.

End InputFacts.

(** *** No time left *)

Section NoTime.

Context {W : Type} {B : Browser W}.

Variable clock : W -> Z.

Hypothesis clock_now : forall w, fst (host_call _ DateNow w) = clock w.
Hypothesis clock_host :
  forall A (c : Host A) w, clock w <= clock (snd (host_call A c w)).

(** X17.  On a host whose clock never runs backwards,
    [findMessageInputHandle] with no time to spend
    ([overallTimeout <= 0]) returns [null] after reading the clock
    three times: it waits for no selector and makes no call on the
    page. *)
Theorem findMessageInputHandle_without_time :
  forall overallTimeout (s : controller W),
    overallTimeout <= 0 ->
    exists now1 now2 now3 s',
      findMessageInputHandle overallTimeout s
      = (Ok None, s',
         [HostEv DateNow now1; HostEv DateNow now2; HostEv DateNow now3]).
Proof.
  intros overallTimeout s Hle.
  unfold findMessageInputHandle, messageInputSelectors.
  cbn [waitSelectors]. unfold try_catch, bind, host, ret.
  pose proof (clock_now (page s)) as N0.
  pose proof (clock_host _ DateNow (page s)) as H0.
  destruct (host_call _ DateNow (page s)) as [start w1]. run_step.
  cbn [fst snd] in N0, H0. subst start.
  pose proof (clock_now w1) as N1.
  pose proof (clock_host _ DateNow w1) as H1.
  destruct (host_call _ DateNow w1) as [now w2]. run_step.
  cbn [fst snd] in N1, H1. subst now.
  assert (Hrem : Z.max 0 (overallTimeout - (clock w1 - clock (page s))) = 0) by lia.
  rewrite Hrem. cbn [Z.eqb]. run_step.
  pose proof (clock_now w2) as N2.
  pose proof (clock_host _ DateNow w2) as H2.
  destruct (host_call _ DateNow w2) as [now' w3]. run_step.
  cbn [fst snd] in N2, H2. subst now'.
  assert (Hrem' : Z.max 0 (overallTimeout - (clock w2 - clock (page s))) = 0) by lia.
  rewrite Hrem'. cbn [Z.leb Z.compare]. run_step.
  eexists _, _, _, _. reflexivity.
Qed.

End NoTime.

(** ** The routes of the server *)

Section Routes.

Context {W : Type} {B : Browser W}.

Lemma answer_ok (op : M W obj) (c : controller W) r c' t :
  op c = (Ok r, c', t) ->
  answer op c
  = (Ok {| resp_status := if negb (truthy (get r "success")) then 400 else 200;
           resp_body := r |}, c', t).
Proof.
  intros E. unfold answer. apply try_ok. rewrite (bind_ok _ _ _ _ _ _ E).
  destruct (negb (truthy (get r "success"))); cbn [ret]; rewrite app_nil_r;
    reflexivity.
Qed.

(** X18.  [POST /friendRequest] never answers 200.  When the
    controller is not ready it answers 400 [page_not_ready] without
    touching the page; when it is ready it runs [sendFriendRequest]
    and answers 400 with the result as body, whatever the result is,
    the two success outcomes included (the result has a [status] and
    no [success], and the route tests [result.success]); it never
    answers 500. *)
Theorem friend_request_route_answers_400 :
  forall recipient (srv : server W),
  exists resp srv' t,
    postFriendRequest recipient srv = (Ok resp, srv', t)
    /\ resp_status resp = 400
    /\ match fb srv with
       | Some c =>
           if fbReady srv then
             exists c',
               sendFriendRequest recipient c = (Ok (resp_body resp), c', t)
               /\ srv' = {| fb := Some c'; fbReady := true |}
               /\ status_envelope (resp_body resp)
           else
             resp_body resp
             = [("success", VBool false); ("error", VStr "page_not_ready")]
             /\ srv' = srv /\ t = []
       | None =>
           resp_body resp
           = [("success", VBool false); ("error", VStr "page_not_ready")]
           /\ srv' = srv /\ t = []
       end.
Proof.
  intros recipient [[c |] ready]; unfold postFriendRequest; cbn [fb fbReady].
  - destruct ready; cbn [negb].
    + destruct (returns (sendFriendRequest recipient) c
                  (sendFriendRequest_nothrow recipient)
                  (sendFriendRequest_fueled recipient)) as (r & c' & t & E).
      pose proof (sendFriendRequest_post recipient c r c' t E) as Henv.
      unfold on_fb. rewrite (answer_ok _ _ _ _ _ E). cbn [fbReady].
      destruct Henv as [H0 Hrest]. rewrite H0. cbn [truthy negb].
      eexists _, _, _. split; [ reflexivity | ]. split; [ reflexivity | ].
      exists c'. cbn [resp_body]. split; [ exact E | ]. split; [ reflexivity | ].
      split; assumption.
    + eexists _, _, _. split; [ reflexivity | ]. auto.
  - eexists _, _, _. split; [ reflexivity | ]. auto.
Qed.

(** X19.  [POST /sendMessage] always answers, with 200 or 400 and
    never with 500: 400 [page_not_ready], without touching the page,
    when the controller is not ready; otherwise the result of
    [sendMessage] as body, with 200 exactly when the result is
    [{ success: true }] and with 400 when it is a failure (a body with
    [success: false], an [error] string and a screenshot
    reference). *)
Theorem send_message_route_answers :
  forall recipient text (srv : server W),
  exists resp srv' t,
    postSendMessage recipient text srv = (Ok resp, srv', t)
    /\ ((resp_status resp = 200 /\ resp_body resp = [("success", VBool true)])
        \/ (resp_status resp = 400
            /\ get (resp_body resp) "success" = VBool false
            /\ exists err, get (resp_body resp) "error" = VStr err))
    /\ match fb srv with
       | Some c =>
           if fbReady srv then
             exists c',
               sendMessage recipient text c = (Ok (resp_body resp), c', t)
               /\ srv' = {| fb := Some c'; fbReady := true |}
           else srv' = srv /\ t = []
       | None => srv' = srv /\ t = []
       end.
Proof.
  intros recipient text [[c |] ready]; unfold postSendMessage; cbn [fb fbReady].
  - destruct ready; cbn [negb].
    + destruct (returns (sendMessage recipient text) c
                  (sendMessage_nothrow recipient text)
                  (sendMessage_fueled recipient text)) as (r & c' & t & E).
      pose proof (sendMessage_results recipient text c r c' t E) as Hres.
      unfold on_fb. rewrite (answer_ok _ _ _ _ _ E). cbn [fbReady].
      eexists _, _, _. split; [ reflexivity | ]. cbn [resp_status resp_body].
      split; [ | exists c'; split; [ exact E | reflexivity ] ].
      destruct Hres as [-> | (err & shot & -> & _)]; cbn [get truthy negb].
      * left. split; reflexivity.
      * right. simpl. split; [ reflexivity | ]. split; [ reflexivity | ].
        exists err. reflexivity.
    + eexists _, _, _. split; [ reflexivity | ]. split; [ | auto ].
      right. simpl. split; [ reflexivity | ]. split; [ reflexivity | ].
      eexists. reflexivity.
  - eexists _, _, _. split; [ reflexivity | ]. split; [ | auto ].
    right. simpl. split; [ reflexivity | ]. split; [ reflexivity | ].
    eexists. reflexivity.
Qed.

Variable clock : W -> Z.

Hypothesis clock_now : forall w, fst (host_call _ DateNow w) = clock w.
Hypothesis clock_host :
  forall A (c : Host A) w, clock w <= clock (snd (host_call A c w)).
Hypothesis clock_page :
  forall A (c : Page A) w, clock w <= clock (snd (page_call A c w)).
Hypothesis clock_timer :
  forall ms w, clock w + Qfloor ms <= clock (snd (host_call _ (SetTimeout ms) w)).

(** X20.  On a host whose clock never runs backwards and whose timers
    last at least as long as asked, [POST /login] always answers
    (given the fuel for the 20 s of polling), and never with 500: 503
    [not_ready], without touching the page, when there is no
    controller; otherwise the result of [login], with two retries, as
    body, with 200 exactly when the result is [{ success: true }] and
    with 400 when it is one of the failures of [login]. *)
Theorem login_route_answers :
  forall fuel email password (srv : server W),
    20000 <= 700 * Z.of_nat fuel ->
    exists resp srv' t,
      postLogin fuel email password srv = (Ok resp, srv', t)
      /\ match fb srv with
         | Some c =>
             exists c',
               login fuel email password 2 c = (Ok (resp_body resp), c', t)
               /\ srv' = {| fb := Some c'; fbReady := fbReady srv |}
               /\ ((resp_status resp = 200
                    /\ resp_body resp = [("success", VBool true)])
                   \/ (resp_status resp = 400
                       /\ get (resp_body resp) "success" = VBool false
                       /\ login_result (resp_body resp)))
         | None =>
             resp = {| resp_status := 503;
                       resp_body := [("success", VBool false);
                                     ("error", VStr "not_ready")] |}
             /\ srv' = srv /\ t = []
         end.
Proof.
  intros fuel email password [[c |] ready] Hfuel; unfold postLogin; cbn [fb fbReady].
  - destruct (login_returns clock clock_now clock_host clock_page clock_timer
                fuel email password 2 Hfuel c) as (r & c' & t & E & _).
    pose proof (loginLoop_results _ _ _ _ _ _ c r c' t E) as Hres.
    unfold on_fb. rewrite (answer_ok _ _ _ _ _ E). cbn [fbReady].
    eexists _, _, _. split; [ reflexivity | ]. cbn [resp_status resp_body].
    exists c'. split; [ exact E | ]. split; [ reflexivity | ].
    destruct Hres as [-> | Hfail]; [ left; split; reflexivity | ].
    right.
    assert (Hs : get r "success" = VBool false).
    { destruct Hfail as [(shot & d & -> & _) | [(sn & -> & _) | [-> | (err & ->)]]];
        reflexivity. }
    rewrite Hs. cbn [truthy negb]. split; [ reflexivity | ].
    split; [ reflexivity | ]. right. exact Hfail.
  - eexists _, _, _. split; [ reflexivity | ]. auto.
Qed.

End Routes.

(** ** Waiting for one of several selectors *)

Section SelectorFacts.

Context {W : Type} {B : Browser W}.

Lemma firstSelector_spec visible timeout selectors :
  forall s : controller W,
    (exists pre sel post h s' t_pre,
       selectors = (pre ++ sel :: post)%list
       /\ Forall2 (missed visible timeout) pre t_pre
       /\ firstSelector selectors visible timeout s
          = (Ok (Some h), s',
             (t_pre ++ [PageEv (WaitForSelector sel visible timeout)
                          (Ret (Some h))])%list))
    \/ (exists s' t,
          Forall2 (missed visible timeout) selectors t
          /\ firstSelector selectors visible timeout s = (Ok None, s', t)).
Proof.
  induction selectors as [| sel rest IH]; intros s.
  - right. eexists _, _. split; [ constructor | reflexivity ].
  - assert (Estep : forall r w1,
              page_call _ (WaitForSelector sel visible timeout) (page s) = (r, w1) ->
              firstSelector (sel :: rest) visible timeout s
              = match r with
                | Ret (Some h) =>
                    (Ok (Some h), with_page s w1,
                     [PageEv (WaitForSelector sel visible timeout) r])
                | _ =>
                    let '(r', s', t') :=
                      firstSelector rest visible timeout (with_page s w1) in
                    (r', s', PageEv (WaitForSelector sel visible timeout) r :: t')
                end).
    { intros r w1 Ecall. cbn [firstSelector].
      unfold bind at 1, try_catch, call, ret. rewrite Ecall.
      destruct r as [[h |] | e]; run_step; try reflexivity;
        destruct (firstSelector rest visible timeout _) as [[? ?] ?]; reflexivity. }
    destruct (page_call _ (WaitForSelector sel visible timeout) (page s))
      as [r w1] eqn:Ecall.
    rewrite (Estep r w1 eq_refl).
    destruct r as [[h |] | e].
    + left. exists [], sel, rest, h. eexists _, []. split; [ reflexivity | ].
      split; [ constructor | reflexivity ].
    + destruct (IH (with_page s w1))
        as [(pre & sel' & post & h & s' & t_pre & -> & Hm & E)
           | (s' & t & Hm & E)]; rewrite E.
      * left. exists (sel :: pre), sel', post, h, s'. eexists (_ :: t_pre).
        split; [ reflexivity | ]. split; [ | reflexivity ].
        constructor; [ left; reflexivity | exact Hm ].
      * right. exists s'. eexists (_ :: t). split; [ | reflexivity ].
        constructor; [ left; reflexivity | exact Hm ].
    + destruct (IH (with_page s w1))
        as [(pre & sel' & post & h & s' & t_pre & -> & Hm & E)
           | (s' & t & Hm & E)]; rewrite E.
      * left. exists (sel :: pre), sel', post, h, s'. eexists (_ :: t_pre).
        split; [ reflexivity | ]. split; [ | reflexivity ].
        constructor; [ right; eexists; reflexivity | exact Hm ].
      * right. exists s'. eexists (_ :: t). split; [ | reflexivity ].
        constructor; [ right; eexists; reflexivity | exact Hm ].
Qed.

(** X21.  [waitForSelectorAny] tries the selectors in the order
    given, each with the same options (a timeout of 5000 ms unless
    the caller gives one), and returns the element of the first
    selector whose wait answers one, after exactly one wait for each
    selector before it, all of which answered [null] or failed; later
    selectors are not tried.  When no selector answers an element,
    the empty list included, it throws [No element found for
    selectors:] followed by the selectors joined with commas, after
    one wait for each. *)
Theorem waitForSelectorAny_takes_the_first_match :
  forall selectors options (s : controller W),
    let visible := match opt_visible options with Some v => v | None => false end in
    let timeout := match opt_timeout options with Some z => z | None => 5000 end in
    (exists pre sel post h s' t_pre,
       selectors = (pre ++ sel :: post)%list
       /\ Forall2 (missed visible timeout) pre t_pre
       /\ waitForSelectorAny selectors options s
          = (Ok h, s',
             (t_pre ++ [PageEv (WaitForSelector sel visible timeout)
                          (Ret (Some h))])%list))
    \/ (exists s' t,
          Forall2 (missed visible timeout) selectors t
          /\ waitForSelectorAny selectors options s
             = (Throw ("No element found for selectors: "
                       ++ String.concat ", " selectors), s', t)).
Proof.
  intros selectors options s visible timeout.
  unfold waitForSelectorAny. fold visible timeout.
  destruct (firstSelector_spec visible timeout selectors s)
    as [(pre & sel & post & h & s' & t_pre & Hsel & Hm & E)
       | (s' & t & Hm & E)].
  - left. exists pre, sel, post, h, s', t_pre.
    split; [ exact Hsel | ]. split; [ exact Hm | ].
    rewrite (bind_ok _ _ _ _ _ _ E). cbn [ret]. rewrite app_nil_r. reflexivity.
  - right. exists s', t. split; [ exact Hm | ].
    rewrite (bind_ok _ _ _ _ _ _ E). cbn [throw]. rewrite app_nil_r. reflexivity.
Qed.

End SelectorFacts.

(** ** Loading a session *)

Section LoadFacts.

Context {W : Type} {B : Browser W} {P : Platform W}.

Lemma xbind_ok {A C} (m : X W A) (k : A -> X W C) s a s1 t1 :
  m s = (Ok a, s1, t1) ->
  xbind m k s = (let '(r, s2, t2) := k a s1 in (r, s2, (t1 ++ t2)%list)).
Proof. intros E. unfold xbind. rewrite E. reflexivity. Qed.

Lemma xbind_throw {A C} (m : X W A) (k : A -> X W C) s e s1 t1 :
  m s = (Throw e, s1, t1) -> xbind m k s = (Throw e, s1, t1).
Proof. intros E. unfold xbind. rewrite E. reflexivity. Qed.

Lemma xtry_ok {A} (m : X W A) h s a s1 t1 :
  m s = (Ok a, s1, t1) -> xtry m h s = (Ok a, s1, t1).
Proof. intros E. unfold xtry. rewrite E. reflexivity. Qed.

Lemma xtry_throw {A} (m : X W A) h s e s1 t1 :
  m s = (Throw e, s1, t1) ->
  xtry m h s = (let '(r, s2, t2) := h e s1 in (r, s2, (t1 ++ t2)%list)).
Proof. intros E. unfold xtry. rewrite E. reflexivity. Qed.

Lemma ext_run {A} (c : Ext A) (s : controller W) :
  ext c s
  = (match fst (ext_call A c (page s)) with
     | Ret a => Ok a
     | Raise e => Throw e
     end,
     with_page s (snd (ext_call A c (page s))),
     [ExtEv c (fst (ext_call A c (page s)))]).
Proof. unfold ext. destruct (ext_call A c (page s)). reflexivity. Qed.

Lemma lift_call_run {A} (c : Page A) (s : controller W) :
  lift (call c) s
  = (match fst (page_call A c (page s)) with
     | Ret a => Ok a
     | Raise e => Throw e
     end,
     with_page s (snd (page_call A c (page s))),
     [Base (PageEv c (fst (page_call A c (page s))))]).
Proof. unfold lift, call. destruct (page_call A c (page s)). reflexivity. Qed.

(** A swallowed call returns, whatever the call answers. *)
Lemma xswallow_ext {A} (c : Ext A) (s : controller W) :
  xswallow (ext c) s
  = (Ok tt, with_page s (snd (ext_call A c (page s))),
     [ExtEv c (fst (ext_call A c (page s)))]).
Proof.
  unfold xswallow, xtry, xbind. rewrite ext_run.
  destruct (fst (ext_call A c (page s))); reflexivity.
Qed.

Lemma xswallow_lift_call {A} (c : Page A) (s : controller W) :
  xswallow (lift (call c)) s
  = (Ok tt, with_page s (snd (page_call A c (page s))),
     [Base (PageEv c (fst (page_call A c (page s))))]).
Proof.
  unfold xswallow, xtry, xbind. rewrite lift_call_run.
  destruct (fst (page_call A c (page s))); reflexivity.
Qed.

(** The second half of [loadSession]: the navigation and the local
    storage, both swallowed. *)
Lemma storage_applied (data : json) (s : controller W) :
  exists s' goto set,
    xtry (xbind (xswallow (lift (call (PageGoto "https://www.facebook.com"))))
            (fun _ => ext (LocalStorageSetItems data)))
      (fun _ => xret tt) s
    = (Ok tt, s',
       [Base (PageEv (PageGoto "https://www.facebook.com") goto);
        ExtEv (LocalStorageSetItems data) set]).
Proof.
  unfold xtry. rewrite (xbind_ok _ _ _ _ _ _ (xswallow_lift_call _ s)).
  rewrite ext_run.
  destruct (fst (ext_call _ (LocalStorageSetItems data) _)) as [[] | e];
    eexists _, _, _; reflexivity.
Qed.

(** The first half: the cookies, when there are any. *)
Lemma cookies_applied (parsed : json) (s : controller W) :
  exists s' t_cookies,
    match member parsed "cookies" with
    | Some c =>
        if jtruthy c && has_length c
        then xswallow (ext (ContextAddCookies c))
        else xret tt
    | None => xret tt
    end s = (Ok tt, s', t_cookies)
    /\ match applied_cookies parsed with
       | Some c => exists added, t_cookies = [ExtEv (ContextAddCookies c) added]
       | None => t_cookies = []
       end.
Proof.
  unfold applied_cookies. destruct (member parsed "cookies") as [c |].
  - destruct (jtruthy c && has_length c).
    + rewrite xswallow_ext. eexists _, _. split; [ reflexivity | ].
      eexists. reflexivity.
    + eexists _, _. split; reflexivity.
  - eexists _, _. split; reflexivity.
Qed.

Lemma loadSession_unreadable name (s : controller W) err w1 :
  ext_call _ (FsReadJson (session_path name)) (page s)
  = (Raise err, w1) ->
  loadSession name s
  = (Ok [("ok", VBool false); ("error", VStr err)], with_page s w1,
     [ExtEv (FsReadJson (session_path name)) (Raise err)]).
Proof.
  intros Er. unfold loadSession. rewrite session_path_eq. cbv zeta.
  pose proof (ext_run (FsReadJson (session_path name)) s)
    as Eread.
  rewrite Er in Eread. cbn [fst snd] in Eread.
  rewrite (xtry_throw _ _ _ _ _ _ (xbind_throw _ _ _ _ _ _ Eread)). reflexivity.
Qed.

Lemma loadSession_null name (s : controller W) w1 :
  ext_call _ (FsReadJson (session_path name)) (page s)
  = (Ret JNull, w1) ->
  loadSession name s
  = (Ok [("ok", VBool false);
         ("error", VStr "Cannot read properties of null (reading 'cookies')")],
     with_page s w1,
     [ExtEv (FsReadJson (session_path name)) (Ret JNull)]).
Proof.
  intros Er. unfold loadSession. rewrite session_path_eq. cbv zeta.
  pose proof (ext_run (FsReadJson (session_path name)) s)
    as Eread.
  rewrite Er in Eread. cbn [fst snd] in Eread.
  erewrite xtry_throw.
  2:{ rewrite (xbind_ok _ _ _ _ _ _ Eread). reflexivity. }
  reflexivity.
Qed.

Lemma loadSession_applied name (s : controller W) parsed w1 :
  ext_call _ (FsReadJson (session_path name)) (page s)
  = (Ret parsed, w1) ->
  parsed <> JNull ->
  exists s' t_cookies goto set,
    loadSession name s
    = (Ok [("ok", VBool true);
           ("file", VStr (session_path name))], s',
       ExtEv (FsReadJson (session_path name)) (Ret parsed)
       :: (t_cookies
           ++ [Base (PageEv (PageGoto "https://www.facebook.com") goto);
               ExtEv (LocalStorageSetItems
                        (or_empty_object (member parsed "localStorage"))) set])%list)
    /\ match applied_cookies parsed with
       | Some c => exists added, t_cookies = [ExtEv (ContextAddCookies c) added]
       | None => t_cookies = []
       end.
Proof.
  intros Er Hnn. unfold loadSession. rewrite session_path_eq. cbv zeta.
  pose proof (ext_run (FsReadJson (session_path name)) s)
    as Eread.
  rewrite Er in Eread. cbn [fst snd] in Eread.
  destruct (cookies_applied parsed (with_page s w1)) as (s2 & t_cookies & Ec & Hc).
  destruct (storage_applied (or_empty_object (member parsed "localStorage")) s2)
    as (s3 & goto & set & Es).
  exists s3, t_cookies, goto, set. split; [ | exact Hc ].
  apply xtry_ok. rewrite (xbind_ok _ _ _ _ _ _ Eread).
  assert (Em : match parsed with
               | JNull =>
                   xthrow "Cannot read properties of null (reading 'cookies')"
               | _ => xret (member parsed "cookies")
               end (with_page s w1)
               = (Ok (member parsed "cookies"), with_page s w1, [])).
  { destruct parsed; try reflexivity. exfalso. apply Hnn. reflexivity. }
  rewrite (xbind_ok _ _ _ _ _ _ Em).
  rewrite (xbind_ok _ _ _ _ _ _ Ec).
  rewrite (xbind_ok _ _ _ _ _ _ Es).
  cbn [xret app]. rewrite ?app_nil_r. reflexivity.
Qed.

Lemma loadSession_total name (s : controller W) :
  exists r s' t, loadSession name s = (Ok r, s', t).
Proof.
  destruct (ext_call _ (FsReadJson (session_path name)) (page s))
    as [[parsed | err] w1] eqn:Er.
  - destruct parsed as [| b | n | str | items | fields];
      try (edestruct (loadSession_applied name s _ w1 Er) as (? & ? & ? & ? & E & _);
           [ discriminate | rewrite E; eauto ]).
    rewrite (loadSession_null name s w1 Er). eauto.
  - rewrite (loadSession_unreadable name s err w1 Er). eauto.
Qed.

(** X22.  [loadSession] never rejects.  It reads
    [path.join(process.cwd(), "sessions", name + ".json")]
    ([session_path], a normalised path), the file [saveSession] writes
    for the same name.  When the file cannot be read or parsed, or holds
    [null], the answer is [{ ok: false, error }] and nothing else is
    done.  Otherwise the answer is [{ ok: true, file }], after these
    calls, whatever they answer: [addCookies] with the [cookies] of
    the file, only if that property is truthy and has a truthy
    [length] (a non-empty list, in a file of [saveSession]); the
    navigation to
    [https://www.facebook.com]; the setting of the local storage from
    the property [localStorage] of the file (an empty object when it
    is absent or falsy).  So [ok: true] says that the file was read,
    not that the session was applied. *)
Theorem loadSession_reports_the_file :
  forall name (s : controller W),
    let file := session_path name in
    exists r s' read t,
      loadSession name s = (Ok r, s', ExtEv (FsReadJson file) read :: t)
      /\ match read with
         | Raise err =>
             r = [("ok", VBool false); ("error", VStr err)] /\ t = []
         | Ret JNull =>
             r = [("ok", VBool false);
                  ("error",
                   VStr "Cannot read properties of null (reading 'cookies')")]
             /\ t = []
         | Ret parsed =>
             r = [("ok", VBool true); ("file", VStr file)]
             /\ exists t_cookies goto set,
                  t = (t_cookies
                       ++ [Base (PageEv (PageGoto "https://www.facebook.com") goto);
                           ExtEv (LocalStorageSetItems
                                    (or_empty_object (member parsed "localStorage")))
                             set])%list
                  /\ match applied_cookies parsed with
                     | Some c =>
                         exists added, t_cookies = [ExtEv (ContextAddCookies c) added]
                     | None => t_cookies = []
                     end
         end.
Proof.
  intros name s file.
  destruct (ext_call _ (FsReadJson file) (page s)) as [[parsed | err] w1] eqn:Er.
  - assert (Hcase : parsed = JNull \/ parsed <> JNull)
      by (destruct parsed; [ left; reflexivity | right; discriminate .. ]).
    destruct Hcase as [-> | Hnn].
    + rewrite (loadSession_null name s w1 Er).
      eexists _, _, _, _. split; [ reflexivity | ]. split; reflexivity.
    + destruct (loadSession_applied name s parsed w1 Er Hnn)
        as (s' & t_cookies & goto & set & E & Hc).
      rewrite E. eexists _, _, _, _. split; [ reflexivity | ].
      destruct parsed; try (exfalso; apply Hnn; reflexivity);
        (split; [ reflexivity | ]);
        exists t_cookies, goto, set; (split; [ reflexivity | exact Hc ]).
  - rewrite (loadSession_unreadable name s err w1 Er).
    eexists _, _, _, _. split; [ reflexivity | ]. split; reflexivity.
Qed.


Lemma upload_path (name : string) :
  Js.path_join (Js.path_join cwd "sessions") (name ++ ".json") = session_path name.
Proof. reflexivity. Qed.

(** X24.  [POST /uploadSession] answers 400 [no_session], without
    touching anything, when the request has no [session] or a falsy
    one.  Otherwise it creates [path.join(process.cwd(), "sessions")],
    writes the session to [path.join(<that directory>, sessionName +
    ".json")] ([default] when no name is given; the path is
    normalised, so a name with [..] segments leaves the directory),
    which is the very file [loadSession] then reads for that name, and
    answers 200 with the path of the file, whatever
    [loadSession] answers: a session that could not be applied is not
    reported.  It answers 500 exactly when creating the directory or
    writing the file fails, and then nothing is loaded. *)
Theorem upload_route_answers :
  forall optSessionName session (s : controller W),
    let name := match optSessionName with Some n => n | None => "default" end in
    let dir := sessions_dir in
    let file := session_path name in
    exists resp s' t,
      postUploadSession optSessionName session s = (Ok resp, s', t)
      /\ match session with
         | Some data =>
             if jtruthy data then
               (exists w2 loaded t_load,
                  resp = {| resp_status := 200;
                            resp_body := [("success", VBool true);
                                          ("file", VStr file)] |}
                  /\ t = (Base (PageEv (FsMkdir dir) (Ret tt))
                          :: ExtEv (FsWriteJson file data) (Ret tt) :: t_load)
                  /\ loadSession name (with_page s w2) = (Ok loaded, s', t_load))
               \/ (exists err,
                     resp = {| resp_status := 500;
                               resp_body := [("success", VBool false);
                                             ("error", VStr err)] |}
                     /\ (t = [Base (PageEv (FsMkdir dir) (Raise err))]
                         \/ t = [Base (PageEv (FsMkdir dir) (Ret tt));
                                 ExtEv (FsWriteJson file data) (Raise err)]))
             else
               resp = {| resp_status := 400;
                         resp_body := [("success", VBool false);
                                       ("error", VStr "no_session")] |}
               /\ t = []
         | None =>
             resp = {| resp_status := 400;
                       resp_body := [("success", VBool false);
                                     ("error", VStr "no_session")] |}
             /\ t = []
         end.
Proof.
  intros optSessionName session s name dir file.
  unfold postUploadSession. fold name. cbv zeta.
  destruct session as [data |];
    [ | eexists _, _, _; split; [ reflexivity | split; reflexivity ] ].
  destruct (jtruthy data); cbn [negb];
    [ | eexists _, _, _; split; [ reflexivity | split; reflexivity ] ].
  rewrite upload_path. fold file.
  change (Js.path_join cwd "sessions") with dir.
  pose proof (lift_call_run (FsMkdir dir) s) as Em.
  destruct (page_call _ (FsMkdir dir) (page s)) as [[[] | e1] w1];
    cbn [fst snd] in Em.
  - pose proof (ext_run (FsWriteJson file data) (with_page s w1)) as Ew.
    destruct (ext_call _ (FsWriteJson file data) (page (with_page s w1)))
      as [[[] | e2] w2]; cbn [fst snd] in Ew.
    + destruct (loadSession_total name (with_page (with_page s w1) w2))
        as (loaded & s' & t_load & El).
      eexists _, s', _. split.
      * apply xtry_ok. rewrite (xbind_ok _ _ _ _ _ _ Em).
        rewrite (xbind_ok _ _ _ _ _ _ Ew).
        rewrite (xbind_ok _ _ _ _ _ _ El). cbn [xret app].
        rewrite app_nil_r. reflexivity.
      * left. exists w2, loaded, t_load.
        split; [ reflexivity | ]. split; [ reflexivity | exact El ].
    + eexists _, _, _. split.
      * erewrite xtry_throw.
        2:{ rewrite (xbind_ok _ _ _ _ _ _ Em).
            rewrite (xbind_throw _ _ _ _ _ _ Ew). reflexivity. }
        reflexivity.
      * right. exists e2. split; [ reflexivity | right; reflexivity ].
  - eexists _, _, _. split.
    + rewrite (xtry_throw _ _ _ _ _ _ (xbind_throw _ _ _ _ _ _ Em)). reflexivity.
    + right. exists e1. split; [ reflexivity | left; reflexivity ].
Qed.

(** The file [persistSession] reports is the one it has written. *)
Lemma persistSession_written (s : controller W) path s1 t1 :
  persistSession s = (Ok (Some path), s1, t1) ->
  path = session_path (sessionName s)
  /\ exists data, In (PageEv (FsWriteFile path data) (Ret tt)) t1.
Proof.
  unfold persistSession, saveSession, this, try_catch, bind, call, host, ret.
  run_step. rewrite session_path_eq.
  destruct (page_call _ (FsMkdir _) (page s)) as [[[] | e0] w0]; run_step;
    (destruct (page_call _ ContextCookies w0) as [[cookies | e1] w1]; run_step;
     [ destruct (page_call _ LocalStorageEntries w1) as [[storage | e2] w2];
       run_step;
       [ destruct (host_call _ DateToISOString w2) as [savedAt w3]; run_step;
         destruct (page_call _ (FsWriteFile _ _) w3) as [[[] | e3] w4]; run_step
       | ]
     | ]);
    intros E; apply (f_equal (fun x => (fst (fst x), snd x))) in E;
    cbn [fst snd] in E; try discriminate E;
    injection E as <- <-; (split; [ reflexivity | ]);
    eexists; simpl; eauto 10.
Qed.

(** What [loadSession] takes from a file that [saveSession] wrote. *)
Lemma saved_cookies_applied (data : session_file) :
  applied_cookies (json_of_session data)
  = match sf_cookies data with
    | [] => None
    | _ :: _ => Some (JArr (map json_of_cookie (sf_cookies data)))
    end.
Proof. destruct data as [[| c cs] storage at_]; reflexivity. Qed.

Lemma saved_storage_applied (data : session_file) :
  or_empty_object (member (json_of_session data) "localStorage")
  = json_of_storage (sf_localStorage data).
Proof. reflexivity. Qed.

(** X25.  Saving and loading fit together.  The file [persistSession]
    has written for a controller is the file [loadSession] reads for
    the session name of that controller; and when the file system
    gives back what was written, [loadSession] answers
    [{ ok: true, file }] and hands the saved session to the browser:
    the saved cookies to [addCookies], unless none were saved, in
    which case [addCookies] is not called, and the saved entries of
    the local storage to the page, after a navigation to
    [https://www.facebook.com]. *)
Theorem saved_session_is_loaded :
  forall (s : controller W) path s1 t1,
    persistSession s = (Ok (Some path), s1, t1) ->
    exists data,
      In (PageEv (FsWriteFile path data) (Ret tt)) t1
      /\ forall (s2 : controller W) w,
           ext_call _ (FsReadJson path) (page s2)
           = (Ret (json_of_session data), w) ->
           exists s3 t_cookies goto set,
             loadSession (sessionName s) s2
             = (Ok [("ok", VBool true); ("file", VStr path)], s3,
                ExtEv (FsReadJson path) (Ret (json_of_session data))
                :: (t_cookies
                    ++ [Base (PageEv (PageGoto "https://www.facebook.com") goto);
                        ExtEv (LocalStorageSetItems
                                 (json_of_storage (sf_localStorage data))) set])%list)
             /\ match sf_cookies data with
                | [] => t_cookies = []
                | _ :: _ =>
                    exists added,
                      t_cookies
                      = [ExtEv (ContextAddCookies
                                  (JArr (map json_of_cookie (sf_cookies data))))
                           added]
                end.
Proof.
  intros s path s1 t1 E.
  destruct (persistSession_written s path s1 t1 E) as (-> & data & Hw).
  exists data. split; [ exact Hw | ].
  intros s2 w Er.
  destruct (loadSession_applied (sessionName s) s2 (json_of_session data) w Er)
    as (s3 & t_cookies & goto & set & El & Hc); [ discriminate | ].
  exists s3, t_cookies, goto, set.
  rewrite saved_storage_applied in El. split; [ exact El | ].
  rewrite saved_cookies_applied in Hc.
  destruct (sf_cookies data); exact Hc.
Qed.

End LoadFacts.

(** ** Concrete runs of the further properties *)

(** The scripted browser keeps the laws of the clock. *)
Lemma site_clock_now (st : site) :
  forall w, fst (@host_call Z (siteBrowser st) _ DateNow w) = w.
Proof. intros w. reflexivity. Qed.

Lemma site_clock_host (st : site) :
  forall A (c : Host A) w, w <= snd (@host_call Z (siteBrowser st) A c w).
Proof. intros A c w. destruct c; simpl; lia. Qed.

Lemma site_clock_page (st : site) :
  forall A (c : Page A) w, w <= snd (@page_call Z (siteBrowser st) A c w).
Proof.
  intros A c w. destruct c; simpl;
    repeat match goal with
           | |- context [match ?x with _ => _ end] => destruct x
           | |- context [if ?b then _ else _] => destruct b
           end; simpl; lia.
Qed.

Lemma site_clock_timer (st : site) :
  forall ms w,
    w + Qfloor ms <= snd (@host_call Z (siteBrowser st) _ (SetTimeout ms) w).
Proof.
  intros ms w. simpl.
  assert (Qfloor ms <= Qceiling ms).
  { rewrite Zle_Qle. eapply Qle_trans; [ apply Qfloor_le | apply Qle_ceiling ]. }
  lia.
Qed.

(** X2 on the scripted browser: the fresh controller has never
    acted. *)
Lemma throttle_keeps_the_interval_witness :
  exists s' t,
    @throttle Z (siteBrowser blankSite) freshController = (Ok tt, s', t)
    /\ 0 + 10000 <= _lastActionAt s'
    /\ _lastActionAt s' <= page s'
    /\ minMessageIntervalMs s' = 10000
    /\ forallb (fun e => negb (is_page_call e)) t = true.
Proof.
  exact (throttle_keeps_the_interval (B := siteBrowser blankSite)
           (fun w => w) (site_clock_now blankSite) (site_clock_host blankSite)
           (site_clock_timer blankSite) freshController).
Defined.

(** X1 on a Playwright page: nothing is captured. *)
Example captureScreenshot_on_a_playwright_page :
  fst (fst (@captureScreenshot Z sessionBrowser "captcha-by-url" freshController))
  = Ok [("success", VBool false);
        ("error", VStr "page.setViewport is not a function")].
Proof. vm_compute. reflexivity. Qed.

(** X3: two characters typed into an element. *)
Lemma humanType_types_the_text_witness :
  keys (snd (@humanTypeWith Z (siteBrowser blankSite) (ByHandle (Some 5%nat))
               "hi" 70 140 freshController)) = "hi".
Proof.
  set (run := @humanTypeWith Z (siteBrowser blankSite) (ByHandle (Some 5%nat))
                "hi" 70 140 freshController).
  assert (E : run = (Ok tt, snd (fst run), snd run)) by (vm_compute; reflexivity).
  exact (proj2 (humanType_types_the_text (B := siteBrowser blankSite)
                  (ByHandle (Some 5%nat)) "hi" 70 140 freshController _ _ _ E)
           eq_refl).
Defined.

(** X4 on a text of three code points, one of them outside the basic
    plane: three key strokes, three pauses. *)
Lemma humanType_pauses_between_characters_witness :
  let t := snd (@humanTypeWith Z (siteBrowser blankSite) (ByHandle (Some 5%nat))
                  "né😀" 70 140 freshController) in
  Forall (fun ms => exists d, ms = inject_Z d /\ 70 <= d < 140) (pauses t)
  /\ List.length (pauses t) = strokes t
  /\ strokes t = 3%nat.
Proof.
  intros t.
  set (run := @humanTypeWith Z (siteBrowser blankSite) (ByHandle (Some 5%nat))
                "né😀" 70 140 freshController) in *.
  assert (E : run = (Ok tt, snd (fst run), snd run)) by (vm_compute; reflexivity).
  destruct (humanType_pauses_between_characters (B := siteBrowser blankSite)
              (ByHandle (Some 5%nat)) "né😀" 70 140 freshController _ _ _
              eq_refl E) as (H1 & H2 & H3).
  split; [ exact H1 | ]. split; [ exact H2 | exact (H3 eq_refl) ].
Defined.

(** X5 on a body of 1280 by 800: the move goes to (768, 400). *)
Lemma smallHumanMove_stays_in_the_body_witness :
  exists (r1 r2 : unit01) x y rep s',
    @smallHumanMove Z (siteBrowser blankSite) freshController
    = (Ok tt, s',
       [PageEv BodyRect (Ret (Some (1280 # 1, 800 # 1)%Q));
        HostEv MathRandom r1;
        HostEv MathRandom r2;
        PageEv (MouseMove x y 10) rep])
    /\ 0 <= x /\ (inject_Z x <= 1280 # 1)%Q
    /\ 0 <= y /\ (inject_Z y <= 800 # 1)%Q.
Proof.
  apply (smallHumanMove_stays_in_the_body (B := siteBrowser blankSite)
           freshController (1280 # 1) (800 # 1) (page freshController)).
  - reflexivity.
  - discriminate.
  - discriminate.
Defined.

(** X8 on a checkpoint address. *)
Lemma url_tier_is_first_witness :
  exists shot s' t_shot,
    @captureScreenshot Z (siteBrowser checkpointSite) "captcha-by-url"
      freshController = (Ok shot, s', t_shot)
    /\ @detectCaptcha Z (siteBrowser checkpointSite) freshController
       = (Ok [("detected", VBool true); ("method", VStr "url");
              ("match", VStr "https://www.facebook.com/checkpoint/?next");
              ("screenshot", shot_ref shot);
              ("snippet", VNull)],
          s',
          PageEv PageUrl (Ret "https://www.facebook.com/checkpoint/?next")
          :: t_shot)
    /\ forallb is_diagnostic t_shot = true.
Proof.
  apply (url_tier_is_first (B := siteBrowser checkpointSite) freshController
           "https://www.facebook.com/checkpoint/?next" (page freshController)).
  - reflexivity.
  - vm_compute. reflexivity.
Defined.

(** X9 on a page with an advertisement frame and an element that a
    candidate selector matches, neither of which shows a challenge. *)
Lemma clean_page_is_not_detected_witness :
  exists s' t,
    @detectCaptcha Z (siteBrowser quietSite) freshController
    = (Ok not_detected, s', t).
Proof.
  apply (clean_page_is_not_detected (B := siteBrowser quietSite)).
  - intros w. vm_compute. reflexivity.
  - intros w g [<- | []]. split; intros w'.
    + eexists. split; vm_compute; reflexivity.
    + vm_compute. reflexivity.
  - intros sel Hsel w.
    repeat (destruct Hsel as [<- | Hsel];
            [ first [ exact I
                    | split; [ reflexivity | intros w'; vm_compute; reflexivity ] ]
            | ]).
    destruct Hsel.
  - intros w. vm_compute. reflexivity.
Defined.

(** X10 on the wrong-password page. *)
Lemma login_results_witness :
  login_result
    [("success", VBool false); ("error", VStr "invalid_credentials");
     ("detail", VStr "the password you entered is incorrect.")]
  /\ get [("success", VBool false); ("error", VStr "invalid_credentials");
          ("detail", VStr "the password you entered is incorrect.")]
       "alreadyLoggedIn" = VUndef.
Proof.
  set (run := @login Z (siteBrowser wrongPasswordSite) 40 "a@b.c" "pw" 2
                freshController).
  assert (E : run
              = (Ok [("success", VBool false);
                     ("error", VStr "invalid_credentials");
                     ("detail", VStr "the password you entered is incorrect.")],
                 snd (fst run), snd run))
    by (vm_compute; reflexivity).
  exact (login_results (B := siteBrowser wrongPasswordSite)
           40%nat "a@b.c" "pw" 2 freshController _ _ _ E).
Defined.

(** X11 on a login form that always leads to a checkpoint: three
    attempts with two retries. *)
Lemma login_attempts_are_bounded_witness :
  (login_gotos
     (snd (@loginLoop Z (siteBrowser checkpointSite) 5 40 "a@b.c" "pw" 2 0
             freshController)) <= 3)%nat.
Proof.
  set (run := @loginLoop Z (siteBrowser checkpointSite) 5 40 "a@b.c" "pw" 2 0
                freshController).
  assert (E : run = (fst (fst run), snd (fst run), snd run))
    by (destruct run as [[? ?] ?]; reflexivity).
  exact (login_attempts_are_bounded (B := siteBrowser checkpointSite)
           5%nat 40%nat "a@b.c" "pw" 2 0 freshController _ _ _ E).
Defined.


(** X13 on the page of somebody who is logged in. *)
Lemma already_logged_in_skips_the_form_witness :
  let opened := @openLoginPage Z (siteBrowser loggedInSite) freshController in
  exists p s2 t2,
    @persistSession Z (siteBrowser loggedInSite) (snd (fst opened)) = (Ok p, s2, t2)
    /\ @loginLoop Z (siteBrowser loggedInSite) 3 40 "a@b.c" "pw" 2 0 freshController
       = (Ok [("success", VBool true)], s2, (snd opened ++ t2)%list)
    /\ forallb hands_off (snd opened ++ t2) = true.
Proof.
  intros opened.
  assert (E : opened
              = (Ok (Some [("alreadyLoggedIn", VBool true); ("success", VBool true)]),
                 snd (fst opened), snd opened))
    by (vm_compute; reflexivity).
  exact (already_logged_in_skips_the_form (B := siteBrowser loggedInSite)
           2%nat 40%nat "a@b.c" "pw" 2 0 freshController _ _ _
           ltac:(discriminate) E).
Defined.

(** X15 on an open conversation: the message is typed and sent. *)
Lemma sent_message_was_typed_witness :
  exists ta tb,
    snd (@sendMessage Z (siteBrowser chatSite) "Jane Doe" "hi" freshController)
    = (ta ++ PageEv (KeyboardPress "Enter") (Ret tt) :: tb)%list
    /\ (keys ta = "hi" \/ keys ta = "Jane Doe" ++ "hi")
    /\ keys tb = EmptyString.
Proof.
  set (run := @sendMessage Z (siteBrowser chatSite) "Jane Doe" "hi" freshController).
  assert (E : run = (Ok [("success", VBool true)], snd (fst run), snd run))
    by (vm_compute; reflexivity).
  exact (sent_message_was_typed (B := siteBrowser chatSite)
           "Jane Doe" "hi" freshController _ _ _ E eq_refl).
Defined.

(** X17 on the scripted browser. *)
Lemma findMessageInputHandle_without_time_witness :
  exists now1 now2 now3 s',
    @findMessageInputHandle Z (siteBrowser chatSite) 0 freshController
    = (Ok None, s',
       [HostEv DateNow now1; HostEv DateNow now2; HostEv DateNow now3]).
Proof.
  apply (findMessageInputHandle_without_time (B := siteBrowser chatSite)
           (fun w => w) (site_clock_now chatSite) (site_clock_host chatSite)).
  discriminate.
Defined.

(** X20 on the wrong-password page: the route answers 400. *)
Lemma login_route_answers_witness :
  exists resp srv' t,
    @postLogin Z (siteBrowser wrongPasswordSite) 29 "a@b.c" "pw" readyServer
    = (Ok resp, srv', t)
    /\ exists c',
         @login Z (siteBrowser wrongPasswordSite) 29 "a@b.c" "pw" 2 freshController
         = (Ok (resp_body resp), c', t)
         /\ srv' = {| fb := Some c'; fbReady := true |}
         /\ ((resp_status resp = 200
              /\ resp_body resp = [("success", VBool true)])
             \/ (resp_status resp = 400
                 /\ get (resp_body resp) "success" = VBool false
                 /\ login_result (resp_body resp))).
Proof.
  apply (login_route_answers (B := siteBrowser wrongPasswordSite)
           (fun w => w) (site_clock_now _) (site_clock_host _)
           (site_clock_page _) (site_clock_timer _) 29%nat "a@b.c" "pw" readyServer).
  discriminate.
Defined.

(** On the Playwright page [initSession] answers [null] although the
    session file is there: the file is not read. *)
Example initSession_on_a_playwright_page :
  @initSession Z sessionBrowser
    (diskPlatform [("/app/sessions/default.json", json_of_session sessionFile)])
    freshController
  = (Ok None, freshController,
     [Base (PageEv (SetViewport 1280 800)
              (Raise "this.page.setViewport is not a function"))]).
Proof. vm_compute. reflexivity. Qed.

(** X25 in a browser context that holds two cookies and one entry of
    the local storage, on a file system that holds the file: both are
    handed back to the browser. *)
Lemma saved_session_is_loaded_witness :
  exists data,
    In (PageEv (FsWriteFile "/app/sessions/default.json" data) (Ret tt))
      (snd (@persistSession Z sessionBrowser freshController))
    /\ forall (s2 : controller Z) w,
         @ext_call Z
           (diskPlatform [("/app/sessions/default.json", json_of_session sessionFile)])
           _ (FsReadJson "/app/sessions/default.json") (page s2)
         = (Ret (json_of_session data), w) ->
         exists s3 t_cookies goto set,
           @loadSession Z sessionBrowser
             (diskPlatform [("/app/sessions/default.json",
                             json_of_session sessionFile)])
             "default" s2
           = (Ok [("ok", VBool true); ("file", VStr "/app/sessions/default.json")],
              s3,
              ExtEv (FsReadJson "/app/sessions/default.json")
                (Ret (json_of_session data))
              :: (t_cookies
                  ++ [Base (PageEv (PageGoto "https://www.facebook.com") goto);
                      ExtEv (LocalStorageSetItems
                               (json_of_storage (sf_localStorage data))) set])%list)
           /\ match sf_cookies data with
              | [] => t_cookies = []
              | _ :: _ =>
                  exists added,
                    t_cookies
                    = [ExtEv (ContextAddCookies
                                (JArr (map json_of_cookie (sf_cookies data))))
                         added]
              end.
Proof.
  set (run := @persistSession Z sessionBrowser freshController).
  assert (E : run = (Ok (Some "/app/sessions/default.json"), snd (fst run), snd run))
    by (vm_compute; reflexivity).
  exact (saved_session_is_loaded (B := sessionBrowser)
           (P := diskPlatform [("/app/sessions/default.json",
                                json_of_session sessionFile)])
           freshController "/app/sessions/default.json" _ _ E).
Defined.

(** The session files of the scripted process: the file of a plain
    name lies in the directory of the sessions, the file of a name with
    a [..] segment does not. *)
Example session_path_of_a_plain_name :
  @session_path Z (siteBrowser blankSite) "default" = "/app/sessions/default.json".
Proof. vm_compute. reflexivity. Qed.

Example session_path_leaves_the_directory :
  @session_path Z (siteBrowser blankSite) "../evil" = "/app/evil.json".
Proof. vm_compute. reflexivity. Qed.
